(** * MoveBuddy calendar: the time-block layout engine

    A shallow embedding of the [Calendar] component of the scheduling
    board (the second document of [src/modules/leads/LeadManagement.tsx]):
    pixel/time conversion, block creation, the three drag interactions
    (move, resize, preparation time), the mover roster and the block
    editor.

    Conventions of the embedding.
    - A JavaScript number holding a pixel coordinate is an exact rational
      ([Q]); a number holding minutes, a lane index or an array index is an
      integer ([Z]).  [NaN] and the infinities are not represented; the one
      place where the source could produce [NaN] makes the model return
      [None].  The source computes on IEEE doubles, whose operations round:
      the exact and the rounded value of [Math.round] can differ for an
      argument within a rounding error of a tie [k + 1/2], and nowhere
      else.  A statement that names the minutes or the lane a pixel value
      stands for is therefore made for values that keep clear of the ties
      (whole pixels, or a stated distance from the tie).
    - A [Date] is its time value in milliseconds, read in a local time zone
      with a fixed offset (no daylight-saving jump), so that the local-time
      setters are plain arithmetic.
    - An array held in React state is a location in a store ([gmap]):
      object spread copies the reference, [filter] allocates, [push] and
      [splice] update the store in place. *)

From Stdlib Require Import ZArith QArith Qround Qminmax Lqa.
From stdpp Require Import gmap strings list pretty.

Local Open Scope Z_scope.

(** ** JavaScript numbers and dates *)

Module Js.

(** [Math.round]: the nearest integer, ties towards plus infinity. *)
Definition round (x : Q) : Z := Qfloor (x + (1 # 2))%Q.

(** [Math.max] and [Math.min] on pixel values. *)
Definition maxQ (a b : Q) : Q := Qmax a b.
Definition minQ (a b : Q) : Q := Qmin a b.

(** [a % b] on integers: the remainder takes the sign of the dividend. *)
Definition rem (a b : Z) : Z := Z.rem a b.

Definition Date := Z.

Definition MS_PER_MINUTE : Z := 60000.
Definition MS_PER_HOUR : Z := 3600000.
Definition MS_PER_DAY : Z := 86400000.

Definition startOfDay (t : Date) : Date := (t / MS_PER_DAY) * MS_PER_DAY.
Definition getHours (t : Date) : Z := (t / MS_PER_HOUR) mod 24.
Definition getMinutes (t : Date) : Z := (t / MS_PER_MINUTE) mod 60.

(** [d.setHours(h, m, 0, 0)]: out-of-range components carry over. *)
Definition setHours4 (t : Date) (h m : Z) : Date :=
  startOfDay t + h * MS_PER_HOUR + m * MS_PER_MINUTE.

(** [d.setHours(h)]: minutes, seconds and milliseconds are kept. *)
Definition setHours (t : Date) (h : Z) : Date :=
  t + (h - getHours t) * MS_PER_HOUR.

(** [d.setMinutes(m)]. *)
Definition setMinutes (t : Date) (m : Z) : Date :=
  t + (m - getMinutes t) * MS_PER_MINUTE.

(** [arr.indexOf(x)]: the first index holding [x], or [-1]. *)
Fixpoint indexOf (x : string) (arr : list string) : Z :=
  match arr with
  | [] => -1
  | y :: rest =>
      if decide (y = x) then 0
      else let i := indexOf x rest in if i <? 0 then -1 else i + 1
  end.

(** [arr.splice(i, 1)] for an index that [indexOf] returned. *)
Definition splice1 (i : Z) (arr : list string) : list string :=
  delete (Z.to_nat i) arr.

(** [arr.push(x)]. *)
Definition push (x : string) (arr : list string) : list string := arr ++ [x].

End Js.

(** ** Data model *)

Definition loc := nat.

Record PrepTime := mkPrep {
  prep_start : Js.Date;
  prep_duration : Z
}.

Record TimeBlock := mkBlock {
  id : string;
  title : string;
  start : Js.Date;
  end_ : Js.Date;
  description : option string;
  location : option string;
  color : string;
  column : Z;
  prepTime : option PrepTime;
  assignedMovers : option loc
}.

Inductive DragType := move | resize | prep.

Record DragState := mkDrag {
  type : DragType;
  blockId : string;
  initialX : Q;
  initialY : Q;
  initialColumn : option Z;
  initialHeight : option Q;
  initialTop : option Q;
  initialPrepHeight : option Z;
  isDragging : bool;
  touchIdentifier : option Z
}.

Record Mover := mkMover {
  mover_id : string;
  mover_name : string;
  mover_color : string
}.

(** The part of [getBoundingClientRect()] that the component reads. *)
Record Rect := mkRect {
  rect_top : Q;
  rect_height : Q
}.

(** A rendered block element: its rectangle and its [offsetHeight]. *)
Record Element := mkElement {
  elem_rect : Rect;
  offsetHeight : Z
}.

(** A mouse event, or the touch of a touch event. *)
Record Point := mkPoint {
  clientX : Q;
  clientY : Q
}.

Definition MINUTES_IN_DAY : Z := 24 * 60.
Definition HOUR_HEIGHT : Z := 60.
Definition SNAP_MINUTES : Z := 15.
Definition BLOCK_WIDTH : Z := 200.
Definition COLUMN_GAP : Z := 10.
Definition MAX_COLUMNS : Z := 4.
Definition TIME_BLOCK_COLORS : list string :=
  [ "rgba(59, 130, 246, 0.9)";
    "rgba(16, 185, 129, 0.9)";
    "rgba(245, 158, 11, 0.9)";
    "rgba(239, 68, 68, 0.9)";
    "rgba(139, 92, 246, 0.9)" ]%string.

Definition DEFAULT_MOVERS : list Mover :=
  [ mkMover "1" "Johnny" "#FF6B6B";
    mkMover "2" "Cristiani" "#4ECDC4";
    mkMover "3" "Alex" "#45B7D1";
    mkMover "4" "Christian" "#96CEB4";
    mkMover "5" "Stewart" "#FFEEAD";
    mkMover "6" "Manny" "#D4A5A5";
    mkMover "7" "Cory" "#9B89B3" ]%string.

(** The store of mover-id arrays and the view of a block through it. *)

Definition moversAt (h : gmap loc (list string)) (r : option loc) : list string :=
  match r with
  | Some l => default [] (h !! l)
  | None => []
  end.

(** [block.assignedMovers || []] read as a value. *)
Definition moversOf (h : gmap loc (list string)) (b : TimeBlock) : list string :=
  moversAt h (assignedMovers b).

(** Object spread with one field replaced. *)

Definition with_times (b : TimeBlock) (s e : Js.Date) (c : Z)
    (p : option PrepTime) : TimeBlock :=
  mkBlock (id b) (title b) s e (description b) (location b) (color b) c p
          (assignedMovers b).

Definition with_end (b : TimeBlock) (e : Js.Date) : TimeBlock :=
  mkBlock (id b) (title b) (start b) e (description b) (location b) (color b)
          (column b) (prepTime b) (assignedMovers b).

Definition with_prepTime (b : TimeBlock) (p : option PrepTime) : TimeBlock :=
  mkBlock (id b) (title b) (start b) (end_ b) (description b) (location b)
          (color b) (column b) p (assignedMovers b).

Definition with_assignedMovers (b : TimeBlock) (r : option loc) : TimeBlock :=
  mkBlock (id b) (title b) (start b) (end_ b) (description b) (location b)
          (color b) (column b) (prepTime b) r.

Definition with_title (b : TimeBlock) (v : string) : TimeBlock :=
  mkBlock (id b) v (start b) (end_ b) (description b) (location b) (color b)
          (column b) (prepTime b) (assignedMovers b).

Definition with_location (b : TimeBlock) (v : string) : TimeBlock :=
  mkBlock (id b) (title b) (start b) (end_ b) (description b) (Some v)
          (color b) (column b) (prepTime b) (assignedMovers b).

Definition with_description (b : TimeBlock) (v : string) : TimeBlock :=
  mkBlock (id b) (title b) (start b) (end_ b) (Some v) (location b) (color b)
          (column b) (prepTime b) (assignedMovers b).

(** ** Coordinate mapping *)

(** On exact rationals; see the conventions above for what that leaves
    out. *)

Definition minutesToPixels (minutes : Z) : Q :=
  (inject_Z minutes / inject_Z MINUTES_IN_DAY) * inject_Z (24 * HOUR_HEIGHT).

Definition pixelsToMinutes (pixels : Q) : Z :=
  Js.round ((pixels / inject_Z (24 * HOUR_HEIGHT)) * inject_Z MINUTES_IN_DAY).

Definition snapToGrid (value : Z) : Z :=
  Js.round (inject_Z value / inject_Z SNAP_MINUTES) * SNAP_MINUTES.

(** ** Component state *)

(** The React state and the refs of [Calendar] that the handlers below use,
    and the store of the arrays that the blocks refer to.  The state of the
    roster panel ([isAddingMover], [newMoverName], [showRemoveConfirm]) and
    [doubleClickTimeout] take no part in them and are left out. *)
Record Calendar := mkCalendar {
  blocks : list TimeBlock;
  heap : gmap loc (list string);
  movers : list Mover;
  currentDate : Js.Date;
  editingBlock : option TimeBlock;
  dragState : option DragState;
  lastTapTime : Z;
  mouseDownRef : bool;
  touchStartTimeRef : Z;
  touchMoveCountRef : Z
}.

(** The state of a freshly mounted calendar showing the day [today]. *)
Definition initialCalendar (today : Js.Date) : Calendar :=
  mkCalendar [] ∅ DEFAULT_MOVERS today None None 0 false 0 0.

(** What a handler reads from outside the state: the mounted grid, the
    rendered block elements and the clock. *)
Record Env := mkEnv {
  gridRef : option Rect;
  blockRefs : string -> option Element;
  now : Js.Date
}.

(** A move event: a mouse event or the [touches] of a touch event, each
    touch with its identifier. *)
Inductive Event :=
| MouseEv (p : Point)
| TouchEv (touches : list (Z * Point)).

(** A start event: a mouse event or [touches[0]] of a touch event. *)
Inductive StartEvent :=
| MouseDown (p : Point)
| TouchStart (t : Z * Point).

Definition setBlocks (s : Calendar) (bs : list TimeBlock) : Calendar :=
  mkCalendar bs (heap s) (movers s) (currentDate s) (editingBlock s)
             (dragState s) (lastTapTime s) (mouseDownRef s)
             (touchStartTimeRef s) (touchMoveCountRef s).

Definition setHeap (s : Calendar) (h : gmap loc (list string)) : Calendar :=
  mkCalendar (blocks s) h (movers s) (currentDate s) (editingBlock s)
             (dragState s) (lastTapTime s) (mouseDownRef s)
             (touchStartTimeRef s) (touchMoveCountRef s).

Definition setMovers (s : Calendar) (ms : list Mover) : Calendar :=
  mkCalendar (blocks s) (heap s) ms (currentDate s) (editingBlock s)
             (dragState s) (lastTapTime s) (mouseDownRef s)
             (touchStartTimeRef s) (touchMoveCountRef s).

Definition setCurrentDate (s : Calendar) (d : Js.Date) : Calendar :=
  mkCalendar (blocks s) (heap s) (movers s) d (editingBlock s)
             (dragState s) (lastTapTime s) (mouseDownRef s)
             (touchStartTimeRef s) (touchMoveCountRef s).

Definition setEditingBlock (s : Calendar) (e : option TimeBlock) : Calendar :=
  mkCalendar (blocks s) (heap s) (movers s) (currentDate s) e
             (dragState s) (lastTapTime s) (mouseDownRef s)
             (touchStartTimeRef s) (touchMoveCountRef s).

Definition setDragState (s : Calendar) (d : option DragState) : Calendar :=
  mkCalendar (blocks s) (heap s) (movers s) (currentDate s) (editingBlock s)
             d (lastTapTime s) (mouseDownRef s) (touchStartTimeRef s)
             (touchMoveCountRef s).

Definition setLastTapTime (s : Calendar) (t : Z) : Calendar :=
  mkCalendar (blocks s) (heap s) (movers s) (currentDate s) (editingBlock s)
             (dragState s) t (mouseDownRef s) (touchStartTimeRef s)
             (touchMoveCountRef s).

Definition setMouseDown (s : Calendar) (v : bool) : Calendar :=
  mkCalendar (blocks s) (heap s) (movers s) (currentDate s) (editingBlock s)
             (dragState s) (lastTapTime s) v (touchStartTimeRef s)
             (touchMoveCountRef s).

Definition setTouchStartTime (s : Calendar) (t : Z) : Calendar :=
  mkCalendar (blocks s) (heap s) (movers s) (currentDate s) (editingBlock s)
             (dragState s) (lastTapTime s) (mouseDownRef s) t
             (touchMoveCountRef s).

Definition setTouchMoveCount (s : Calendar) (n : Z) : Calendar :=
  mkCalendar (blocks s) (heap s) (movers s) (currentDate s) (editingBlock s)
             (dragState s) (lastTapTime s) (mouseDownRef s)
             (touchStartTimeRef s) n.

(** A small state monad over the array store. *)

Definition Store (A : Type) : Type :=
  gmap loc (list string) -> A * gmap loc (list string).

Definition ret {A} (a : A) : Store A := fun h => (a, h).

Definition bind {A B} (m : Store A) (k : A -> Store B) : Store B :=
  fun h => let (a, h') := m h in k a h'.

Notation "'let!' x ':=' m 'in' k" := (bind m (fun x => k))
  (at level 10, x name, m at level 100, k at level 200).

(** A new array literal or the result of [filter]: a fresh location. *)
Definition alloc (arr : list string) : Store loc :=
  fun h => let l := fresh (dom h) in (l, <[l := arr]> h).

Definition read (r : option loc) : Store (list string) :=
  fun h => (moversAt h r, h).

Definition write (l : loc) (arr : list string) : Store unit :=
  fun h => (tt, <[l := arr]> h).

Fixpoint mapStore {A B} (f : A -> Store B) (xs : list A) : Store (list B) :=
  match xs with
  | [] => ret []
  | x :: rest =>
      let! y := f x in
      let! ys := mapStore f rest in
      ret (y :: ys)
  end.

(** ** Creation *)

Definition getTimeFromPosition (env : Env) (s : Calendar) (y : Q) : Js.Date :=
  match gridRef env with
  | None => now env
  | Some rect =>
      let relativeY := (y - rect_top rect)%Q in
      let minutes := snapToGrid (pixelsToMinutes relativeY) in
      Js.setHours4 (currentDate s) (minutes / 60) (Js.rem minutes 60)
  end.

(** The body of the [blocks.some(...)] test for lane [col]. *)
Definition hasOverlap (bs : list TimeBlock) (col : Z)
    (startTime endTime : Js.Date) : bool :=
  existsb (fun block =>
             (column block =? col) && (startTime <? end_ block)
             && (endTime >? start block)) bs.

(** The [for] loop of [findAvailableColumn], [n] lanes left to scan. *)
Fixpoint scanColumns (n : nat) (col : Z) (bs : list TimeBlock)
    (startTime endTime : Js.Date) : Z :=
  match n with
  | O => 0
  | S n' =>
      if hasOverlap bs col startTime endTime
      then scanColumns n' (col + 1) bs startTime endTime
      else col
  end.

Definition findAvailableColumn (bs : list TimeBlock)
    (startTime endTime : Js.Date) : Z :=
  scanColumns (Z.to_nat MAX_COLUMNS) 0 bs startTime endTime.

Definition isDraggingNow (s : Calendar) : bool :=
  match dragState s with
  | Some d => isDragging d
  | None => false
  end.

(** [createBlock(clickY)]; [rnd] is the identifier drawn from
    [Math.random()].  The result is the new block, if any, and the state. *)
Definition createBlock (env : Env) (rnd : string) (clickY : Q)
    (s : Calendar) : option TimeBlock * Calendar :=
  if isDraggingNow s then (None, s)
  else
    let startTime := getTimeFromPosition env s clickY in
    let endTime := Js.setHours startTime (Js.getHours startTime + 1) in
    let column := findAvailableColumn (blocks s) startTime endTime in
    let (l, h) := alloc [] (heap s) in
    let newBlock :=
      mkBlock rnd "New Block" startTime endTime None None
        (default ""%string
           (TIME_BLOCK_COLORS !!
              (length (blocks s) mod length TIME_BLOCK_COLORS)%nat))
        column None (Some l) in
    (Some newBlock, setBlocks (setHeap s h) (blocks s ++ [newBlock])).

Definition deleteBlock (blockId : string) (s : Calendar) : Calendar :=
  let s' := setBlocks s
              (filter (fun b => id b ≠ blockId) (blocks s)) in
  match editingBlock s with
  | Some e => if decide (id e = blockId) then setEditingBlock s' None else s'
  | None => s'
  end.

Definition handleGridInteraction (env : Env) (rnd : string) (point : Point)
    (s : Calendar) : Calendar :=
  if bool_decide (is_Some (dragState s)) || mouseDownRef s then s
  else snd (createBlock env rnd (clientY point) s).

(** ** Drag interactions *)

(** [block.prepTime?.duration || 0]. *)
Definition prepDurationOf (b : TimeBlock) : Z :=
  match prepTime b with
  | Some p => prep_duration p
  | None => 0
  end.

Definition handleBlockInteractionStart (env : Env) (e : StartEvent)
    (block : TimeBlock) (ty : DragType) (s : Calendar) : Calendar :=
  let s := setMouseDown s true in
  match blockRefs env (id block) with
  | None => s
  | Some element =>
      let point := match e with MouseDown p => p | TouchStart t => snd t end in
      let rect := elem_rect element in
      let drag :=
        mkDrag ty (id block) (clientX point) (clientY point)
          (Some (column block))
          (match ty with
           | resize => Some (rect_height rect) | _ => None end)
          (match ty with
           | move => Some (rect_top rect) | _ => None end)
          (match ty with
           | prep => Some (prepDurationOf block) | _ => None end)
          true
          (match e with
           | MouseDown _ => None | TouchStart t => Some (fst t) end) in
      match ty with
      | prep => setDragState s (Some drag)
      | _ =>
          if now env - lastTapTime s <? 300
          then setEditingBlock s (Some block)
          else setDragState (setLastTapTime s (now env)) (Some drag)
      end
  end.

Definition handleBlockMouseDown (env : Env) (p : Point) (block : TimeBlock)
    (ty : DragType) (s : Calendar) : Calendar :=
  handleBlockInteractionStart env (MouseDown p) block ty s.

Definition handleBlockTouchStart (env : Env) (t : Z * Point)
    (block : TimeBlock) (ty : DragType) (s : Calendar) : Calendar :=
  handleBlockInteractionStart env (TouchStart t) block ty
    (setTouchMoveCount (setTouchStartTime s (now env)) 0).

(** The pointer of a move event that belongs to the drag. *)
Definition eventPoint (e : Event) (d : DragState) : option Point :=
  match e with
  | MouseEv p => Some p
  | TouchEv touches =>
      snd <$> List.find
                (fun t => match touchIdentifier d with
                          | Some i => fst t =? i
                          | None => false
                          end) touches
  end.

Definition isTouch (e : Event) : bool :=
  match e with MouseEv _ => false | TouchEv _ => true end.

Definition findBlock (blockId : string) (bs : list TimeBlock)
    : option TimeBlock :=
  List.find (fun b => bool_decide (id b = blockId)) bs.

(** The three [setBlocks(prev => prev.map(...))] updates. *)

Definition moveBlocks (block : TimeBlock) (newStartTime : Js.Date)
    (duration newColumn : Z) (prev : list TimeBlock) : list TimeBlock :=
  map (fun b =>
         if decide (id b = id block) then
           let newEndTime := newStartTime + duration in
           let newPrepTime :=
             match prepTime b with
             | Some p =>
                 Some (mkPrep (newStartTime - prep_duration p * 60000)
                              (prep_duration p))
             | None => None
             end in
           with_times b newStartTime newEndTime newColumn newPrepTime
         else b) prev.

Definition resizeBlocks (block : TimeBlock) (durationMinutes : Z)
    (prev : list TimeBlock) : list TimeBlock :=
  map (fun b =>
         if decide (id b = id block) then
           let newEndTime :=
             Js.setMinutes (start b)
               (Js.getMinutes (start b) + durationMinutes) in
           with_end b newEndTime
         else b) prev.

Definition prepBlocks (block : TimeBlock) (newPrepMinutes : Z)
    (prev : list TimeBlock) : list TimeBlock :=
  map (fun b =>
         if decide (id b = id block) then
           if newPrepMinutes =? 0 then with_prepTime b None
           else with_prepTime b
                  (Some (mkPrep (start b - newPrepMinutes * 60000)
                                newPrepMinutes))
         else b) prev.

Definition newColumnOf (d : DragState) (deltaX : Q) : Z :=
  let columnWidth := BLOCK_WIDTH + COLUMN_GAP in
  let columnDelta := Js.round (deltaX / inject_Z columnWidth) in
  Z.max 0 (Z.min (MAX_COLUMNS - 1) (default 0 (initialColumn d) + columnDelta)).

Definition newTopOf (d : DragState) (gridRect : Rect) (element : Element)
    (deltaY : Q) : Q :=
  Js.maxQ 0
    (Js.minQ (default 0%Q (initialTop d) + deltaY - rect_top gridRect)
             (rect_height gridRect - inject_Z (offsetHeight element)))%Q.

Definition newPrepMinutesOf (block : TimeBlock) (deltaY : Q) : Z :=
  let maxPrepMinutes :=
    Js.getHours (start block) * 60 + Js.getMinutes (start block) in
  Z.max 0 (Z.min maxPrepMinutes (snapToGrid (pixelsToMinutes deltaY))).

(** [handleInteractionMove(e)].  [None] stands for the one outcome outside
    the model: a resize drag whose [initialHeight] is undefined, where the
    source computes with [NaN]. *)
Definition handleInteractionMove (env : Env) (e : Event) (s : Calendar)
    : option Calendar :=
  match dragState s, gridRef env with
  | Some d, Some gridRect =>
      match eventPoint e d with
      | None => Some s
      | Some point =>
          match findBlock (blockId d) (blocks s) with
          | None => Some s
          | Some block =>
              match blockRefs env (blockId d) with
              | None => Some s
              | Some element =>
                  let s := if isTouch e
                           then setTouchMoveCount s (touchMoveCountRef s + 1)
                           else s in
                  let deltaY := (clientY point - initialY d)%Q in
                  let deltaX := (clientX point - initialX d)%Q in
                  match type d with
                  | move =>
                      let newColumn := newColumnOf d deltaX in
                      let newTop := newTopOf d gridRect element deltaY in
                      let newStartTime :=
                        getTimeFromPosition env s
                          (newTop + rect_top gridRect)%Q in
                      let duration := end_ block - start block in
                      Some (setBlocks s
                              (moveBlocks block newStartTime duration
                                          newColumn (blocks s)))
                  | resize =>
                      match initialHeight d with
                      | None => None
                      | Some h =>
                          let newHeight :=
                            Js.maxQ (inject_Z SNAP_MINUTES) (h + deltaY)%Q in
                          let durationMinutes :=
                            snapToGrid (pixelsToMinutes newHeight) in
                          Some (setBlocks s
                                  (resizeBlocks block durationMinutes
                                                (blocks s)))
                      end
                  | prep =>
                      Some (setBlocks s
                              (prepBlocks block
                                 (newPrepMinutesOf block deltaY) (blocks s)))
                  end
              end
          end
      end
  | _, _ => Some s
  end.

(** [handleInteractionEnd(e)]; [touch] tells whether the event is a touch
    event (has [changedTouches]).  The timer that the handler starts is the
    separate step [mouseUpTimeout]. *)
Definition handleInteractionEnd (env : Env) (touch : bool) (s : Calendar)
    : Calendar :=
  let s' :=
    if touch && (touchMoveCountRef s <? 3)
       && (now env - touchStartTimeRef s <? 300)
    then match dragState s with
         | Some d =>
             match findBlock (blockId d) (blocks s) with
             | Some block => setEditingBlock s (Some block)
             | None => s
             end
         | None => s
         end
    else s in
  setDragState s' None.

Definition mouseUpTimeout (s : Calendar) : Calendar := setMouseDown s false.

(** ** Mover roster *)

Definition removeMoverBlock (moverId : string) (block : TimeBlock)
    : Store TimeBlock :=
  let! arr := read (assignedMovers block) in
  let! l := alloc (filter (fun i => i ≠ moverId) arr) in
  ret (with_assignedMovers block (Some l)).

Definition removeMover (moverId : string) (s : Calendar) : Calendar :=
  let ms := filter (fun m => mover_id m ≠ moverId) (movers s) in
  let (bs, h) := mapStore (removeMoverBlock moverId) (blocks s) (heap s) in
  setBlocks (setHeap (setMovers s ms) h) bs.

(** ** Block editor *)

(** The [name] attributes of the editor's inputs. *)
Inductive FieldName := f_title | f_location | f_description.

Definition handleInputChange (name : FieldName) (value : string)
    (formState : TimeBlock) : TimeBlock :=
  match name with
  | f_title => with_title formState value
  | f_location => with_location formState value
  | f_description => with_description formState value
  end.

(** [toggleMover(moverId)]: [push] and [splice] act on the array that
    [formState.assignedMovers] refers to; only an undefined field gets a
    new array. *)
Definition toggleMover (moverId : string) (formState : TimeBlock)
    : Store TimeBlock :=
  let! l := match assignedMovers formState with
            | Some l => ret l
            | None => alloc []
            end in
  let! newAssignedMovers := read (Some l) in
  let index := Js.indexOf moverId newAssignedMovers in
  let! _ := if index =? -1
            then write l (Js.push moverId newAssignedMovers)
            else write l (Js.splice1 index newAssignedMovers) in
  ret (with_assignedMovers formState (Some l)).

(** [handleClose(save)] of the editor opened on [block], with draft
    [formState]. *)
Definition handleClose (save : bool) (block formState : TimeBlock)
    (s : Calendar) : Calendar :=
  let s' := if save
            then setBlocks s
                   (map (fun b => if decide (id b = id block)
                                  then formState else b) (blocks s))
            else s in
  setEditingBlock s' None.

(** What one [toggleMover] leaves in the array it acts on. *)
Definition toggleArray (moverId : string) (arr : list string) : list string :=
  let index := Js.indexOf moverId arr in
  if index =? -1 then Js.push moverId arr else Js.splice1 index arr.

(** A sequence of draft edits in the open editor. *)
Inductive DraftEdit :=
| InputChange (name : FieldName) (value : string)
| ToggleMover (moverId : string).

Definition applyEdit (e : DraftEdit) (formState : TimeBlock)
    : Store TimeBlock :=
  match e with
  | InputChange name value => ret (handleInputChange name value formState)
  | ToggleMover moverId => toggleMover moverId formState
  end.

Fixpoint applyEdits (es : list DraftEdit) (formState : TimeBlock)
    : Store TimeBlock :=
  match es with
  | [] => ret formState
  | e :: rest =>
      let! formState' := applyEdit e formState in
      applyEdits rest formState'
  end.

(** An editor session: the editor mounts on [editingBlock] with the draft
    seeded by [useState(block)], the edits run, and the editor is closed
    with "Done" ([save = true]) or with "Cancel" / the close button. *)
Definition editorSession (es : list DraftEdit) (save : bool) (s : Calendar)
    : Calendar :=
  match editingBlock s with
  | None => s
  | Some block =>
      let (formState, h) := applyEdits es block (heap s) in
      handleClose save block formState (setHeap s h)
  end.

(** Every array a block refers to is in the store. *)
Definition StoreClosed (s : Calendar) : Prop :=
  forall (b : TimeBlock) (l : loc),
    b ∈ blocks s -> assignedMovers b = Some l -> l ∈ dom (heap s).

(** Every array of the store holds distinct mover ids. *)
Definition ArraysDistinct (h : gmap loc (list string)) : Prop :=
  forall (l : loc) (arr : list string), h !! l = Some arr -> NoDup arr.

Definition WellFormed (s : Calendar) : Prop :=
  StoreClosed s /\ ArraysDistinct (heap s).

(** ** Reachable states *)

(** The calendar together with the draft of the block editor, which is
    mounted while [editingBlock] is set. *)
Record App := mkApp {
  cal : Calendar;
  draft : option TimeBlock
}.

(** One run of a handler of [Calendar].  The handlers that take a block
    get it from the rendered block list.  Adding a mover and changing the
    day are covered by an arbitrary new roster and an arbitrary new date. *)
Inductive Handler : Calendar -> Calendar -> Prop :=
| h_createBlock env rnd y s :
    Handler s (snd (createBlock env rnd y s))
| h_gridInteraction env rnd p s :
    Handler s (handleGridInteraction env rnd p s)
| h_deleteBlock k s :
    Handler s (deleteBlock k s)
| h_mouseDown env p b ty s :
    b ∈ blocks s -> Handler s (handleBlockMouseDown env p b ty s)
| h_touchStart env t b ty s :
    b ∈ blocks s -> Handler s (handleBlockTouchStart env t b ty s)
| h_interactionMove env e s s' :
    handleInteractionMove env e s = Some s' -> Handler s s'
| h_interactionEnd env touch s :
    Handler s (handleInteractionEnd env touch s)
| h_mouseUpTimeout s :
    Handler s (mouseUpTimeout s)
| h_removeMover m s :
    Handler s (removeMover m s)
| h_roster ms s :
    Handler s (setMovers s ms)
| h_date d s :
    Handler s (setCurrentDate s d).

(** A step of the application.  After a handler of [Calendar] the editor
    either is mounted anew, with the draft seeded from [editingBlock], or
    (when nothing was rendered again) keeps its draft.  The other steps are
    the editor's own: a field edit, a mover toggle, "Done" or "Cancel", and
    "Delete". *)
Inductive Step : App -> App -> Prop :=
| step_handler s s' d :
    Handler s s' ->
    Step (mkApp s d) (mkApp s' (editingBlock s'))
| step_handler_keep s s' d :
    Handler s s' ->
    editingBlock s' = editingBlock s ->
    Step (mkApp s d) (mkApp s' d)
| step_input name value s formState :
    Step (mkApp s (Some formState))
         (mkApp s (Some (handleInputChange name value formState)))
| step_toggle m s formState :
    Step (mkApp s (Some formState))
         (mkApp (setHeap s (snd (toggleMover m formState (heap s))))
                (Some (fst (toggleMover m formState (heap s)))))
| step_close save s block formState :
    editingBlock s = Some block ->
    Step (mkApp s (Some formState))
         (mkApp (handleClose save block formState s) None)
| step_delete s block formState :
    editingBlock s = Some block ->
    Step (mkApp s (Some formState))
         (mkApp (handleClose false block formState
                   (deleteBlock (id block) s)) None).

Inductive Reachable : App -> Prop :=
| reach_initial today :
    Reachable (mkApp (initialCalendar today) None)
| reach_step a a' :
    Reachable a -> Step a a' -> Reachable a'.

(** What holds in every reachable state: no block, no editor prop and no
    draft refers to an array outside the store, and no array of the store
    holds a mover id twice. *)
Definition refClosed (h : gmap loc (list string)) (b : option TimeBlock)
    : Prop :=
  forall x l, b = Some x -> assignedMovers x = Some l -> l ∈ dom h.

(** A resize drag has the height of the block it began on. *)
Definition DragOk (s : Calendar) : Prop :=
  forall d, dragState s = Some d -> type d = resize ->
            is_Some (initialHeight d).

Definition Invariant (a : App) : Prop :=
  WellFormed (cal a)
  /\ refClosed (heap (cal a)) (editingBlock (cal a))
  /\ refClosed (heap (cal a)) (draft a).

(** ** The lane invariant *)

(** Two blocks of one lane whose [[start, end)] intervals intersect. *)
Definition overlapping (a b : TimeBlock) : bool :=
  (column a =? column b) && (start a <? end_ b) && (start b <? end_ a).

Fixpoint laneDisjoint (bs : list TimeBlock) : bool :=
  match bs with
  | [] => true
  | b :: rest => forallb (fun x => negb (overlapping b x)) rest
                 && laneDisjoint rest
  end.

Definition NoLaneOverlap (bs : list TimeBlock) : Prop :=
  forall (i j : nat) (a b : TimeBlock),
    i <> j -> bs !! i = Some a -> bs !! j = Some b ->
    column a = column b ->
    ~ (start a < end_ b /\ start b < end_ a).

(** ** Words of the specification *)


(** [x] clamped to [[lo, hi]]. *)
Definition clamp (lo hi x : Z) : Z :=
  if x <? lo then lo else if hi <? x then hi else x.

(** ** Sample states *)

Module Sample.

(** A grid mounted 100 pixels below the top of the viewport; every block
    is rendered one hour tall at the position its start time gives. *)
Definition gridRect : Rect := mkRect 100 1440.

Definition env : Env :=
  mkEnv (Some gridRect)
        (fun _ => Some (mkElement (mkRect 640 60) 60))
        1000.

Definition empty : Calendar := initialCalendar 0.

Definition click (rnd : string) (s : Calendar) : Calendar :=
  handleGridInteraction env rnd (mkPoint 300 640) s.

(** Four clicks at the offset of 9:00. *)
Definition fourClicks : Calendar :=
  click "d" (click "c" (click "b" (click "a" empty))).

Definition twoClicks : Calendar := click "b" (click "a" empty).

(** The second block of [twoClicks]. *)
Definition blockB : TimeBlock :=
  mkBlock "b" "New Block" 32400000 36000000 None None
          "rgba(16, 185, 129, 0.9)" 1 None (Some 1%nat).

(** Two clicks at 9:00, then the mouse goes down at [(400, 640)] on a
    handle of the second block, to drag it. *)
Definition grab (ty : DragType) : Calendar :=
  handleBlockMouseDown env (mkPoint 400 640) blockB ty twoClicks.

(** The second block gets a preparation time of 30 minutes by a drag of
    its top handle, the drag ends, and the block is grabbed to be moved. *)
Definition withPrep : Calendar :=
  mouseUpTimeout
    (handleInteractionEnd env false
       (default (grab prep)
          (handleInteractionMove env (MouseEv (mkPoint 400 670))
                                 (grab prep)))).

Definition blockB30 : TimeBlock :=
  with_prepTime blockB (Some (mkPrep 30600000 30)).

Definition grabPrepared : Calendar :=
  handleBlockMouseDown env (mkPoint 400 640) blockB30 move withPrep.

(** One click, then a second tap on the block within 300 ms of the
    recorded tap time, which opens the editor on it. *)
Definition envTap : Env :=
  mkEnv (Some gridRect)
        (fun _ => Some (mkElement (mkRect 640 60) 60))
        100.

Definition oneClick : Calendar := click "a" empty.

Definition blockA : TimeBlock :=
  mkBlock "a" "New Block" 32400000 36000000 None None
          "rgba(59, 130, 246, 0.9)" 0 None (Some 0%nat).

Definition editing : Calendar :=
  handleBlockMouseDown envTap (mkPoint 300 640) blockA move oneClick.

(** Movers "1" and "2" are assigned in the editor, then "Done". *)
Definition assigned : Calendar :=
  editorSession [ToggleMover "1"; ToggleMover "2"] true editing.

End Sample.

(** * The rest of the calendar

    The parts of [Calendar] that the sections above do not need: what is
    rendered for a block, the preparation overlay's texts, the header
    buttons and the roster's "Add". *)

Definition TIME_COLUMN_WIDTH : Z := 80.

(** ** Rendering *)

(** [d.toDateString()] names the local calendar day of [d]; the day stands
    for the string. *)
Definition toDateString (d : Js.Date) : Z := Js.startOfDay d.

(** The blocks that the grid renders. *)
Definition visibleBlocks (s : Calendar) : list TimeBlock :=
  filter (fun block => toDateString (start block)
                       = toDateString (currentDate s))
         (blocks s).

(** The inline style of a block element, in pixels. *)
Record BlockStyle := mkStyle {
  style_top : Q;
  style_left : Z;
  style_height : Q;
  style_width : Z
}.

Definition blockStyle (block : TimeBlock) : BlockStyle :=
  let startMinutes :=
    Js.getHours (start block) * 60 + Js.getMinutes (start block) in
  let endMinutes :=
    Js.getHours (end_ block) * 60 + Js.getMinutes (end_ block) in
  let duration := endMinutes - startMinutes in
  mkStyle (minutesToPixels startMinutes)
          (TIME_COLUMN_WIDTH + 10 + column block * (BLOCK_WIDTH + COLUMN_GAP))
          (minutesToPixels duration)
          BLOCK_WIDTH.

(** Two styled boxes that share a point of the grid. *)
Definition stylesIntersect (a b : BlockStyle) : Prop :=
  (style_top a < style_top b + style_height b)%Q
  /\ (style_top b < style_top a + style_height a)%Q
  /\ style_left a < style_left b + style_width b
  /\ style_left b < style_left a + style_width a.

(** ** The preparation overlay *)

Definition calculateDriveTime (minutes : Z) : string :=
  if minutes <=? 15 then "0" else pretty (minutes - 15).

Definition getDepartureTime (startTime : Js.Date) : Js.Date :=
  Js.setMinutes startTime (Js.getMinutes startTime + 15).

(** ** Header buttons *)

(** The "Add Block" button. *)
Definition addBlockClick (env : Env) (rnd : string) (s : Calendar)
    : option TimeBlock * Calendar :=
  createBlock env rnd
    (minutesToPixels
       (Js.getHours (now env) * 60 + Js.getMinutes (now env))) s.

(** The day before and the day after: [setDate(getDate() -/+ 1)]. *)
Definition previousDay (s : Calendar) : Calendar :=
  setCurrentDate s (currentDate s - Js.MS_PER_DAY).

Definition nextDay (s : Calendar) : Calendar :=
  setCurrentDate s (currentDate s + Js.MS_PER_DAY).

(** A run of move events, each handled in the environment of its time. *)
Fixpoint interactionMoves (evs : list (Env * Event)) (s : Calendar)
    : option Calendar :=
  match evs with
  | [] => Some s
  | ev :: rest =>
      match handleInteractionMove (fst ev) (snd ev) s with
      | Some s' => interactionMoves rest s'
      | None => None
      end
  end.

(** A block that is well formed as the data model has it: it ends after it
    starts, sits in one of the lanes, and a preparation time, when there is
    one, is positive and ends where the block starts. *)
Definition BlockOk (b : TimeBlock) : Prop :=
  start b < end_ b
  /\ 0 <= column b < MAX_COLUMNS
  /\ forall p, prepTime b = Some p ->
       0 < prep_duration p
       /\ prep_start p + prep_duration p * Js.MS_PER_MINUTE = start b.

(** A time on the snap grid of its day. *)
Definition onGrid (t : Js.Date) : Prop :=
  (t - Js.startOfDay t) mod (SNAP_MINUTES * Js.MS_PER_MINUTE) = 0.

(** A block that starts and ends on whole minutes of one calendar day. *)
Definition WithinOneDay (b : TimeBlock) : Prop :=
  toDateString (end_ b) = toDateString (start b)
  /\ start b mod Js.MS_PER_MINUTE = 0
  /\ end_ b mod Js.MS_PER_MINUTE = 0.

Definition optionOk (o : option TimeBlock) : Prop :=
  forall b, o = Some b -> BlockOk b.

(** ** The roster's "Add" *)

(** [String.prototype.trim].  A string is the UTF-8 text of the JavaScript
    string; [whiteSpace] lists the code points that ECMAScript calls
    WhiteSpace or LineTerminator, each by its bytes. *)
Module JsString.

Definition whiteSpace : list (list Ascii.ascii) :=
  map (map Ascii.ascii_of_N)
    [ [9]; [10]; [11]; [12]; [13]; [32];
      [194; 160];
      [225; 154; 128];
      [226; 128; 128]; [226; 128; 129]; [226; 128; 130]; [226; 128; 131];
      [226; 128; 132]; [226; 128; 133]; [226; 128; 134]; [226; 128; 135];
      [226; 128; 136]; [226; 128; 137]; [226; 128; 138];
      [226; 128; 168]; [226; 128; 169];
      [226; 128; 175];
      [226; 129; 159];
      [227; 128; 128];
      [239; 187; 191] ]%N.

Fixpoint dropPrefix (p l : list Ascii.ascii) : option (list Ascii.ascii) :=
  match p, l with
  | [], _ => Some l
  | a :: p', b :: l' => if Ascii.eqb a b then dropPrefix p' l' else None
  | _ :: _, [] => None
  end.

Fixpoint dropWhite (ws : list (list Ascii.ascii)) (l : list Ascii.ascii)
    : option (list Ascii.ascii) :=
  match ws with
  | [] => None
  | w :: ws' =>
      match dropPrefix w l with
      | Some r => Some r
      | None => dropWhite ws' l
      end
  end.

(** Drops leading code points of [ws]; every round drops a byte at least,
    so [length l] rounds are enough. *)
Fixpoint dropAll (ws : list (list Ascii.ascii)) (rounds : nat) (l : list Ascii.ascii)
    : list Ascii.ascii :=
  match rounds with
  | O => l
  | S n =>
      match dropWhite ws l with
      | Some r => dropAll ws n r
      | None => l
      end
  end.

Definition trimStart (l : list Ascii.ascii) : list Ascii.ascii :=
  dropAll whiteSpace (length l) l.

Definition trimEnd (l : list Ascii.ascii) : list Ascii.ascii :=
  rev (dropAll (map (@rev Ascii.ascii) whiteSpace) (length l) (rev l)).

Definition trim (s : string) : string :=
  String.string_of_list_ascii (trimEnd (trimStart (String.list_ascii_of_string s))).

End JsString.

(** [addMover], with the value of the name input passed in and its new
    value returned; [color] stands for the random colour string. *)
Definition addMover (color newMoverName : string) (s : Calendar)
    : Calendar * string :=
  if decide (JsString.trim newMoverName = "") then (s, newMoverName)
  else
    let newMover :=
      mkMover (pretty (length (movers s) + 1)%nat)
              (JsString.trim newMoverName) color in
    (setMovers s (movers s ++ [newMover]), "").

(** "Add" pressed once for each [(color, name)] of a list. *)
Definition addMovers (adds : list (string * string)) (s : Calendar)
    : Calendar :=
  foldl (fun s a => fst (addMover (fst a) (snd a) s)) s adds.

(** ** More sample states *)

Module Example.

Definition element : Element := mkElement (mkRect 640 60) 60.

(** The clock of [Sample.env] 200 ms later. *)
Definition envLate : Env :=
  mkEnv (Some Sample.gridRect) (fun _ => Some element) 1200.

(** The drag states of [Sample.grab] and [Sample.grabPrepared]. *)
Definition dragMove : DragState :=
  mkDrag move "b" 400 640 (Some 1) None (Some 640%Q) None true None.

Definition dragResize : DragState :=
  mkDrag resize "b" 400 640 (Some 1) (Some 60%Q) None None true None.

Definition dragPrep : DragState :=
  mkDrag prep "b" 400 640 (Some 1) None None (Some 0) true None.

(** The editor is open on the first block, and the block is grabbed to be
    moved. *)
Definition editingGrabbed : Calendar :=
  handleBlockMouseDown Sample.env (mkPoint 400 640) Sample.blockA move
                       Sample.editing.

(** Movers "1" and "2" are assigned to the first block, and the editor is
    opened on it again. *)
Definition reopened : Calendar :=
  handleBlockMouseDown Sample.envTap (mkPoint 300 640) Sample.blockA move
                       Sample.assigned.



(** The grid of [Sample.env], at 9:07 by the clock. *)
Definition envMorning : Env :=
  mkEnv (Some Sample.gridRect) (fun _ => Some element) 32820000.

End Example.

(** * Properties *)

(** ** Rounding, snapping and date arithmetic *)

Section Arithmetic.

Lemma round_Z_div (n d : Z) :
  0 < d -> Js.round (inject_Z n / inject_Z d) = (2 * n + d) / (2 * d).
Proof.
  intros Hd. unfold Js.round.
  destruct d as [|p|p]; try lia.
  assert (E : (inject_Z n / inject_Z (Z.pos p) + (1 # 2)
               == (2 * n + Z.pos p) # (2 * p))%Q).
  { unfold Qeq, Qdiv, Qmult, Qplus, Qinv, inject_Z; simpl. lia. }
  rewrite E. unfold Qfloor. reflexivity.
Qed.

Lemma round_inject_Z (n : Z) : Js.round (inject_Z n) = n.
Proof.
  unfold Js.round.
  assert (E : (inject_Z n + (1 # 2) == (2 * n + 1) # 2)%Q).
  { unfold Qeq, Qplus, inject_Z; simpl. lia. }
  rewrite E. unfold Qfloor.
  change (Z.pos 2) with 2. symmetry. apply Z.div_unique with (r := 1); lia.
Qed.

Lemma round_mono (x y : Q) : (x <= y)%Q -> Js.round x <= Js.round y.
Proof.
  intros H. unfold Js.round. apply Qfloor_resp_le. lra.
Qed.

Lemma round_comp (x y : Q) : (x == y)%Q -> Js.round x = Js.round y.
Proof.
  intros H. unfold Js.round. apply Qfloor_comp. lra.
Qed.

(** With [HOUR_HEIGHT = 60] a pixel is a minute. *)
Lemma pixelsToMinutes_round (p : Q) : pixelsToMinutes p = Js.round p.
Proof.
  unfold pixelsToMinutes. apply round_comp.
  change (inject_Z (24 * HOUR_HEIGHT)) with (1440 # 1)%Q.
  change (inject_Z MINUTES_IN_DAY) with (1440 # 1)%Q.
  field.
Qed.

Lemma pixelsToMinutes_mono (p q : Q) :
  (p <= q)%Q -> pixelsToMinutes p <= pixelsToMinutes q.
Proof. rewrite !pixelsToMinutes_round. apply round_mono. Qed.

Lemma snapToGrid_div (v : Z) : snapToGrid v = (2 * v + 15) / 30 * 15.
Proof.
  unfold snapToGrid, SNAP_MINUTES. now rewrite round_Z_div by lia.
Qed.

Lemma snapToGrid_multiple (v : Z) : snapToGrid v mod SNAP_MINUTES = 0.
Proof. rewrite snapToGrid_div. apply Z_mod_mult. Qed.

Lemma snapToGrid_mono (v w : Z) : v <= w -> snapToGrid v <= snapToGrid w.
Proof.
  intros H. rewrite !snapToGrid_div.
  apply Z.mul_le_mono_nonneg_r; [lia|].
  apply Z.div_le_mono; lia.
Qed.

Lemma snapToGrid_nonneg (v : Z) : 0 <= v -> 0 <= snapToGrid v.
Proof.
  intros H. rewrite snapToGrid_div.
  apply Z.mul_nonneg_nonneg; [|lia]. apply Z.div_pos; lia.
Qed.

Lemma snapToGrid_grid (k : Z) : snapToGrid (15 * k) = 15 * k.
Proof.
  rewrite snapToGrid_div.
  replace (2 * (15 * k) + 15) with (15 + k * 30) by lia.
  rewrite Z.div_add by lia. change (15 / 30) with 0. lia.
Qed.

Lemma getHours_range (t : Js.Date) : 0 <= Js.getHours t < 24.
Proof. unfold Js.getHours. apply Z.mod_pos_bound. lia. Qed.

Lemma getMinutes_range (t : Js.Date) : 0 <= Js.getMinutes t < 60.
Proof. unfold Js.getMinutes. apply Z.mod_pos_bound. lia. Qed.

Lemma setHours_next (t : Js.Date) :
  Js.setHours t (Js.getHours t + 1) = t + Js.MS_PER_HOUR.
Proof. unfold Js.setHours. lia. Qed.

Lemma setMinutes_add (t : Js.Date) (d : Z) :
  Js.setMinutes t (Js.getMinutes t + d) = t + d * Js.MS_PER_MINUTE.
Proof. unfold Js.setMinutes. f_equal. f_equal. lia. Qed.

(** For a non-negative minute count the two arguments of [setHours]
    recompose it. *)
Lemma setHours4_minutes (d : Js.Date) (m : Z) :
  0 <= m ->
  Js.setHours4 d (m / 60) (Js.rem m 60)
  = Js.startOfDay d + m * Js.MS_PER_MINUTE.
Proof.
  intros Hm. unfold Js.setHours4, Js.rem, Js.MS_PER_HOUR, Js.MS_PER_MINUTE.
  rewrite Z.rem_mod_nonneg by lia.
  pose proof (Z.div_mod m 60 ltac:(lia)). lia.
Qed.

End Arithmetic.

(** ** Creation *)

Section Creation.

Variables (bs : list TimeBlock) (startTime endTime : Js.Date).

Lemma scanColumns_first (n : nat) (col c : Z) :
  col <= c < col + Z.of_nat n ->
  hasOverlap bs c startTime endTime = false ->
  (forall c', col <= c' < c -> hasOverlap bs c' startTime endTime = true) ->
  scanColumns n col bs startTime endTime = c.
Proof.
  revert col. induction n as [|n IH]; intros col Hc Hfree Hocc; [lia|].
  simpl. destruct (decide (col = c)) as [->|Hne].
  - now rewrite Hfree.
  - rewrite Hocc by lia. apply IH; [lia|assumption|].
    intros c' Hc'. apply Hocc. lia.
Qed.

Lemma scanColumns_full (n : nat) (col : Z) :
  (forall c, col <= c < col + Z.of_nat n ->
             hasOverlap bs c startTime endTime = true) ->
  scanColumns n col bs startTime endTime = 0.
Proof.
  revert col. induction n as [|n IH]; intros col Hocc; [reflexivity|].
  simpl. rewrite Hocc by lia. apply IH. intros c Hc. apply Hocc. lia.
Qed.

Lemma scanColumns_free (n : nat) (col c : Z) :
  col <= c < col + Z.of_nat n ->
  hasOverlap bs c startTime endTime = false ->
  hasOverlap bs (scanColumns n col bs startTime endTime)
            startTime endTime = false.
Proof.
  revert col. induction n as [|n IH]; intros col Hc Hfree; [lia|].
  simpl. destruct (hasOverlap bs col startTime endTime) eqn:E; [|exact E].
  apply IH; [|assumption].
  destruct (decide (col = c)) as [->|]; [congruence|lia].
Qed.

Lemma scanColumns_range (n : nat) (col : Z) :
  0 <= col ->
  0 <= scanColumns n col bs startTime endTime
  /\ (scanColumns n col bs startTime endTime < col + Z.of_nat n
      \/ scanColumns n col bs startTime endTime = 0).
Proof.
  revert col. induction n as [|n IH]; intros col Hcol; simpl; [lia|].
  destruct (hasOverlap bs col startTime endTime); [|lia].
  destruct (IH (col + 1)) as [? ?]; lia.
Qed.

Lemma findAvailableColumn_range :
  0 <= findAvailableColumn bs startTime endTime < MAX_COLUMNS.
Proof.
  unfold findAvailableColumn.
  destruct (scanColumns_range (Z.to_nat MAX_COLUMNS) 0) as [? ?]; [lia|].
  unfold MAX_COLUMNS in *. lia.
Qed.

End Creation.

(** What [createBlock] does when no drag is in progress. *)
Lemma createBlock_unfold (env : Env) (rnd : string) (y : Q) (s : Calendar) :
  isDraggingNow s = false ->
  let startTime := getTimeFromPosition env s y in
  let endTime := startTime + Js.MS_PER_HOUR in
  let l := fresh (dom (heap s)) in
  let b := mkBlock rnd "New Block" startTime endTime None None
             (default ""%string
                (TIME_BLOCK_COLORS !!
                   (length (blocks s) mod length TIME_BLOCK_COLORS)%nat))
             (findAvailableColumn (blocks s) startTime endTime)
             None (Some l) in
  createBlock env rnd y s
  = (Some b, setBlocks (setHeap s (<[l := []]> (heap s))) (blocks s ++ [b])).
Proof.
  intros Hd. unfold createBlock. rewrite Hd. cbn.
  now rewrite setHours_next.
Qed.

Lemma getTimeFromPosition_grid (env : Env) (s : Calendar) (rect : Rect)
    (y : Q) :
  gridRef env = Some rect ->
  (0 <= y - rect_top rect)%Q ->
  getTimeFromPosition env s y
  = Js.startOfDay (currentDate s)
    + snapToGrid (pixelsToMinutes (y - rect_top rect)) * Js.MS_PER_MINUTE.
Proof.
  intros Hg Hy. unfold getTimeFromPosition. rewrite Hg.
  apply setHours4_minutes, snapToGrid_nonneg.
  rewrite pixelsToMinutes_round, <- (round_inject_Z 0).
  now apply round_mono.
Qed.

(** Above the grid top the two arguments of [setHours] do not recompose
    the snapped minute count: [%] takes the sign of the dividend.  With the
    grid 100 pixels below the top of the viewport, the offset 55 (what the
    "Add Block" button passes at 0:55) snaps to minute -45 and gives the
    time 105 minutes before midnight. *)
Lemma getTimeFromPosition_above_grid :
  snapToGrid (pixelsToMinutes (55 - rect_top Sample.gridRect)) = -45
  /\ getTimeFromPosition Sample.env Sample.empty 55
     = Js.startOfDay (currentDate Sample.empty) - 105 * Js.MS_PER_MINUTE.
Proof. vm_compute. split; reflexivity. Qed.


Lemma round_near (x : Q) (m : Z) :
  (inject_Z m - (499 # 1000) <= x <= inject_Z m + (499 # 1000))%Q ->
  Js.round x = m.
Proof.
  intros [Hlo Hhi].
  unfold Js.round. set (y := (x + (1 # 2))%Q).
  assert (Hge : m <= Qfloor y).
  { rewrite <- (Qfloor_Z m). apply Qfloor_resp_le. unfold y. lra. }
  pose proof (Qfloor_le y) as Hfl.
  destruct (Z_lt_le_dec (Qfloor y) (m + 1)) as [Hlt|Hbad]; [lia|].
  rewrite Zle_Qle, inject_Z_plus in Hbad.
  change (inject_Z 1) with 1%Q in Hbad. subst y. lra.
Qed.




(** C10. With no drag in progress and the mouse up, a grid click always
    adds exactly one block; when every lane [0 .. MAX_COLUMNS-1] already
    holds a block that overlaps the one-hour candidate interval,
    [findAvailableColumn] returns 0 and the new block is put in lane 0. *)
Theorem grid_click_never_refused (env : Env) (rnd : string) (p : Point)
    (s : Calendar) :
  dragState s = None ->
  mouseDownRef s = false ->
  let startTime := getTimeFromPosition env s (clientY p) in
  let endTime := startTime + Js.MS_PER_HOUR in
  exists b,
    blocks (handleGridInteraction env rnd p s) = blocks s ++ [b]
    /\ start b = startTime /\ end_ b = endTime
    /\ ((forall c, 0 <= c < MAX_COLUMNS ->
           hasOverlap (blocks s) c startTime endTime = true) ->
        findAvailableColumn (blocks s) startTime endTime = 0
        /\ column b = 0).
Proof.
  intros Hdrag Hmouse startTime endTime.
  assert (Hd : isDraggingNow s = false)
    by (unfold isDraggingNow; now rewrite Hdrag).
  unfold handleGridInteraction. rewrite Hdrag, Hmouse.
  rewrite bool_decide_eq_false_2 by (intros [? ?]; discriminate).
  cbn [orb]. rewrite (createBlock_unfold env rnd (clientY p) s Hd).
  eexists. repeat apply conj; try reflexivity.
  intros Hfull.
  assert (findAvailableColumn (blocks s) startTime endTime = 0) as E.
  { apply scanColumns_full. intros c Hc. apply Hfull.
    unfold MAX_COLUMNS in *. lia. }
  split; [exact E|]. cbn [column]. exact E.
Qed.

(** ** The lane invariant *)

Section LaneInvariant.

Lemma overlapping_sym (a b : TimeBlock) : overlapping a b = overlapping b a.
Proof.
  unfold overlapping. rewrite (Z.eqb_sym (column a)).
  destruct (column b =? column a), (start a <? end_ b), (start b <? end_ a);
    reflexivity.
Qed.

Lemma overlapping_false (a b : TimeBlock) :
  overlapping a b = false <->
  (column a = column b -> ~ (start a < end_ b /\ start b < end_ a)).
Proof.
  unfold overlapping.
  destruct (Z.eqb_spec (column a) (column b)),
           (Z.ltb_spec (start a) (end_ b)),
           (Z.ltb_spec (start b) (end_ a)); cbn; split; intros Hov; try tauto;
    try discriminate; try (intros _ [? ?]; lia).
Qed.

Lemma laneDisjoint_spec (bs : list TimeBlock) :
  laneDisjoint bs = true <-> NoLaneOverlap bs.
Proof.
  induction bs as [|b rest IH]; cbn.
  - split; [|reflexivity]. intros _ i j a c _ Hi. now destruct i.
  - rewrite andb_true_iff, forallb_forall, IH. split.
    + intros [Hb Hrest] i j a c Hij Hi Hj.
      destruct i as [|i], j as [|j]; cbn in Hi, Hj; try congruence.
      * injection Hi as <-. apply overlapping_false.
        apply negb_true_iff, Hb, list_elem_of_In.
        eapply list_elem_of_lookup_2; eauto.
      * injection Hj as <-. apply overlapping_false.
        rewrite overlapping_sym.
        apply negb_true_iff, Hb, list_elem_of_In.
        eapply list_elem_of_lookup_2; eauto.
      * refine (Hrest i j a c _ Hi Hj). congruence.
    + intros H. split.
      * intros x Hx. apply list_elem_of_In, list_elem_of_lookup in Hx.
        destruct Hx as [j Hj]. apply negb_true_iff, overlapping_false.
        refine (H 0%nat (S j) b x _ eq_refl Hj). discriminate.
      * intros i j a c Hij Hi Hj.
        refine (H (S i) (S j) a c _ Hi Hj). congruence.
Qed.

Lemma NoLaneOverlap_snoc (bs : list TimeBlock) (b : TimeBlock) :
  NoLaneOverlap bs ->
  (forall x, x ∈ bs -> overlapping x b = false) ->
  NoLaneOverlap (bs ++ [b]).
Proof.
  intros Hbs Hb i j a c Hij Hi Hj.
  destruct (decide (i < length bs)%nat) as [Hil|Hil],
           (decide (j < length bs)%nat) as [Hjl|Hjl].
  - rewrite lookup_app_l in Hi, Hj by assumption. eapply Hbs; eauto.
  - rewrite lookup_app_l in Hi by assumption.
    rewrite lookup_app_r in Hj by lia.
    apply list_lookup_singleton_Some in Hj as [_ <-].
    apply overlapping_false, Hb. eapply list_elem_of_lookup_2; eauto.
  - rewrite lookup_app_l in Hj by assumption.
    rewrite lookup_app_r in Hi by lia.
    apply list_lookup_singleton_Some in Hi as [_ <-].
    apply overlapping_false. rewrite overlapping_sym.
    apply Hb. eapply list_elem_of_lookup_2; eauto.
  - rewrite lookup_app_r in Hi, Hj by lia.
    apply list_lookup_singleton_Some in Hi as [Hi _].
    apply list_lookup_singleton_Some in Hj as [Hj _]. lia.
Qed.

Lemma hasOverlap_false (bs : list TimeBlock) (col : Z) (s e : Js.Date)
    (x : TimeBlock) :
  hasOverlap bs col s e = false -> x ∈ bs ->
  column x = col -> ~ (s < end_ x /\ start x < e).
Proof.
  unfold hasOverlap. intros H Hx Hc [H1 H2].
  assert (existsb (fun block => (column block =? col) && (s <? end_ block)
                                && (e >? start block)) bs = true) as E.
  { apply existsb_exists. exists x. split; [now apply list_elem_of_In|].
    rewrite Z.gtb_ltb.
    apply andb_true_iff; split; [apply andb_true_iff; split|]; lia. }
  congruence.
Qed.

Lemma findBlock_id (k : string) (bs : list TimeBlock) (b : TimeBlock) :
  findBlock k bs = Some b -> id b = k /\ b ∈ bs.
Proof.
  unfold findBlock. intros H. apply find_some in H as [Hin Hid].
  split; [now apply bool_decide_eq_true in Hid|now apply list_elem_of_In].
Qed.

Lemma findBlock_unique (k : string) (bs : list TimeBlock) (i : nat)
    (b : TimeBlock) :
  NoDup (map id bs) -> bs !! i = Some b -> id b = k ->
  findBlock k bs = Some b.
Proof.
  unfold findBlock. revert i. induction bs as [|x rest IH]; intros i Hnd Hi Hk.
  - now destruct i.
  - cbn in Hnd. apply NoDup_cons in Hnd as [Hx Hnd]. cbn.
    destruct i as [|i]; cbn in Hi.
    + injection Hi as ->. now rewrite bool_decide_eq_true_2.
    + rewrite bool_decide_eq_false_2; [eapply IH; eauto|].
      intros Hxk. apply Hx. rewrite Hxk, <- Hk.
      apply list_elem_of_fmap. exists b. split; [reflexivity|].
      eapply list_elem_of_lookup_2; eauto.
Qed.

Lemma moveBlocks_lookup (block : TimeBlock) (st : Js.Date) (dur col : Z)
    (prev : list TimeBlock) (i : nat) (b' : TimeBlock) :
  moveBlocks block st dur col prev !! i = Some b' ->
  exists b, prev !! i = Some b /\ id b' = id b
    /\ (id b <> id block -> b' = b)
    /\ (id b = id block ->
        start b' = st /\ end_ b' = st + dur /\ column b' = col
        /\ prepTime b'
           = (fun p => mkPrep (st - prep_duration p * 60000)
                              (prep_duration p)) <$> prepTime b).
Proof.
  unfold moveBlocks. rewrite list_lookup_fmap. intros H.
  destruct (prev !! i) as [b|] eqn:E; [|discriminate].
  cbn in H. injection H as <-. exists b. split; [reflexivity|].
  destruct (decide (id b = id block)) as [Hk|Hk].
  - repeat apply conj; try reflexivity; tauto.
  - repeat apply conj; try reflexivity; tauto.
Qed.

Lemma moveBlocks_ids (block : TimeBlock) (st : Js.Date) (dur col : Z)
    (prev : list TimeBlock) :
  map id (moveBlocks block st dur col prev) = map id prev.
Proof.
  unfold moveBlocks. rewrite map_map. apply map_ext. intros b.
  now destruct (decide (id b = id block)).
Qed.

End LaneInvariant.

(** ** Drag interactions *)

Section Drag.

Variables (env : Env) (e : Event) (s : Calendar) (d : DragState).
Variables (gridRect : Rect) (point : Point) (block : TimeBlock)
          (element : Element).

(** The guards of [handleInteractionMove] pass: a drag is active, the
    grid is mounted, the event carries the pointer of the drag, and the
    dragged block exists and is rendered. *)
Hypothesis Hdrag : dragState s = Some d.
Hypothesis Hgrid : gridRef env = Some gridRect.
Hypothesis Hpoint : eventPoint e d = Some point.
Hypothesis Hblock : findBlock (blockId d) (blocks s) = Some block.
Hypothesis Helement : blockRefs env (blockId d) = Some element.

Lemma handleInteractionMove_move :
  type d = move ->
  blocks <$> handleInteractionMove env e s
  = Some (moveBlocks block
            (getTimeFromPosition env s
               (newTopOf d gridRect element (clientY point - initialY d)
                + rect_top gridRect)%Q)
            (end_ block - start block)
            (newColumnOf d (clientX point - initialX d)%Q) (blocks s)).
Proof using Hdrag Hgrid Hpoint Hblock Helement.
  intros Hty. unfold handleInteractionMove.
  rewrite Hdrag, Hgrid, Hpoint, Hblock, Helement, Hty.
  destruct (isTouch e); reflexivity.
Qed.

Lemma handleInteractionMove_resize (h : Q) :
  type d = resize ->
  initialHeight d = Some h ->
  blocks <$> handleInteractionMove env e s
  = Some (resizeBlocks block
            (snapToGrid
               (pixelsToMinutes
                  (Js.maxQ (inject_Z SNAP_MINUTES)
                           (h + (clientY point - initialY d))%Q)))
            (blocks s)).
Proof using Hdrag Hgrid Hpoint Hblock Helement.
  intros Hty Hh. unfold handleInteractionMove.
  rewrite Hdrag, Hgrid, Hpoint, Hblock, Helement, Hty, Hh.
  destruct (isTouch e); reflexivity.
Qed.

Lemma handleInteractionMove_prep :
  type d = prep ->
  blocks <$> handleInteractionMove env e s
  = Some (prepBlocks block
            (newPrepMinutesOf block (clientY point - initialY d)%Q)
            (blocks s)).
Proof using Hdrag Hgrid Hpoint Hblock Helement.
  intros Hty. unfold handleInteractionMove.
  rewrite Hdrag, Hgrid, Hpoint, Hblock, Helement, Hty.
  destruct (isTouch e); reflexivity.
Qed.

End Drag.

Lemma fmap_blocks_Some (r : option Calendar) (bs : list TimeBlock) :
  blocks <$> r = Some bs -> exists s', r = Some s' /\ blocks s' = bs.
Proof.
  destruct r as [s'|]; cbn; [|discriminate].
  intros [= <-]. now exists s'.
Qed.

Lemma findBlock_map (k : string) (f : TimeBlock -> TimeBlock)
    (bs : list TimeBlock) :
  (forall b, id (f b) = id b) ->
  findBlock k (map f bs) = f <$> findBlock k bs.
Proof.
  intros Hf. unfold findBlock. induction bs as [|b rest IH]; [reflexivity|].
  cbn. rewrite Hf. now destruct (bool_decide (id b = k)).
Qed.

Lemma newColumnOf_range (d : DragState) (deltaX : Q) :
  0 <= newColumnOf d deltaX < MAX_COLUMNS.
Proof. unfold newColumnOf, MAX_COLUMNS. lia. Qed.

Lemma newTopOf_nonneg (d : DragState) (gridRect : Rect) (element : Element)
    (deltaY : Q) :
  (0 <= newTopOf d gridRect element deltaY)%Q.
Proof. unfold newTopOf, Js.maxQ. apply Q.le_max_l. Qed.

(** The start of a moved block is on the snap grid of the displayed day. *)
Lemma move_start_on_grid (env : Env) (s : Calendar) (d : DragState)
    (gridRect : Rect) (element : Element) (deltaY : Q) :
  gridRef env = Some gridRect ->
  getTimeFromPosition env s
    (newTopOf d gridRect element deltaY + rect_top gridRect)%Q
  = Js.startOfDay (currentDate s)
    + snapToGrid (pixelsToMinutes (newTopOf d gridRect element deltaY))
      * Js.MS_PER_MINUTE.
Proof.
  intros Hg. pose proof (newTopOf_nonneg d gridRect element deltaY) as Hn.
  rewrite (getTimeFromPosition_grid env s gridRect _ Hg) by lra.
  rewrite !pixelsToMinutes_round.
  rewrite (round_comp _ (newTopOf d gridRect element deltaY)) by ring.
  reflexivity.
Qed.

Lemma newPrepMinutesOf_range (block : TimeBlock) (deltaY : Q) :
  0 <= newPrepMinutesOf block deltaY
  <= Js.getHours (start block) * 60 + Js.getMinutes (start block).
Proof.
  unfold newPrepMinutesOf.
  pose proof (getHours_range (start block)).
  pose proof (getMinutes_range (start block)). lia.
Qed.

(** The height floor, applied to pixels, is a floor on the duration. *)
Lemma resize_floor (x : Q) :
  snapToGrid (pixelsToMinutes (Js.maxQ (inject_Z SNAP_MINUTES) x))
  = Z.max SNAP_MINUTES (snapToGrid (pixelsToMinutes x)).
Proof.
  assert (E15 : snapToGrid (pixelsToMinutes (inject_Z SNAP_MINUTES))
                = SNAP_MINUTES).
  { rewrite pixelsToMinutes_round, round_inject_Z. apply (snapToGrid_grid 1). }
  unfold Js.maxQ.
  destruct (Q.max_spec_le (inject_Z SNAP_MINUTES) x) as [[Hle Hm]|[Hle Hm]].
  - rewrite pixelsToMinutes_round, (round_comp _ _ Hm), <- pixelsToMinutes_round.
    pose proof (snapToGrid_mono _ _ (pixelsToMinutes_mono _ _ Hle)). lia.
  - rewrite pixelsToMinutes_round, (round_comp _ _ Hm), <- pixelsToMinutes_round.
    pose proof (snapToGrid_mono _ _ (pixelsToMinutes_mono _ _ Hle)). lia.
Qed.

(** C4. A move drag keeps the duration of the dragged block; a block that
    has a preparation interval keeps its preparation duration, and the
    interval ends exactly at the new start of the block: an interval that
    ended at the old start is shifted by the same delta as the block. *)
Theorem move_keeps_duration_and_prep (env : Env) (e : Event) (s : Calendar)
    (d : DragState) (gridRect : Rect) (point : Point) (block : TimeBlock)
    (element : Element) :
  dragState s = Some d ->
  gridRef env = Some gridRect ->
  eventPoint e d = Some point ->
  findBlock (blockId d) (blocks s) = Some block ->
  blockRefs env (blockId d) = Some element ->
  type d = move ->
  exists s' block',
    handleInteractionMove env e s = Some s'
    /\ findBlock (blockId d) (blocks s') = Some block'
    /\ end_ block' - start block' = end_ block - start block
    /\ match prepTime block with
       | Some p =>
           exists p', prepTime block' = Some p'
             /\ prep_duration p' = prep_duration p
             /\ prep_start p' + prep_duration p' * Js.MS_PER_MINUTE
                = start block'
             /\ (prep_start p + prep_duration p * Js.MS_PER_MINUTE
                 = start block ->
                 prep_start p' - prep_start p = start block' - start block)
       | None => prepTime block' = None
       end.
Proof.
  intros Hdrag Hgrid Hpoint Hblock Helement Hty.
  destruct (fmap_blocks_Some _ _
              (handleInteractionMove_move env e s d gridRect point block
                 element Hdrag Hgrid Hpoint Hblock Helement Hty))
    as (s' & Hs' & Hbs).
  destruct (findBlock_id _ _ _ Hblock) as [Hid _].
  exists s'. eexists. split; [exact Hs'|]. rewrite Hbs.
  unfold moveBlocks. rewrite findBlock_map, Hblock
    by (intros b; now destruct (decide (id b = id block))).
  cbn [fmap option_fmap option_map].
  rewrite decide_True by reflexivity.
  split; [reflexivity|]. cbn [start end_ prepTime with_times].
  split; [lia|].
  destruct (prepTime block) as [p|]; [|reflexivity].
  eexists. split; [reflexivity|]. cbn. unfold Js.MS_PER_MINUTE. lia.
Qed.

(** C5. A resize drag changes only the end of the dragged block.  The new
    duration is [snap(pixelsToMinutes(initialHeight + deltaY))] minutes,
    floored at [SNAP_MINUTES], so the block never ends at or before its
    start. *)
Theorem resize_changes_end_only (env : Env) (e : Event) (s : Calendar)
    (d : DragState) (gridRect : Rect) (point : Point) (block : TimeBlock)
    (element : Element) (h : Q) :
  dragState s = Some d ->
  gridRef env = Some gridRect ->
  eventPoint e d = Some point ->
  findBlock (blockId d) (blocks s) = Some block ->
  blockRefs env (blockId d) = Some element ->
  type d = resize ->
  initialHeight d = Some h ->
  let deltaY := (clientY point - initialY d)%Q in
  exists s' block',
    handleInteractionMove env e s = Some s'
    /\ findBlock (blockId d) (blocks s') = Some block'
    /\ block' = with_end block (end_ block')
    /\ start block' = start block
    /\ end_ block' - start block'
       = Z.max SNAP_MINUTES (snapToGrid (pixelsToMinutes (h + deltaY)))
         * Js.MS_PER_MINUTE
    /\ SNAP_MINUTES * Js.MS_PER_MINUTE <= end_ block' - start block'
    /\ start block' < end_ block'.
Proof.
  intros Hdrag Hgrid Hpoint Hblock Helement Hty Hh deltaY.
  destruct (fmap_blocks_Some _ _
              (handleInteractionMove_resize env e s d gridRect point block
                 element Hdrag Hgrid Hpoint Hblock Helement h Hty Hh))
    as (s' & Hs' & Hbs).
  exists s'. eexists. split; [exact Hs'|]. rewrite Hbs.
  unfold resizeBlocks. rewrite findBlock_map, Hblock
    by (intros b; now destruct (decide (id b = id block))).
  cbn [fmap option_fmap option_map].
  rewrite decide_True by reflexivity.
  split; [reflexivity|]. cbn [start end_ with_end].
  rewrite setMinutes_add, resize_floor. fold deltaY.
  unfold SNAP_MINUTES, Js.MS_PER_MINUTE.
  repeat apply conj; try reflexivity; lia.
Qed.

(** C6. A preparation-time drag that computes duration 0 leaves the block
    without a [prepTime]; one that computes a positive duration gives the
    block a [prepTime] of that duration which ends at the block's start. *)
Theorem prep_drag_sets_or_removes (env : Env) (e : Event) (s : Calendar)
    (d : DragState) (gridRect : Rect) (point : Point) (block : TimeBlock)
    (element : Element) :
  dragState s = Some d ->
  gridRef env = Some gridRect ->
  eventPoint e d = Some point ->
  findBlock (blockId d) (blocks s) = Some block ->
  blockRefs env (blockId d) = Some element ->
  type d = prep ->
  let deltaY := (clientY point - initialY d)%Q in
  let n := newPrepMinutesOf block deltaY in
  exists s' block',
    handleInteractionMove env e s = Some s'
    /\ findBlock (blockId d) (blocks s') = Some block'
    /\ block' = with_prepTime block (prepTime block')
    /\ (n = 0 -> prepTime block' = None)
    /\ (0 < n ->
        exists p, prepTime block' = Some p
          /\ prep_duration p = n
          /\ prep_start p + prep_duration p * Js.MS_PER_MINUTE
             = start block').
Proof.
  intros Hdrag Hgrid Hpoint Hblock Helement Hty deltaY n.
  destruct (fmap_blocks_Some _ _
              (handleInteractionMove_prep env e s d gridRect point block
                 element Hdrag Hgrid Hpoint Hblock Helement Hty))
    as (s' & Hs' & Hbs).
  exists s'. eexists. split; [exact Hs'|]. rewrite Hbs.
  unfold prepBlocks. rewrite findBlock_map, Hblock.
  2:{ intros b. destruct (decide (id b = id block)); [|reflexivity].
      now destruct (_ =? 0). }
  cbn [fmap option_fmap option_map].
  rewrite decide_True by reflexivity. fold deltaY. fold n.
  split; [reflexivity|].
  destruct (Z.eqb_spec n 0) as [Hn|Hn]; cbn [prepTime with_prepTime start].
  - repeat apply conj; [reflexivity|reflexivity|lia].
  - repeat apply conj; [reflexivity|congruence|].
    intros _. eexists. split; [reflexivity|]. cbn.
    unfold Js.MS_PER_MINUTE. lia.
Qed.

(** A drag state that [handleBlockInteractionStart] installs has the type
    of the handle that was grabbed and, for the resize handle, a height. *)
Lemma interaction_start_drag (env : Env) (e : StartEvent) (b : TimeBlock)
    (ty : DragType) (s : Calendar) :
  dragState (handleBlockInteractionStart env e b ty s) = dragState s
  \/ exists d,
       dragState (handleBlockInteractionStart env e b ty s) = Some d
       /\ type d = ty /\ blockId d = id b
       /\ (ty = resize -> is_Some (initialHeight d)).
Proof.
  unfold handleBlockInteractionStart.
  destruct (blockRefs env (id b)) as [element|]; cbn; [|now left].
  destruct ty; cbn.
  - destruct (_ <? 300); cbn; [now left|]. right. eexists.
    repeat apply conj; [reflexivity..|discriminate].
  - destruct (_ <? 300); cbn; [now left|]. right. eexists.
    repeat apply conj; [reflexivity..|cbn; eauto].
  - right. eexists. repeat apply conj; [reflexivity..|discriminate].
Qed.

Lemma handleInteractionMove_total (env : Env) (e : Event) (s : Calendar) :
  DragOk s -> is_Some (handleInteractionMove env e s).
Proof.
  intros Hok. unfold handleInteractionMove.
  destruct (dragState s) as [d|] eqn:Hdrag; [|eauto].
  destruct (gridRef env); [|eauto].
  destruct (eventPoint e d); [|eauto].
  destruct (findBlock (blockId d) (blocks s)); [|eauto].
  destruct (blockRefs env (blockId d)); [|eauto].
  destruct (type d) eqn:Hty; [eauto| |eauto].
  destruct (Hok d Hdrag Hty) as [h ->]. eauto.
Qed.

Lemma handleInteractionMove_drag (env : Env) (e : Event) (s s' : Calendar) :
  handleInteractionMove env e s = Some s' -> dragState s' = dragState s.
Proof.
  unfold handleInteractionMove.
  destruct (dragState s) as [d|] eqn:Hd; [|intros [= <-]; congruence].
  destruct (gridRef env); [|intros [= <-]; congruence].
  destruct (eventPoint e d); [|intros [= <-]; congruence].
  destruct (findBlock (blockId d) (blocks s)); [|intros [= <-]; congruence].
  destruct (blockRefs env (blockId d)); [|intros [= <-]; congruence].
  destruct (type d); [| destruct (initialHeight d); [|discriminate] |];
    destruct (isTouch e); intros [= <-]; cbn; congruence.
Qed.

Lemma handleInteractionMove_move_inv (env : Env) (e : Event)
    (s : Calendar) (d : DragState) (s' : Calendar) :
  dragState s = Some d ->
  type d = move ->
  handleInteractionMove env e s = Some s' ->
  blocks s' = blocks s
  \/ exists block st dur col,
       findBlock (blockId d) (blocks s) = Some block
       /\ blocks s' = moveBlocks block st dur col (blocks s).
Proof.
  intros Hdrag Hty. unfold handleInteractionMove. rewrite Hdrag, Hty.
  destruct (gridRef env); [|intros [= <-]; now left].
  destruct (eventPoint e d); [|intros [= <-]; now left].
  destruct (findBlock (blockId d) (blocks s)) as [block|];
    [|intros [= <-]; now left].
  destruct (blockRefs env (blockId d)); [|intros [= <-]; now left].
  destruct (isTouch e); intros [= <-]; right; cbn; eauto 10.
Qed.

(** C1, as amended.  Creating a block keeps the lanes free of overlap
    whenever some lane of [0 .. MAX_COLUMNS-1] is free for the new
    interval.  A move makes no overlap check: it keeps the lanes free of
    overlap whenever block identifiers are unique and the dragged block, at
    its new place, overlaps no other block. *)
Theorem lane_invariant_when_room (env : Env) (s : Calendar) :
  NoLaneOverlap (blocks s) ->
  (forall (rnd : string) (y : Q),
     let startTime := getTimeFromPosition env s y in
     let endTime := startTime + Js.MS_PER_HOUR in
     (exists c, 0 <= c < MAX_COLUMNS
                /\ hasOverlap (blocks s) c startTime endTime = false) ->
     NoLaneOverlap (blocks (snd (createBlock env rnd y s))))
  /\ (forall (e : Event) (d : DragState) (s' : Calendar)
             (moved : TimeBlock),
        dragState s = Some d ->
        type d = move ->
        NoDup (map id (blocks s)) ->
        handleInteractionMove env e s = Some s' ->
        findBlock (blockId d) (blocks s') = Some moved ->
        (forall x, x ∈ blocks s' -> id x <> blockId d ->
                   overlapping moved x = false) ->
        NoLaneOverlap (blocks s')).
Proof.
  intros Hinv. split.
  - intros rnd y startTime endTime (c & Hc & Hfree).
    destruct (isDraggingNow s) eqn:Hd.
    { unfold createBlock. now rewrite Hd. }
    rewrite (createBlock_unfold env rnd y s Hd). cbn [snd blocks setBlocks].
    apply NoLaneOverlap_snoc; [assumption|].
    intros x Hx. apply overlapping_false. cbn [column start end_].
    intros Hcol [H1 H2].
    refine (hasOverlap_false (blocks s) _ startTime endTime x _ Hx Hcol _).
    + unfold findAvailableColumn.
      apply scanColumns_free with (c := c); [|exact Hfree].
      unfold MAX_COLUMNS in *. lia.
    + split; assumption.
  - intros e d s' moved Hdrag Hty Hnd Hs' Hmoved Hroom.
    destruct (handleInteractionMove_move_inv env e s d s' Hdrag Hty Hs')
      as [Hsame|(block & st & dur & col & Hfound & Hbs)].
    { rewrite Hsame in *. intros i j a b Hij Hi Hj. now apply (Hinv i j). }
    destruct (findBlock_id _ _ _ Hfound) as [Hbid _].
    assert (Hids : map id (blocks s') = map id (blocks s))
      by (rewrite Hbs; apply moveBlocks_ids).
    assert (Hkeep : forall i x', blocks s' !! i = Some x' ->
                      id x' <> blockId d -> blocks s !! i = Some x').
    { intros i x' Hi Hx'. rewrite Hbs in Hi.
      apply moveBlocks_lookup in Hi as (x & Hx & Hid & Hne & _).
      rewrite Hne by congruence. exact Hx. }
    assert (Hnd' : NoDup (map id (blocks s'))) by now rewrite Hids.
    intros i j a b Hij Hi Hj.
    destruct (decide (id a = blockId d)) as [Ha|Ha],
             (decide (id b = blockId d)) as [Hb|Hb].
    + exfalso. apply Hij.
      apply (NoDup_lookup (map id (blocks s')) i j (blockId d) Hnd');
        rewrite list_lookup_fmap; [rewrite Hi|rewrite Hj]; cbn; congruence.
    + rewrite (findBlock_unique _ _ _ _ Hnd' Hi Ha) in Hmoved.
      injection Hmoved as <-. apply overlapping_false, Hroom; [|exact Hb].
      eapply list_elem_of_lookup_2; eauto.
    + rewrite (findBlock_unique _ _ _ _ Hnd' Hj Hb) in Hmoved.
      injection Hmoved as <-. apply overlapping_false.
      rewrite overlapping_sym. apply Hroom; [|exact Ha].
      eapply list_elem_of_lookup_2; eauto.
    + apply (Hinv i j a b Hij); auto.
Qed.

(** ** Mover roster *)

Lemma removeMoverBlock_run (m : string) (b : TimeBlock)
    (h : gmap loc (list string)) :
  removeMoverBlock m b h
  = (with_assignedMovers b (Some (fresh (dom h))),
     <[fresh (dom h) := filter (fun x => x ≠ m) (moversOf h b)]> h).
Proof. reflexivity. Qed.

Lemma mapStore_removeMover (m : string) (bs : list TimeBlock) :
  forall (h : gmap loc (list string)) (bs' : list TimeBlock)
         (h' : gmap loc (list string)),
    mapStore (removeMoverBlock m) bs h = (bs', h') ->
    (forall l, l ∈ dom h -> h' !! l = h !! l)
    /\ (forall i b,
          bs !! i = Some b ->
          (forall l, assignedMovers b = Some l -> l ∈ dom h) ->
          exists l',
            bs' !! i = Some (with_assignedMovers b (Some l'))
            /\ h' !! l' = Some (filter (fun x => x ≠ m) (moversOf h b)))
    /\ length bs' = length bs.
Proof.
  induction bs as [|b rest IH]; intros h bs' h' Hrun.
  - cbn in Hrun. injection Hrun as Hbs Hh. subst bs' h'.
    repeat apply conj; [reflexivity| |reflexivity].
    intros i b Hi. now destruct i.
  - cbn [mapStore] in Hrun. unfold bind at 1 in Hrun.
    rewrite removeMoverBlock_run in Hrun.
    set (l := fresh (dom h)) in *.
    set (h1 := <[l := filter (fun x => x ≠ m) (moversOf h b)]> h) in *.
    unfold bind in Hrun.
    destruct (mapStore (removeMoverBlock m) rest h1) as [ys h2] eqn:Hrest.
    cbn in Hrun. injection Hrun as Hbs Hh. subst bs' h'.
    destruct (IH h1 ys h2 Hrest) as (Hkeep & Hnew & Hlen).
    assert (Hfresh : l ∉ dom h) by apply is_fresh.
    assert (Hdom : forall l0, l0 ∈ dom h -> l0 ∈ dom h1).
    { intros l0 Hl0. unfold h1. rewrite dom_insert_L.
      apply elem_of_union. now right. }
    assert (Hold : forall l0, l0 ∈ dom h -> h2 !! l0 = h !! l0).
    { intros l0 Hl0. rewrite Hkeep by auto. unfold h1.
      apply lookup_insert_ne. intros ->. contradiction. }
    repeat apply conj.
    + exact Hold.
    + intros i x Hi Hclosed. destruct i as [|i]; cbn in Hi.
      * injection Hi as <-. exists l. split; [reflexivity|].
        rewrite Hkeep
          by (unfold h1; rewrite dom_insert_L; apply elem_of_union; left;
              now apply elem_of_singleton).
        unfold h1. apply lookup_insert_eq.
      * destruct (Hnew i x Hi) as (l' & Hl' & Hread).
        { intros l0 Hl0. auto. }
        exists l'. split; [exact Hl'|]. rewrite Hread. do 2 f_equal.
        unfold moversOf, moversAt.
        destruct (assignedMovers x) as [l0|] eqn:Hx; [|reflexivity].
        unfold h1. rewrite lookup_insert_ne; [reflexivity|].
        intros <-. apply Hfresh. auto.
    + cbn. now rewrite Hlen.
Qed.

(** [removeMover] on a state without dangling array references. *)
Lemma removeMover_spec (m : string) (s : Calendar) :
  StoreClosed s ->
  length (blocks (removeMover m s)) = length (blocks s)
  /\ (forall i b,
        blocks s !! i = Some b ->
        exists b',
          blocks (removeMover m s) !! i = Some b'
          /\ moversOf (heap (removeMover m s)) b'
             = filter (fun x => x ≠ m) (moversOf (heap s) b)
          /\ (m ∉ moversOf (heap (removeMover m s)) b')
          /\ id b' = id b /\ title b' = title b
          /\ description b' = description b /\ location b' = location b
          /\ start b' = start b /\ end_ b' = end_ b
          /\ column b' = column b /\ color b' = color b
          /\ prepTime b' = prepTime b)
  /\ (forall mv, (mv ∈ movers (removeMover m s))
                 <-> (mv ∈ movers s /\ mover_id mv <> m)).
Proof.
  intros Hclosed. unfold removeMover.
  destruct (mapStore (removeMoverBlock m) (blocks s) (heap s))
    as [bs' h'] eqn:Hrun.
  destruct (mapStore_removeMover m _ _ _ _ Hrun) as (_ & Hnew & Hlen).
  cbn [blocks heap movers setBlocks setHeap setMovers].
  split; [|split].
  - exact Hlen.
  - intros i b Hi. destruct (Hnew i b Hi) as (l' & Hl' & Hread).
    { intros l Hl. apply (Hclosed b l); [|exact Hl].
      eapply list_elem_of_lookup_2; eauto. }
    eexists. split; [exact Hl'|].
    assert (Hm : moversOf h' (with_assignedMovers b (Some l'))
                 = filter (fun x => x ≠ m) (moversOf (heap s) b)).
    { unfold moversOf at 1. cbn. now rewrite Hread. }
    repeat apply conj; try reflexivity.
    + exact Hm.
    + rewrite Hm. intros Hin. apply list_elem_of_filter in Hin as [Hne _].
      now apply Hne.
  - intros mv. rewrite list_elem_of_filter. tauto.
Qed.

(** ** Block editor *)

Lemma indexOf_spec (x : string) (arr : list string) :
  ((x ∉ arr) /\ Js.indexOf x arr = -1)
  \/ (exists pre post,
        arr = pre ++ x :: post /\ (x ∉ pre)
        /\ Js.indexOf x arr = Z.of_nat (length pre)).
Proof.
  induction arr as [|y rest IH]; cbn.
  - left. split; [apply not_elem_of_nil|reflexivity].
  - destruct (decide (y = x)) as [->|Hne].
    + right. exists [], rest. repeat apply conj;
        [reflexivity|apply not_elem_of_nil|reflexivity].
    + destruct IH as [[Hnot ->]|(pre & post & -> & Hpre & ->)].
      * left. cbn. split; [|reflexivity].
        rewrite not_elem_of_cons. auto.
      * right. exists (y :: pre), post.
        destruct (Z.ltb_spec (Z.of_nat (length pre)) 0); [lia|].
        repeat apply conj; [reflexivity| |cbn [length]; lia].
        rewrite not_elem_of_cons. auto.
Qed.

Lemma toggleArray_absent (m : string) (arr : list string) :
  m ∉ arr -> toggleArray m arr = arr ++ [m].
Proof.
  intros Hm. unfold toggleArray.
  destruct (indexOf_spec m arr) as [[_ ->]|(pre & post & -> & _ & _)].
  - reflexivity.
  - exfalso. apply Hm. rewrite elem_of_app, elem_of_cons. auto.
Qed.

Lemma toggleArray_present (m : string) (arr : list string) :
  m ∈ arr ->
  exists pre post,
    arr = pre ++ m :: post /\ (m ∉ pre) /\ toggleArray m arr = pre ++ post.
Proof.
  intros Hm. unfold toggleArray.
  destruct (indexOf_spec m arr) as [[Hnot _]|(pre & post & -> & Hpre & ->)].
  - contradiction.
  - exists pre, post. repeat apply conj; [reflexivity|exact Hpre|].
    destruct (Z.eqb_spec (Z.of_nat (length pre)) (-1)); [lia|].
    unfold Js.splice1. rewrite Nat2Z.id. apply delete_middle.
Qed.

Lemma elem_of_middle_removed (m x : string) (pre post : list string) :
  NoDup (pre ++ m :: post) ->
  x ∈ pre ++ post <-> (x ∈ pre ++ m :: post /\ x <> m).
Proof.
  intros Hnd. apply NoDup_app in Hnd as (_ & Hdisj & Hpost).
  apply NoDup_cons in Hpost as [Hm _].
  rewrite !elem_of_app, elem_of_cons. split.
  - intros [Hx|Hx].
    + split; [auto|]. intros ->. apply (Hdisj m Hx), elem_of_cons. auto.
    + split; [auto|]. intros ->. contradiction.
  - intros [[Hx|[Hx|Hx]] Hne]; auto. contradiction.
Qed.

Lemma toggleArray_NoDup (m : string) (arr : list string) :
  NoDup arr -> NoDup (toggleArray m arr).
Proof.
  intros Hnd. destruct (decide (m ∈ arr)) as [Hm|Hm].
  - destruct (toggleArray_present m arr Hm) as (pre & post & -> & _ & ->).
    apply NoDup_app in Hnd as (Hpre & Hdisj & Hpost).
    apply NoDup_cons in Hpost as [_ Hpost].
    apply NoDup_app. repeat apply conj; [exact Hpre| |exact Hpost].
    intros x Hx Hx'. apply (Hdisj x Hx), elem_of_cons. auto.
  - rewrite (toggleArray_absent m arr Hm).
    apply NoDup_app. repeat apply conj; [exact Hnd| |apply NoDup_singleton].
    intros x Hx Hx'. apply list_elem_of_singleton in Hx' as ->. contradiction.
Qed.

(** The draft's mover list after [toggleMover], read through the store. *)
Lemma toggleMover_view (m : string) (formState : TimeBlock)
    (h : gmap loc (list string)) :
  moversOf (snd (toggleMover m formState h)) (fst (toggleMover m formState h))
  = toggleArray m (moversOf h formState).
Proof.
  unfold toggleMover, moversOf, toggleArray.
  destruct (assignedMovers formState) as [l|]; cbn.
  - destruct (_ =? -1); cbn; now rewrite lookup_insert_eq.
  - rewrite lookup_insert_eq. cbn. now rewrite lookup_insert_eq.
Qed.

(** [toggleMover] on a draft whose mover ids are distinct. *)
Lemma toggleMover_spec (m : string) (formState : TimeBlock)
    (h : gmap loc (list string)) :
  NoDup (moversOf h formState) ->
  let r1 := toggleMover m formState h in
  let r2 := toggleMover m (fst r1) (snd r1) in
  (m ∉ moversOf h formState -> m ∈ moversOf (snd r1) (fst r1))
  /\ (m ∈ moversOf h formState -> m ∉ moversOf (snd r1) (fst r1))
  /\ (forall x, x <> m ->
        (x ∈ moversOf (snd r1) (fst r1)) <-> (x ∈ moversOf h formState))
  /\ (forall x,
        (x ∈ moversOf (snd r2) (fst r2)) <-> (x ∈ moversOf h formState))
  /\ NoDup (moversOf (snd r1) (fst r1)).
Proof.
  intros Hnd r1 r2. unfold r2, r1. rewrite !toggleMover_view.
  set (arr := moversOf h formState) in *.
  assert (Hone : forall a, NoDup a ->
            (forall x, x ∈ toggleArray m a
                       <-> ((x ∈ a /\ x <> m) \/ (x = m /\ m ∉ a)))).
  { intros a Ha x. destruct (decide (m ∈ a)) as [Hm|Hm].
    - destruct (toggleArray_present m a Hm) as (pre & post & E & _ & ->).
      subst a. rewrite (elem_of_middle_removed m x pre post Ha). tauto.
    - rewrite (toggleArray_absent m a Hm), elem_of_app, list_elem_of_singleton.
      split.
      + intros [Hx| ->]; [left|right]; split; auto. intros ->. contradiction.
      + intros [[Hx _]|[-> _]]; auto. }
  pose proof (toggleArray_NoDup m arr Hnd) as Hnd1.
  repeat apply conj.
  - intros Hm. apply Hone; auto.
  - intros Hm Hin. apply Hone in Hin; tauto.
  - intros x Hx. rewrite (Hone arr Hnd). tauto.
  - intros x. rewrite (Hone _ Hnd1), !(Hone arr Hnd).
    destruct (decide (x = m)) as [->|Hne]; [|tauto].
    destruct (decide (m ∈ arr)); tauto.
  - exact Hnd1.
Qed.

Lemma applyEdits_inputs_only (es : list DraftEdit) (formState : TimeBlock)
    (h : gmap loc (list string)) :
  Forall (fun e => exists name value, e = InputChange name value) es ->
  snd (applyEdits es formState h) = h
  /\ assignedMovers (fst (applyEdits es formState h))
     = assignedMovers formState.
Proof.
  intros Hes. revert formState.
  induction Hes as [|e es (name & value & ->) _ IH]; intros formState.
  - split; reflexivity.
  - cbn. unfold bind, ret. destruct (IH (handleInputChange name value formState))
      as [IH1 IH2].
    destruct (applyEdits es (handleInputChange name value formState) h)
      as [f h'] eqn:E.
    cbn in *. split; [exact IH1|]. rewrite IH2. now destruct name.
Qed.

(** "Done" replaces the blocks that carry the edited id by the draft and
    keeps every other block. *)
Lemma editorSession_done (es : list DraftEdit) (s : Calendar)
    (block : TimeBlock) :
  editingBlock s = Some block ->
  blocks (editorSession es true s)
  = map (fun b => if decide (id b = id block)
                  then fst (applyEdits es block (heap s)) else b) (blocks s)
  /\ editingBlock (editorSession es true s) = None.
Proof.
  intros He. unfold editorSession. rewrite He.
  destruct (applyEdits es block (heap s)) as [formState h].
  split; reflexivity.
Qed.

(** "Cancel" after edits of the text fields only leaves the block list and
    the arrays behind it as they were. *)
Lemma editorSession_cancel_inputs (es : list DraftEdit) (s : Calendar) :
  Forall (fun e => exists name value, e = InputChange name value) es ->
  blocks (editorSession es false s) = blocks s
  /\ heap (editorSession es false s) = heap s.
Proof.
  intros Hes. unfold editorSession.
  destruct (editingBlock s) as [block|]; [|split; reflexivity].
  destruct (applyEdits_inputs_only es block (heap s) Hes) as [Hh _].
  destruct (applyEdits es block (heap s)) as [formState h].
  cbn in *. now subst h.
Qed.

(** ** Well-formed states

    The handlers keep the store closed and its arrays free of duplicates,
    starting from the initial state. *)

Lemma wf_initial (today : Js.Date) : WellFormed (initialCalendar today).
Proof.
  split.
  - intros b l Hb. cbn in Hb. now apply not_elem_of_nil in Hb.
  - intros l arr Hl. cbn in Hl. now rewrite lookup_empty in Hl.
Qed.

Lemma wf_createBlock (env : Env) (rnd : string) (y : Q) (s : Calendar) :
  WellFormed s -> WellFormed (snd (createBlock env rnd y s)).
Proof.
  intros [Hclosed Hdistinct].
  destruct (isDraggingNow s) eqn:Hd.
  { unfold createBlock. rewrite Hd. now split. }
  rewrite (createBlock_unfold env rnd y s Hd).
  cbn [snd]. split.
  - intros b l Hb Hl. cbn [blocks heap setBlocks setHeap] in *.
    rewrite dom_insert_L. apply elem_of_union.
    apply elem_of_app in Hb as [Hb|Hb].
    + right. eapply Hclosed; eauto.
    + left. apply list_elem_of_singleton in Hb. subst b. cbn in Hl.
      injection Hl as <-. now apply elem_of_singleton.
  - intros l arr. cbn [heap setBlocks setHeap].
    rewrite lookup_insert. case_decide.
    + intros [= <-]. apply NoDup_nil_2.
    + apply Hdistinct.
Qed.

Lemma handleInteractionMove_frame (env : Env) (e : Event) (s s' : Calendar) :
  handleInteractionMove env e s = Some s' ->
  heap s' = heap s
  /\ map assignedMovers (blocks s') = map assignedMovers (blocks s).
Proof.
  unfold handleInteractionMove.
  destruct (dragState s) as [d|]; [|now intros [= <-]].
  destruct (gridRef env); [|now intros [= <-]].
  destruct (eventPoint e d); [|now intros [= <-]].
  destruct (findBlock (blockId d) (blocks s)) as [block|];
    [|now intros [= <-]].
  destruct (blockRefs env (blockId d)); [|now intros [= <-]].
  destruct (type d); [| destruct (initialHeight d); [|discriminate] |];
    destruct (isTouch e); intros [= <-];
    cbn [heap blocks setBlocks setTouchMoveCount];
    (split; [reflexivity|]);
    unfold moveBlocks, resizeBlocks, prepBlocks;
    rewrite map_map; apply map_ext; intros b;
    destruct (decide (id b = id block)); try reflexivity.
  all: now destruct (_ =? 0).
Qed.

Lemma wf_handleInteractionMove (env : Env) (e : Event) (s s' : Calendar) :
  WellFormed s -> handleInteractionMove env e s = Some s' -> WellFormed s'.
Proof.
  intros [Hclosed Hdistinct] Hs'.
  destruct (handleInteractionMove_frame env e s s' Hs') as [Hh Hm].
  split; [|now rewrite Hh].
  intros b l Hb Hl. rewrite Hh.
  assert (Some l ∈ map assignedMovers (blocks s)) as Hin.
  { rewrite <- Hm, <- Hl. apply list_elem_of_fmap. eauto. }
  apply list_elem_of_fmap in Hin as (b0 & Hb0 & Hin).
  eapply Hclosed; eauto.
Qed.

Lemma toggleMover_store (m : string) (formState : TimeBlock)
    (h : gmap loc (list string)) :
  exists l,
    assignedMovers (fst (toggleMover m formState h)) = Some l
    /\ snd (toggleMover m formState h) !! l
       = Some (toggleArray m (moversOf h formState))
    /\ forall l', l' <> l ->
                  snd (toggleMover m formState h) !! l' = h !! l'.
Proof.
  unfold toggleMover, moversOf, toggleArray.
  destruct (assignedMovers formState) as [l|] eqn:E; cbn.
  - exists l. destruct (_ =? -1); cbn;
      (repeat apply conj;
       [reflexivity|apply lookup_insert_eq|
        intros l' Hne; now apply lookup_insert_ne]).
  - exists (fresh (dom h)). rewrite lookup_insert_eq. cbn.
    repeat apply conj.
    + reflexivity.
    + apply lookup_insert_eq.
    + intros l' Hne. rewrite !lookup_insert_ne by congruence. reflexivity.
Qed.

Lemma wf_toggleMover (m : string) (formState : TimeBlock)
    (h : gmap loc (list string)) :
  ArraysDistinct h -> ArraysDistinct (snd (toggleMover m formState h)).
Proof.
  intros Hdistinct l arr Hl.
  assert (NoDup (moversOf h formState)) as Hnd.
  { unfold moversOf, moversAt. destruct (assignedMovers formState) as [l0|];
      [|apply NoDup_nil_2].
    destruct (h !! l0) eqn:E; cbn; [eauto|apply NoDup_nil_2]. }
  destruct (toggleMover_store m formState h) as (l0 & _ & Hnew & Hold).
  destruct (decide (l = l0)) as [->|Hne].
  - rewrite Hnew in Hl. injection Hl as <-. now apply toggleArray_NoDup.
  - rewrite (Hold l Hne) in Hl. eauto.
Qed.

Lemma wf_removeMover (m : string) (s : Calendar) :
  WellFormed s -> WellFormed (removeMover m s).
Proof.
  intros [Hclosed Hdistinct]. unfold removeMover.
  destruct (mapStore (removeMoverBlock m) (blocks s) (heap s))
    as [bs' h'] eqn:Hrun.
  cbn [blocks heap setBlocks setHeap setMovers].
  assert (Hgen : forall bs h bs' h',
            mapStore (removeMoverBlock m) bs h = (bs', h') ->
            ArraysDistinct h ->
            ArraysDistinct h'
            /\ forall b l, b ∈ bs' -> assignedMovers b = Some l ->
                           l ∈ dom h').
  { clear. induction bs as [|b rest IH]; intros h bs' h' Hrun Hd.
    - cbn in Hrun. injection Hrun as Hbs Hh. subst bs' h'.
      split; [exact Hd|]. intros b l Hb. now apply not_elem_of_nil in Hb.
    - cbn [mapStore] in Hrun. unfold bind at 1 in Hrun.
      rewrite removeMoverBlock_run in Hrun. unfold bind in Hrun.
      destruct (mapStore (removeMoverBlock m) rest _) as [ys h2] eqn:Hrest.
      cbn in Hrun. injection Hrun as Hbs Hh. subst bs' h'.
      destruct (mapStore_removeMover m _ _ _ _ Hrest) as (Hkeep & _ & _).
      destruct (IH _ _ _ Hrest) as [Hd2 Hc2].
      { intros l arr. rewrite lookup_insert. case_decide; [|apply Hd].
        intros [= <-]. apply NoDup_filter.
        unfold moversOf, moversAt. destruct (assignedMovers b) as [l0|];
          [|apply NoDup_nil_2].
        destruct (h !! l0) eqn:E; cbn; [eauto|apply NoDup_nil_2]. }
      split; [exact Hd2|]. intros x l Hx Hl.
      apply elem_of_cons in Hx as [->|Hx]; [|eauto].
      cbn in Hl. injection Hl as <-. apply elem_of_dom.
      rewrite Hkeep, lookup_insert_eq; [eauto|].
      rewrite dom_insert_L. apply elem_of_union. left.
      now apply elem_of_singleton. }
  destruct (Hgen _ _ _ _ Hrun Hdistinct) as [Hd' Hc'].
  split; [exact Hc'|exact Hd'].
Qed.

(** ** The invariant of the reachable states *)

Lemma refClosed_mono (h h' : gmap loc (list string)) (b : option TimeBlock) :
  dom h ⊆ dom h' -> refClosed h b -> refClosed h' b.
Proof. intros Hsub Hb x l Hx Hl. apply Hsub. eapply Hb; eauto. Qed.

Lemma refClosed_None (h : gmap loc (list string)) : refClosed h None.
Proof. intros x l Hx. discriminate. Qed.

Lemma refClosed_block (s : Calendar) (b : TimeBlock) :
  StoreClosed s -> b ∈ blocks s -> refClosed (heap s) (Some b).
Proof. intros Hc Hb x l [= <-] Hl. eapply Hc; eauto. Qed.

(** A handler that leaves the blocks and the store alone. *)
Lemma frame_invariant (s s' : Calendar) :
  blocks s' = blocks s ->
  heap s' = heap s ->
  (editingBlock s' = editingBlock s \/ editingBlock s' = None
   \/ exists b, b ∈ blocks s /\ editingBlock s' = Some b) ->
  WellFormed s -> refClosed (heap s) (editingBlock s) ->
  WellFormed s' /\ refClosed (heap s') (editingBlock s')
  /\ dom (heap s) ⊆ dom (heap s').
Proof.
  intros Hb Hh He [Hc Hd] Hed. rewrite Hh. repeat apply conj.
  - intros b l. rewrite Hb, Hh. apply Hc.
  - now rewrite Hh.
  - destruct He as [->|[->|(b & Hin & ->)]];
      [exact Hed|apply refClosed_None|now apply refClosed_block].
  - reflexivity.
Qed.

Lemma handleBlockInteractionStart_frame (env : Env) (e : StartEvent)
    (b : TimeBlock) (ty : DragType) (s : Calendar) :
  blocks (handleBlockInteractionStart env e b ty s) = blocks s
  /\ heap (handleBlockInteractionStart env e b ty s) = heap s
  /\ (editingBlock (handleBlockInteractionStart env e b ty s)
      = editingBlock s
      \/ editingBlock (handleBlockInteractionStart env e b ty s) = Some b).
Proof.
  unfold handleBlockInteractionStart.
  destruct (blockRefs env (id b)); [|cbn; auto].
  destruct ty; try destruct (_ <? 300); cbn; auto.
Qed.

Lemma handleInteractionEnd_frame (env : Env) (touch : bool) (s : Calendar) :
  blocks (handleInteractionEnd env touch s) = blocks s
  /\ heap (handleInteractionEnd env touch s) = heap s
  /\ (editingBlock (handleInteractionEnd env touch s) = editingBlock s
      \/ exists b, b ∈ blocks s
           /\ editingBlock (handleInteractionEnd env touch s) = Some b).
Proof.
  unfold handleInteractionEnd.
  destruct (touch && _ && _); [|cbn; auto].
  destruct (dragState s) as [d|]; [|cbn; auto].
  destruct (findBlock (blockId d) (blocks s)) as [b|] eqn:E; [|cbn; auto].
  cbn. repeat apply conj; [reflexivity..|]. right. exists b.
  split; [|reflexivity]. now apply findBlock_id in E.
Qed.

Lemma handleInteractionMove_editing (env : Env) (e : Event)
    (s s' : Calendar) :
  handleInteractionMove env e s = Some s' ->
  editingBlock s' = editingBlock s.
Proof.
  unfold handleInteractionMove.
  destruct (dragState s) as [d|]; [|now intros [= <-]].
  destruct (gridRef env); [|now intros [= <-]].
  destruct (eventPoint e d); [|now intros [= <-]].
  destruct (findBlock (blockId d) (blocks s)); [|now intros [= <-]].
  destruct (blockRefs env (blockId d)); [|now intros [= <-]].
  destruct (type d); [| destruct (initialHeight d); [|discriminate] |];
    destruct (isTouch e); now intros [= <-].
Qed.

Lemma removeMover_dom (m : string) (s : Calendar) :
  dom (heap s) ⊆ dom (heap (removeMover m s))
  /\ editingBlock (removeMover m s) = editingBlock s.
Proof.
  unfold removeMover.
  destruct (mapStore (removeMoverBlock m) (blocks s) (heap s))
    as [bs' h'] eqn:Hrun.
  destruct (mapStore_removeMover m _ _ _ _ Hrun) as (Hkeep & _ & _).
  cbn. split; [|reflexivity].
  intros l Hl. apply elem_of_dom. rewrite Hkeep by assumption.
  now apply elem_of_dom.
Qed.

Lemma createBlock_dom (env : Env) (rnd : string) (y : Q) (s : Calendar) :
  dom (heap s) ⊆ dom (heap (snd (createBlock env rnd y s)))
  /\ editingBlock (snd (createBlock env rnd y s)) = editingBlock s.
Proof.
  destruct (isDraggingNow s) eqn:Hd.
  { unfold createBlock. rewrite Hd. split; reflexivity. }
  rewrite (createBlock_unfold env rnd y s Hd). cbn.
  split; [|reflexivity]. rewrite dom_insert_L. apply union_subseteq_r.
Qed.

Lemma handler_invariant (s s' : Calendar) :
  Handler s s' ->
  WellFormed s -> refClosed (heap s) (editingBlock s) ->
  WellFormed s' /\ refClosed (heap s') (editingBlock s')
  /\ dom (heap s) ⊆ dom (heap s').
Proof.
  intros Hstep Hwf Hed. destruct Hstep.
  - destruct (createBlock_dom env rnd y s) as [Hdom He].
    repeat apply conj; [apply wf_createBlock, Hwf; apply Hwf..| |exact Hdom].
    rewrite He. now apply (refClosed_mono (heap s)).
  - unfold handleGridInteraction.
    destruct (_ || _); [repeat apply conj; [apply Hwf..|exact Hed|reflexivity]|].
    destruct (createBlock_dom env rnd (clientY p) s) as [Hdom He].
    repeat apply conj; [apply wf_createBlock, Hwf; apply Hwf..| |exact Hdom].
    rewrite He. now apply (refClosed_mono (heap s)).
  - assert (blocks (deleteBlock k s) = filter (fun b => id b ≠ k) (blocks s)
            /\ heap (deleteBlock k s) = heap s
            /\ (editingBlock (deleteBlock k s) = editingBlock s
                \/ editingBlock (deleteBlock k s) = None)) as (Hb & Hh & He).
    { unfold deleteBlock. destruct (editingBlock s) as [x|] eqn:E;
        [destruct (decide (id x = k))|]; cbn; auto. }
    destruct Hwf as [Hc Hd]. rewrite Hh. repeat apply conj.
    + intros b l. rewrite Hb, Hh. intros Hin.
      apply list_elem_of_filter in Hin as [_ Hin]. now apply Hc.
    + now rewrite Hh.
    + destruct He as [->| ->]; [exact Hed|apply refClosed_None].
    + reflexivity.
  - destruct (handleBlockInteractionStart_frame env (MouseDown p) b ty s)
      as (Hb & Hh & He).
    apply frame_invariant; try assumption.
    destruct He as [He|He]; [auto|right; right; eauto].
  - destruct (handleBlockInteractionStart_frame env (TouchStart t) b ty
                (setTouchMoveCount (setTouchStartTime s (now env)) 0))
      as (Hb & Hh & He).
    apply frame_invariant; try assumption.
    destruct He as [He|He]; [auto|right; right; eauto].
  - destruct (handleInteractionMove_frame env e s s' H) as [Hh _].
    repeat apply conj.
    + apply (wf_handleInteractionMove env e s s' Hwf H).
    + apply (wf_handleInteractionMove env e s s' Hwf H).
    + rewrite Hh, (handleInteractionMove_editing env e s s' H). exact Hed.
    + now rewrite Hh.
  - destruct (handleInteractionEnd_frame env touch s) as (Hb & Hh & He).
    apply frame_invariant; try assumption.
    destruct He as [He|He]; auto.
  - apply frame_invariant; auto.
  - destruct (removeMover_dom m s) as [Hdom He].
    repeat apply conj; [apply wf_removeMover, Hwf; apply Hwf..| |exact Hdom].
    rewrite He. now apply (refClosed_mono (heap s)).
  - apply frame_invariant; auto.
  - apply frame_invariant; auto.
Qed.

Lemma toggleMover_dom (m : string) (formState : TimeBlock)
    (h : gmap loc (list string)) :
  dom h ⊆ dom (snd (toggleMover m formState h))
  /\ refClosed (snd (toggleMover m formState h))
               (Some (fst (toggleMover m formState h))).
Proof.
  destruct (toggleMover_store m formState h) as (l & Hl & Hnew & Hold).
  split.
  - intros l' Hl'. apply elem_of_dom. destruct (decide (l' = l)) as [->|Hne].
    + rewrite Hnew. eauto.
    + rewrite Hold by assumption. now apply elem_of_dom.
  - intros x l' [= <-] Hx. rewrite Hl in Hx. injection Hx as <-.
    apply elem_of_dom. rewrite Hnew. eauto.
Qed.

Lemma handleClose_invariant (save : bool) (block formState : TimeBlock)
    (s : Calendar) :
  WellFormed s -> refClosed (heap s) (Some formState) ->
  WellFormed (handleClose save block formState s)
  /\ heap (handleClose save block formState s) = heap s
  /\ editingBlock (handleClose save block formState s) = None.
Proof.
  intros [Hc Hd] Hf. unfold handleClose.
  destruct save; cbn; repeat apply conj; try reflexivity; try assumption.
  intros b l Hb Hl. cbn in *.
  apply list_elem_of_fmap in Hb as (b0 & -> & Hb0).
  destruct (decide (id b0 = id block)); [eapply Hf|eapply Hc]; eauto.
Qed.

Lemma step_invariant (a a' : App) : Step a a' -> Invariant a -> Invariant a'.
Proof.
  intros Hstep (Hwf & Hed & Hdr). destruct Hstep; cbn [cal draft] in *.
  - destruct (handler_invariant s s' H Hwf Hed) as (Hwf' & Hed' & _).
    repeat apply conj; [apply Hwf'..|exact Hed'|exact Hed'].
  - destruct (handler_invariant s s' H Hwf Hed) as (Hwf' & Hed' & Hdom).
    repeat apply conj; [apply Hwf'..|exact Hed'|].
    now apply (refClosed_mono (heap s)).
  - repeat apply conj; [apply Hwf..|exact Hed|].
    intros x l [= <-] Hl. apply (Hdr formState l eq_refl).
    rewrite <- Hl. now destruct name.
  - destruct (toggleMover_dom m formState (heap s)) as [Hdom Hnew].
    destruct Hwf as [Hc Hd]. repeat apply conj; cbn.
    + intros b l Hb Hl. apply Hdom. eapply Hc; eauto.
    + now apply wf_toggleMover.
    + now apply (refClosed_mono (heap s)).
    + exact Hnew.
  - destruct (handleClose_invariant save block formState s Hwf Hdr)
      as (Hwf' & Hh & He).
    repeat apply conj; [apply Hwf'..| |apply refClosed_None].
    cbn [cal]. rewrite He. apply refClosed_None.
  - destruct (handler_invariant s _ (h_deleteBlock (id block) s) Hwf Hed)
      as (Hwf' & _ & Hdom).
    destruct (handleClose_invariant false block formState
                (deleteBlock (id block) s) Hwf')
      as (Hwf'' & Hh & He).
    { now apply (refClosed_mono (heap s)). }
    repeat apply conj; [apply Hwf''..| |apply refClosed_None].
    cbn [cal]. rewrite He. apply refClosed_None.
Qed.

Lemma reachable_invariant (a : App) : Reachable a -> Invariant a.
Proof.
  induction 1 as [today|a a' _ IH Hstep].
  - repeat apply conj; try apply wf_initial; apply refClosed_None.
  - now apply (step_invariant a a').
Qed.

Lemma handler_drag (s s' : Calendar) :
  Handler s s' -> DragOk s -> DragOk s'.
Proof.
  intros Hstep Hok. destruct Hstep.
  - unfold createBlock. destruct (isDraggingNow s); exact Hok.
  - unfold handleGridInteraction, createBlock.
    destruct (_ || _); [exact Hok|]. destruct (isDraggingNow s); exact Hok.
  - unfold deleteBlock. destruct (editingBlock s) as [x|];
      [destruct (decide (id x = k))|]; exact Hok.
  - destruct (interaction_start_drag env (MouseDown p) b ty s)
      as [Hsame|(d & Hd & Hty & _ & Hh)]; intros d' Hd'.
    + apply Hok. now rewrite <- Hsame.
    + unfold handleBlockMouseDown in Hd'. rewrite Hd in Hd'.
      injection Hd' as <-. intros Hr. apply Hh. congruence.
  - destruct (interaction_start_drag env (TouchStart t) b ty
                (setTouchMoveCount (setTouchStartTime s (now env)) 0))
      as [Hsame|(d & Hd & Hty & _ & Hh)]; intros d' Hd'.
    + apply Hok. unfold handleBlockTouchStart in Hd'.
      now rewrite Hsame in Hd'.
    + unfold handleBlockTouchStart in Hd'. rewrite Hd in Hd'.
      injection Hd' as <-. intros Hr. apply Hh. congruence.
  - intros d. rewrite (handleInteractionMove_drag env e s s' H). apply Hok.
  - intros d. unfold handleInteractionEnd. cbn. discriminate.
  - exact Hok.
  - unfold removeMover.
    destruct (mapStore (removeMoverBlock m) (blocks s) (heap s)). exact Hok.
  - exact Hok.
  - exact Hok.
Qed.

Lemma reachable_drag (a : App) : Reachable a -> DragOk (cal a).
Proof.
  induction 1 as [today|a a' _ IH Hstep].
  - intros d. discriminate.
  - destruct Hstep; cbn [cal] in *;
      try (eapply handler_drag; eassumption); try exact IH.
    + unfold handleClose. destruct save; exact IH.
    + unfold handleClose, deleteBlock.
      destruct (editingBlock s) as [x|];
        [destruct (decide (id x = id block))|]; exact IH.
Qed.

Lemma reachable_distinct (a : App) (b : TimeBlock) :
  Reachable a -> NoDup (moversOf (heap (cal a)) b).
Proof.
  intros Ha. destruct (reachable_invariant a Ha) as [[_ Hd] _].
  unfold moversOf, moversAt. destruct (assignedMovers b) as [l|];
    [|apply NoDup_nil_2].
  destruct (heap (cal a) !! l) eqn:E; cbn; [eauto|apply NoDup_nil_2].
Qed.

Lemma clamp_max_min (lo hi x : Z) :
  lo <= hi -> Z.max lo (Z.min hi x) = clamp lo hi x.
Proof.
  intros H. unfold clamp.
  destruct (Z.ltb_spec x lo), (Z.ltb_spec hi x); lia.
Qed.

(** The lane a move gives for a pointer [dx] whole pixels to the right of
    where the drag began. *)
Lemma newColumnOf_whole (d : DragState) (deltaX : Q) (dx : Z) :
  (deltaX == inject_Z dx)%Q ->
  newColumnOf d deltaX
  = clamp 0 (MAX_COLUMNS - 1)
      (default 0 (initialColumn d)
       + Js.round (inject_Z dx / inject_Z (BLOCK_WIDTH + COLUMN_GAP))).
Proof.
  intros Hdx. unfold newColumnOf. cbn zeta.
  rewrite clamp_max_min by (unfold MAX_COLUMNS; lia).
  f_equal. f_equal. apply round_comp. now rewrite Hdx.
Qed.

(** The same away from whole pixels: a pointer within 104 pixels of [k]
    lane widths moves the block by [k] lanes, and a pointer within 0.499
    pixels of [n] whole pixels asks for [snap(n)] minutes. *)
Lemma newColumnOf_near (d : DragState) (deltaX : Q) (k : Z) :
  (inject_Z (210 * k - 104) <= deltaX <= inject_Z (210 * k + 104))%Q ->
  newColumnOf d deltaX
  = clamp 0 (MAX_COLUMNS - 1) (default 0 (initialColumn d) + k).
Proof.
  intros [Hlo Hhi]. unfold newColumnOf. cbn zeta.
  rewrite clamp_max_min by (unfold MAX_COLUMNS; lia).
  f_equal. f_equal. apply round_near.
  change (inject_Z (BLOCK_WIDTH + COLUMN_GAP)) with (210 # 1)%Q.
  unfold Zminus in Hlo. rewrite inject_Z_plus, inject_Z_mult in Hlo, Hhi.
  change (inject_Z (- (104))) with (- (104 # 1))%Q in Hlo.
  change (inject_Z 210) with (210 # 1)%Q in Hlo, Hhi.
  change (inject_Z 104) with (104 # 1)%Q in Hhi.
  set (q := (deltaX / (210 # 1))%Q).
  assert (E : (deltaX == q * (210 # 1))%Q) by (unfold q; field).
  rewrite E in Hlo, Hhi. split; lra.
Qed.

Lemma newPrepMinutesOf_near (block : TimeBlock) (deltaY : Q) (n : Z) :
  (inject_Z n - (499 # 1000) <= deltaY <= inject_Z n + (499 # 1000))%Q ->
  newPrepMinutesOf block deltaY
  = clamp 0 (Js.getHours (start block) * 60 + Js.getMinutes (start block))
      (snapToGrid n).
Proof.
  intros Hn. unfold newPrepMinutesOf. cbn zeta.
  pose proof (getHours_range (start block)).
  pose proof (getMinutes_range (start block)).
  rewrite clamp_max_min by lia.
  now rewrite pixelsToMinutes_round, (round_near _ _ Hn).
Qed.

(** C7. In every reachable state every pointer event yields a state,
    whatever the pointer coordinates are, and an event that belongs to the
    drag is applied, not dropped: the dragged block takes the clamped
    value.  After a move its lane lies in [[0, MAX_COLUMNS)]; it is the
    lane at the start of the drag plus the lanes the pointer has moved,
    clamped to [[0, MAX_COLUMNS - 1]]: plus [round(dx / lane width)] for a
    pointer [dx] whole pixels from where the drag began, and plus [k] for
    any pointer within 104 pixels of [k] lane widths.  After a preparation
    drag the duration lies between 0 and the minutes since midnight of the
    block's start; it is [snap(n)] clamped to that range for any pointer
    within 0.499 pixels of [n] whole pixels from where the drag began. *)
Theorem drag_geometry_is_clamped (a : App) (env : Env) (e : Event) :
  Reachable a ->
  exists s',
    handleInteractionMove env e (cal a) = Some s'
    /\ forall d gridRect point block element,
         dragState (cal a) = Some d ->
         gridRef env = Some gridRect ->
         eventPoint e d = Some point ->
         findBlock (blockId d) (blocks (cal a)) = Some block ->
         blockRefs env (blockId d) = Some element ->
         exists block',
           findBlock (blockId d) (blocks s') = Some block'
           /\ (type d = move ->
               0 <= column block' < MAX_COLUMNS
               /\ (forall dx,
                     (clientX point - initialX d == inject_Z dx)%Q ->
                     column block'
                     = clamp 0 (MAX_COLUMNS - 1)
                         (default 0 (initialColumn d)
                          + Js.round (inject_Z dx
                                      / inject_Z (BLOCK_WIDTH + COLUMN_GAP))))
               /\ (forall k,
                     (inject_Z (210 * k - 104)
                      <= clientX point - initialX d
                      <= inject_Z (210 * k + 104))%Q ->
                     column block'
                     = clamp 0 (MAX_COLUMNS - 1)
                         (default 0 (initialColumn d) + k)))
           /\ (type d = prep ->
               let lead := Js.getHours (start block) * 60
                           + Js.getMinutes (start block) in
               start block' = start block
               /\ 0 <= prepDurationOf block' <= lead
               /\ forall n,
                    (inject_Z n - (499 # 1000)
                     <= clientY point - initialY d
                     <= inject_Z n + (499 # 1000))%Q ->
                    prepDurationOf block' = clamp 0 lead (snapToGrid n)).
Proof.
  intros Ha. pose proof (reachable_drag a Ha) as Hok.
  destruct (handleInteractionMove_total env e (cal a) Hok) as [s' Hs'].
  exists s'. split; [exact Hs'|].
  intros d gridRect point block element Hdrag Hgrid Hpoint Hblock Helement.
  destruct (type d) eqn:Hty.
  - pose proof (handleInteractionMove_move env e (cal a) d gridRect point
                  block element Hdrag Hgrid Hpoint Hblock Helement Hty) as Hm.
    rewrite Hs' in Hm. cbn in Hm. injection Hm as Hm. rewrite Hm.
    unfold moveBlocks. rewrite findBlock_map, Hblock
      by (intros b; now destruct (decide (id b = id block))).
    cbn [fmap option_fmap option_map]. rewrite decide_True by reflexivity.
    eexists. split; [reflexivity|]. split; [|discriminate].
    intros _. cbn [column with_times].
    split; [apply newColumnOf_range|]. split.
    + intros dx Hdx. now apply newColumnOf_whole.
    + intros k Hk. now apply newColumnOf_near.
  - destruct (Hok d Hdrag Hty) as [h Hh].
    pose proof (handleInteractionMove_resize env e (cal a) d gridRect point
                  block element Hdrag Hgrid Hpoint Hblock Helement h Hty Hh)
      as Hm.
    rewrite Hs' in Hm. cbn in Hm. injection Hm as Hm. rewrite Hm.
    unfold resizeBlocks. rewrite findBlock_map, Hblock
      by (intros b; now destruct (decide (id b = id block))).
    eexists. split; [reflexivity|]. split; discriminate.
  - pose proof (handleInteractionMove_prep env e (cal a) d gridRect point
                  block element Hdrag Hgrid Hpoint Hblock Helement Hty) as Hm.
    rewrite Hs' in Hm. cbn in Hm. injection Hm as Hm. rewrite Hm.
    unfold prepBlocks. rewrite findBlock_map, Hblock.
    2:{ intros b. destruct (decide (id b = id block)); [|reflexivity].
        now destruct (_ =? 0). }
    cbn [fmap option_fmap option_map]. rewrite decide_True by reflexivity.
    eexists. split; [reflexivity|]. split; [discriminate|].
    intros _.
    pose proof (newPrepMinutesOf_range block
                  (clientY point - initialY d)%Q) as Hr.
    assert (Hdur : forall b',
              b' = (if newPrepMinutesOf block
                         (clientY point - initialY d)%Q =? 0
                    then with_prepTime block None
                    else with_prepTime block
                           (Some (mkPrep
                                    (start block
                                     - newPrepMinutesOf block
                                         (clientY point - initialY d)%Q
                                       * 60000)
                                    (newPrepMinutesOf block
                                       (clientY point - initialY d)%Q)))) ->
              start b' = start block
              /\ prepDurationOf b'
                 = newPrepMinutesOf block (clientY point - initialY d)%Q).
    { intros b' ->.
      destruct (Z.eqb_spec (newPrepMinutesOf block
                              (clientY point - initialY d)%Q) 0) as [Hn|Hn];
        unfold prepDurationOf; cbn; [now rewrite Hn|].
      split; [reflexivity|].
      destruct (newPrepMinutesOf block (clientY point - initialY d)%Q);
        [contradiction|reflexivity..]. }
    destruct (Hdur _ eq_refl) as [Hstart Hd']. rewrite Hd'.
    repeat apply conj; [exact Hstart|apply Hr|apply Hr|].
    intros n Hn. now apply newPrepMinutesOf_near.
Qed.

(** C8. In every reachable state, removing a mover removes the mover's id
    from the [assignedMovers] of every block and changes no other
    attribute of any block; the roster keeps exactly the other movers. *)
Theorem removeMover_cascades (a : App) (m : string) :
  Reachable a ->
  let s := cal a in
  length (blocks (removeMover m s)) = length (blocks s)
  /\ (forall i b,
        blocks s !! i = Some b ->
        exists b',
          blocks (removeMover m s) !! i = Some b'
          /\ moversOf (heap (removeMover m s)) b'
             = filter (fun x => x ≠ m) (moversOf (heap s) b)
          /\ (m ∉ moversOf (heap (removeMover m s)) b')
          /\ id b' = id b /\ title b' = title b
          /\ description b' = description b /\ location b' = location b
          /\ start b' = start b /\ end_ b' = end_ b
          /\ column b' = column b /\ color b' = color b
          /\ prepTime b' = prepTime b)
  /\ (forall mv, (mv ∈ movers (removeMover m s))
                 <-> (mv ∈ movers s /\ mover_id mv <> m)).
Proof.
  intros Ha s. apply removeMover_spec.
  now destruct (reachable_invariant a Ha) as [[Hc _] _].
Qed.

(** C9. For the draft of every reachable state: toggling a mover id that
    the draft does not hold adds it; toggling one that it holds removes it;
    no other id is affected; toggling twice gives back the original
    membership. *)
Theorem toggleMover_is_involution (a : App) (formState : TimeBlock)
    (m : string) :
  Reachable a ->
  draft a = Some formState ->
  let h := heap (cal a) in
  let r1 := toggleMover m formState h in
  let r2 := toggleMover m (fst r1) (snd r1) in
  (m ∉ moversOf h formState -> m ∈ moversOf (snd r1) (fst r1))
  /\ (m ∈ moversOf h formState -> m ∉ moversOf (snd r1) (fst r1))
  /\ (forall x, x <> m ->
        (x ∈ moversOf (snd r1) (fst r1)) <-> (x ∈ moversOf h formState))
  /\ (forall x,
        (x ∈ moversOf (snd r2) (fst r2)) <-> (x ∈ moversOf h formState)).
Proof.
  intros Ha _ h r1 r2.
  destruct (toggleMover_spec m formState h (reachable_distinct a formState Ha))
    as (H1 & H2 & H3 & H4 & _).
  repeat apply conj; assumption.
Qed.

(** ** The sample states *)

Lemma sample_blocks :
  blocks Sample.twoClicks = [Sample.blockA; Sample.blockB]
  /\ blocks Sample.grabPrepared = [Sample.blockA; Sample.blockB30]
  /\ blocks Sample.oneClick = [Sample.blockA]
  /\ editingBlock Sample.editing = Some Sample.blockA
  /\ (moversOf (heap Sample.assigned) <$> blocks Sample.assigned)
     = [["1"; "2"]%string].
Proof. vm_compute. repeat split. Qed.

Lemma sample_reachable :
  Reachable (mkApp Sample.oneClick None)
  /\ Reachable (mkApp Sample.twoClicks None)
  /\ Reachable (mkApp Sample.fourClicks None)
  /\ Reachable (mkApp (Sample.grab move) None)
  /\ Reachable (mkApp Sample.editing (Some Sample.blockA))
  /\ Reachable (mkApp Sample.assigned None).
Proof.
  pose (click := fun rnd s =>
          step_handler s _ None
            (h_gridInteraction Sample.env rnd (mkPoint 300 640) s)).
  pose proof (reach_step _ _ (reach_initial 0)
                (click "a"%string (initialCalendar 0))) as R1.
  pose proof (reach_step _ _ R1 (click "b"%string _)) as R2.
  pose proof (reach_step _ _ R2 (click "c"%string _)) as R3.
  pose proof (reach_step _ _ R3 (click "d"%string _)) as R4.
  assert (HA : Sample.blockA ∈ blocks Sample.oneClick)
    by (vm_compute; apply list_elem_of_here).
  assert (HB : Sample.blockB ∈ blocks Sample.twoClicks)
    by (vm_compute; apply list_elem_of_further, list_elem_of_here).
  pose proof (reach_step _ _ R2
                (step_handler _ _ None
                   (h_mouseDown Sample.env (mkPoint 400 640) Sample.blockB
                      move Sample.twoClicks HB))) as R5.
  pose proof (reach_step _ _ R1
                (step_handler _ _ None
                   (h_mouseDown Sample.envTap (mkPoint 300 640) Sample.blockA
                      move Sample.oneClick HA))) as R6.
  pose proof (reach_step _ _ R6 (step_toggle "1" _ _)) as R7.
  pose proof (reach_step _ _ R7 (step_toggle "2" _ _)) as R8.
  repeat apply conj;
    [exact R1|exact R2|exact R4|exact R5|exact R6|].
  refine (reach_step _ _ R8 (step_close true _ Sample.blockA _ _)).
  vm_compute. reflexivity.
Qed.

(** ** The failing cases *)

(** C2, at the failing input.  The editor is opened on the only block,
    which has no mover; mover "1" is toggled in the draft; the editor is
    closed with "Cancel".  The block list still holds the same block, but
    its mover array, which the draft shares with it, now holds "1". *)
Theorem cancel_keeps_toggled_mover :
  let s := Sample.editing in
  let s' := editorSession [ToggleMover "1"] false s in
  Reachable (mkApp s (Some Sample.blockA))
  /\ editingBlock s = Some Sample.blockA
  /\ (moversOf (heap s) <$> blocks s) = [[]]
  /\ blocks s' = blocks s
  /\ (moversOf (heap s') <$> blocks s') = [["1"%string]].
Proof.
  split; [apply sample_reachable|]. vm_compute. repeat split.
Qed.

(** C1 fails on the code.  After four clicks at the offset of 9:00 the
    four lanes hold one block each; the fifth click puts a second block
    into lane 0 over the same hour.  After two clicks, dragging the second
    block 210 pixels to the left moves it onto the first block. *)
Lemma lane_overlap_counterexample :
  Reachable (mkApp Sample.fourClicks None)
  /\ Reachable (mkApp (Sample.grab move) None)
  /\ NoLaneOverlap (blocks Sample.fourClicks)
  /\ ~ NoLaneOverlap (blocks (Sample.click "e" Sample.fourClicks))
  /\ NoLaneOverlap (blocks (Sample.grab move))
  /\ exists s',
       handleInteractionMove Sample.env (MouseEv (mkPoint 190 640))
         (Sample.grab move) = Some s'
       /\ ~ NoLaneOverlap (blocks s').
Proof.
  repeat apply conj.
  - apply sample_reachable.
  - apply sample_reachable.
  - apply laneDisjoint_spec. vm_compute. reflexivity.
  - rewrite <- laneDisjoint_spec. vm_compute. discriminate.
  - apply laneDisjoint_spec. vm_compute. reflexivity.
  - eexists. split; [vm_compute; reflexivity|].
    rewrite <- laneDisjoint_spec. vm_compute. discriminate.
Qed.

(** ** Instances on the sample states *)




Lemma grid_click_never_refused_witness :
  exists b,
    blocks (handleGridInteraction Sample.env "e" (mkPoint 300 640)
              Sample.fourClicks)
    = blocks Sample.fourClicks ++ [b]
    /\ column b = 0.
Proof.
  assert (Hd : dragState Sample.fourClicks = None)
    by (vm_compute; reflexivity).
  assert (Hm : mouseDownRef Sample.fourClicks = false)
    by (vm_compute; reflexivity).
  destruct (grid_click_never_refused Sample.env "e" (mkPoint 300 640)
              Sample.fourClicks Hd Hm) as (b & Hb & _ & _ & Hfull).
  exists b. split; [exact Hb|]. apply Hfull.
  intros c Hc.
  assert (c = 0 \/ c = 1 \/ c = 2 \/ c = 3) as [->|[->|[->| ->]]]
    by (unfold MAX_COLUMNS in Hc; lia); vm_compute; reflexivity.
Defined.

Lemma lane_invariant_when_room_witness :
  NoLaneOverlap (blocks (snd (createBlock Sample.env "c" 640
                                Sample.twoClicks)))
  /\ exists s',
       handleInteractionMove Sample.env (MouseEv (mkPoint 610 640))
         (Sample.grab move) = Some s'
       /\ NoLaneOverlap (blocks s').
Proof.
  split.
  - assert (Hinv : NoLaneOverlap (blocks Sample.twoClicks))
      by (apply laneDisjoint_spec; vm_compute; reflexivity).
    apply (proj1 (lane_invariant_when_room Sample.env Sample.twoClicks Hinv)).
    exists 2. split; [unfold MAX_COLUMNS; lia|vm_compute; reflexivity].
  - assert (Hinv : NoLaneOverlap (blocks (Sample.grab move)))
      by (apply laneDisjoint_spec; vm_compute; reflexivity).
    eexists. split; [vm_compute; reflexivity|].
    eapply (proj2 (lane_invariant_when_room Sample.env (Sample.grab move)
                     Hinv) (MouseEv (mkPoint 610 640))).
    + vm_compute; reflexivity.
    + reflexivity.
    + refine (bool_decide_unpack _ _). vm_compute. exact I.
    + vm_compute; reflexivity.
    + vm_compute; reflexivity.
    + intros x Hx Hne. apply list_elem_of_In in Hx. vm_compute in Hx.
      destruct Hx as [<-|[<-|[]]]; [reflexivity|].
      exfalso. apply Hne. reflexivity.
Defined.

Lemma move_keeps_duration_and_prep_witness :
  exists s' block' p',
    handleInteractionMove Sample.env (MouseEv (mkPoint 610 700))
      Sample.grabPrepared = Some s'
    /\ findBlock "b" (blocks s') = Some block'
    /\ end_ block' - start block' = Js.MS_PER_HOUR
    /\ prepTime block' = Some p'
    /\ prep_duration p' = 30
    /\ prep_start p' + prep_duration p' * Js.MS_PER_MINUTE = start block'.
Proof.
  destruct (move_keeps_duration_and_prep Sample.env
              (MouseEv (mkPoint 610 700)) Sample.grabPrepared
              (mkDrag move "b" 400 640 (Some 1) None (Some 640%Q) None true
                      None)
              Sample.gridRect (mkPoint 610 700) Sample.blockB30
              (mkElement (mkRect 640 60) 60))
    as (s' & block' & Hs' & Hfind & Hdur & Hprep);
    try (vm_compute; reflexivity).
  cbn in Hprep. destruct Hprep as (p' & Hp' & Hd & He & _).
  exists s', block', p'.
  repeat apply conj; [exact Hs'|exact Hfind| |exact Hp'|exact Hd|exact He].
  rewrite Hdur. reflexivity.
Defined.

Lemma resize_changes_end_only_witness :
  exists s' block',
    handleInteractionMove Sample.env (MouseEv (mkPoint 400 700))
      (Sample.grab resize) = Some s'
    /\ findBlock "b" (blocks s') = Some block'
    /\ start block' = 9 * Js.MS_PER_HOUR
    /\ end_ block' - start block' = 120 * Js.MS_PER_MINUTE.
Proof.
  destruct (resize_changes_end_only Sample.env
              (MouseEv (mkPoint 400 700)) (Sample.grab resize)
              (mkDrag resize "b" 400 640 (Some 1) (Some 60%Q) None None true
                      None)
              Sample.gridRect (mkPoint 400 700) Sample.blockB
              (mkElement (mkRect 640 60) 60) 60)
    as (s' & block' & Hs' & Hfind & _ & Hstart & Hdur & _);
    try (vm_compute; reflexivity).
  exists s', block'. repeat apply conj; [exact Hs'|exact Hfind| |].
  - rewrite Hstart. reflexivity.
  - rewrite Hdur. vm_compute. reflexivity.
Defined.

Lemma prep_drag_sets_or_removes_witness :
  exists s' block' p,
    handleInteractionMove Sample.env (MouseEv (mkPoint 400 670))
      (Sample.grab prep) = Some s'
    /\ findBlock "b" (blocks s') = Some block'
    /\ prepTime block' = Some p
    /\ prep_duration p = 30.
Proof.
  destruct (prep_drag_sets_or_removes Sample.env
              (MouseEv (mkPoint 400 670)) (Sample.grab prep)
              (mkDrag prep "b" 400 640 (Some 1) None None (Some 0) true None)
              Sample.gridRect (mkPoint 400 670) Sample.blockB
              (mkElement (mkRect 640 60) 60))
    as (s' & block' & Hs' & Hfind & _ & _ & Hpos);
    try (vm_compute; reflexivity).
  destruct Hpos as (p & Hp & Hn & _); [vm_compute; reflexivity|].
  exists s', block', p. repeat apply conj;
    [exact Hs'|exact Hfind|exact Hp|].
  rewrite Hn. vm_compute. reflexivity.
Defined.

Lemma drag_geometry_is_clamped_witness :
  exists s' block',
    handleInteractionMove Sample.env (MouseEv (mkPoint 5000 (-900)))
      (Sample.grab move) = Some s'
    /\ findBlock "b" (blocks s') = Some block'
    /\ column block' = MAX_COLUMNS - 1.
Proof.
  assert (Ha : Reachable (mkApp (Sample.grab move) None))
    by apply sample_reachable.
  destruct (drag_geometry_is_clamped (mkApp (Sample.grab move) None)
              Sample.env (MouseEv (mkPoint 5000 (-900))) Ha)
    as (s' & Hs' & Hclamp).
  destruct (Hclamp (mkDrag move "b" 400 640 (Some 1) None (Some 640%Q) None
                           true None)
              Sample.gridRect (mkPoint 5000 (-900)) Sample.blockB
              (mkElement (mkRect 640 60) 60))
    as (block' & Hfind & Hcol & _); try (vm_compute; reflexivity).
  exists s', block'. repeat apply conj; [exact Hs'|exact Hfind|].
  destruct (Hcol eq_refl) as (_ & Hlane & _).
  rewrite (Hlane 4600) by (vm_compute; reflexivity).
  vm_compute. reflexivity.
Defined.

Lemma removeMover_cascades_witness :
  exists b',
    blocks (removeMover "1" Sample.assigned) !! 0%nat = Some b'
    /\ moversOf (heap (removeMover "1" Sample.assigned)) b' = ["2"%string].
Proof.
  assert (Ha : Reachable (mkApp Sample.assigned None)) by apply sample_reachable.
  destruct (removeMover_cascades (mkApp Sample.assigned None) "1" Ha)
    as (_ & Hblocks & _).
  destruct (Hblocks 0%nat
              (mkBlock "a" "New Block" 32400000 36000000 None None
                       "rgba(59, 130, 246, 0.9)" 0 None (Some 0%nat)))
    as (b' & Hb' & Hm & _); [vm_compute; reflexivity|].
  cbn [cal] in Hb', Hm.
  exists b'. split; [exact Hb'|]. rewrite Hm. vm_compute. reflexivity.
Defined.

Lemma toggleMover_is_involution_witness :
  "3"%string
  ∈ moversOf (snd (toggleMover "3" Sample.blockA (heap Sample.editing)))
             (fst (toggleMover "3" Sample.blockA (heap Sample.editing))).
Proof.
  assert (Ha : Reachable (mkApp Sample.editing (Some Sample.blockA)))
    by apply sample_reachable.
  apply (proj1 (toggleMover_is_involution
                  (mkApp Sample.editing (Some Sample.blockA)) Sample.blockA
                  "3" Ha eq_refl)).
  refine (bool_decide_unpack _ _). vm_compute. exact I.
Defined.

(** * Further properties of the calendar *)

(** ** Pixels, minutes and the snap grid *)

Lemma minutesToPixels_inject (m : Z) : (minutesToPixels m == inject_Z m)%Q.
Proof.
  unfold minutesToPixels.
  change (inject_Z MINUTES_IN_DAY) with (1440 # 1)%Q.
  change (inject_Z (24 * HOUR_HEIGHT)) with (1440 # 1)%Q.
  field.
Qed.

Lemma pixelsToMinutes_minutesToPixels (m : Z) :
  pixelsToMinutes (minutesToPixels m) = m.
Proof.
  rewrite pixelsToMinutes_round, (round_comp _ _ (minutesToPixels_inject m)).
  apply round_inject_Z.
Qed.

Lemma day_split (t : Js.Date) :
  0 <= t - Js.startOfDay t < Js.MS_PER_DAY.
Proof.
  unfold Js.startOfDay, Js.MS_PER_DAY.
  pose proof (Z.div_mod t 86400000 ltac:(lia)).
  pose proof (Z.mod_pos_bound t 86400000 ltac:(lia)). lia.
Qed.

(** The minutes since midnight that [getHours] and [getMinutes] give. *)
Lemma minutes_since_midnight (t : Js.Date) :
  Js.getHours t * 60 + Js.getMinutes t
  = (t - Js.startOfDay t) / Js.MS_PER_MINUTE.
Proof.
  unfold Js.getHours, Js.getMinutes, Js.startOfDay, Js.MS_PER_DAY,
    Js.MS_PER_HOUR, Js.MS_PER_MINUTE.
  pose proof (Z.div_mod t 86400000 ltac:(lia)) as Hd.
  pose proof (Z.mod_pos_bound t 86400000 ltac:(lia)) as Hr.
  set (q := t / 86400000) in *. set (r := t mod 86400000) in *.
  replace (t - q * 86400000) with r by lia.
  assert (Hm : t / 60000 = q * 1440 + r / 60000).
  { rewrite Hd. replace (86400000 * q + r) with (r + (q * 1440) * 60000) by lia.
    rewrite Z.div_add by lia. lia. }
  assert (Hh : t / 3600000 = q * 24 + r / 3600000).
  { rewrite Hd. replace (86400000 * q + r) with (r + (q * 24) * 3600000) by lia.
    rewrite Z.div_add by lia. lia. }
  rewrite Hm, Hh.
  replace (q * 1440 + r / 60000) with (r / 60000 + (q * 24) * 60) by lia.
  replace (q * 24 + r / 3600000) with (r / 3600000 + q * 24) by lia.
  rewrite !Z.mod_add by lia.
  assert (0 <= r / 3600000 < 24).
  { split; [apply Z.div_pos; lia|apply Z.div_lt_upper_bound; lia]. }
  rewrite (Z.mod_small (r / 3600000)) by lia.
  assert (Hrr : r / 3600000 = (r / 60000) / 60).
  { rewrite Z.div_div by lia. reflexivity. }
  rewrite Hrr.
  pose proof (Z.div_mod (r / 60000) 60 ltac:(lia)). lia.
Qed.

Lemma onGrid_minutes (t : Js.Date) :
  onGrid t ->
  exists k, 0 <= k
    /\ Js.getHours t * 60 + Js.getMinutes t = 15 * k
    /\ t = Js.startOfDay t + 15 * k * Js.MS_PER_MINUTE.
Proof.
  unfold onGrid, SNAP_MINUTES, Js.MS_PER_MINUTE. intros Hg.
  pose proof (day_split t) as Hd.
  pose proof (Z.div_mod (t - Js.startOfDay t) (15 * 60000) ltac:(lia)) as Hq.
  rewrite Hg in Hq.
  exists ((t - Js.startOfDay t) / (15 * 60000)).
  assert (0 <= (t - Js.startOfDay t) / (15 * 60000))
    by (apply Z.div_pos; lia).
  repeat apply conj; [assumption| |lia].
  rewrite minutes_since_midnight. unfold Js.MS_PER_MINUTE.
  set (k := (t - Js.startOfDay t) / (15 * 60000)) in *.
  replace (t - Js.startOfDay t) with ((15 * k) * 60000) by lia.
  apply Z.div_mul. lia.
Qed.

(** X1. The pixel mapping loses nothing on whole minutes, and the place
    where a block is drawn maps back to its start: for a block of the
    displayed day that starts on the snap grid, the time at its drawn top
    edge is its start time. *)
Theorem rendered_top_maps_back (env : Env) (s : Calendar) (rect : Rect)
    (block : TimeBlock) :
  gridRef env = Some rect ->
  toDateString (start block) = toDateString (currentDate s) ->
  onGrid (start block) ->
  pixelsToMinutes (style_top (blockStyle block))
  = Js.getHours (start block) * 60 + Js.getMinutes (start block)
  /\ getTimeFromPosition env s
       (rect_top rect + style_top (blockStyle block))%Q
     = start block.
Proof.
  intros Hg Hday Hgrid. split; [apply pixelsToMinutes_minutesToPixels|].
  destruct (onGrid_minutes _ Hgrid) as (k & Hk & Hm & Ht).
  unfold blockStyle. cbn [style_top]. rewrite Hm.
  pose proof (minutesToPixels_inject (15 * k)) as Hpx.
  assert (Hrel : (rect_top rect + minutesToPixels (15 * k) - rect_top rect
                  == inject_Z (15 * k))%Q) by (rewrite Hpx; ring).
  rewrite (getTimeFromPosition_grid env s rect _ Hg).
  - rewrite pixelsToMinutes_round, (round_comp _ _ Hrel), round_inject_Z.
    rewrite snapToGrid_grid. unfold toDateString in Hday.
    rewrite <- Hday. lia.
  - rewrite Hrel. change (inject_Z 0 <= inject_Z (15 * k))%Q.
    rewrite <- Zle_Qle. lia.
Qed.

(** X2. [snapToGrid] gives the multiple of [SNAP_MINUTES] nearest to its
    argument: the result is a multiple, it is at most 7 minutes away, and
    snapping again changes nothing. *)
Theorem snapToGrid_nearest (v : Z) :
  snapToGrid v mod SNAP_MINUTES = 0
  /\ v - 7 <= snapToGrid v <= v + 7
  /\ snapToGrid (snapToGrid v) = snapToGrid v.
Proof.
  repeat apply conj.
  - apply snapToGrid_multiple.
  - rewrite snapToGrid_div.
    pose proof (Z.div_mod (2 * v + 15) 30 ltac:(lia)).
    pose proof (Z.mod_pos_bound (2 * v + 15) 30 ltac:(lia)). lia.
  - rewrite snapToGrid_div.
    pose proof (Z.div_mod (2 * v + 15) 30 ltac:(lia)).
    pose proof (Z.mod_pos_bound (2 * v + 15) 30 ltac:(lia)). lia.
  - rewrite (snapToGrid_div v).
    replace ((2 * v + 15) / 30 * 15) with (15 * ((2 * v + 15) / 30)) by lia.
    apply snapToGrid_grid.
Qed.

(** ** Drags *)

(** X3. A move keeps the block's start on the snap grid of the displayed
    day, not before midnight and not after the snapped offset at which the
    block's element still fits into the grid. *)
Theorem move_stays_in_day (env : Env) (e : Event) (s : Calendar)
    (d : DragState) (gridRect : Rect) (point : Point) (block : TimeBlock)
    (element : Element) :
  dragState s = Some d ->
  gridRef env = Some gridRect ->
  eventPoint e d = Some point ->
  findBlock (blockId d) (blocks s) = Some block ->
  blockRefs env (blockId d) = Some element ->
  type d = move ->
  exists s' block' m,
    handleInteractionMove env e s = Some s'
    /\ findBlock (blockId d) (blocks s') = Some block'
    /\ start block' = Js.startOfDay (currentDate s) + m * Js.MS_PER_MINUTE
    /\ m mod SNAP_MINUTES = 0
    /\ 0 <= m
       <= snapToGrid
            (pixelsToMinutes
               (Js.maxQ 0 (rect_height gridRect
                           - inject_Z (offsetHeight element)))).
Proof.
  intros Hdrag Hgrid Hpoint Hblock Helement Hty.
  destruct (fmap_blocks_Some _ _
              (handleInteractionMove_move env e s d gridRect point block
                 element Hdrag Hgrid Hpoint Hblock Helement Hty))
    as (s' & Hs' & Hbs).
  set (newTop := newTopOf d gridRect element (clientY point - initialY d)).
  exists s'. eexists. exists (snapToGrid (pixelsToMinutes newTop)).
  split; [exact Hs'|]. rewrite Hbs.
  unfold moveBlocks. rewrite findBlock_map, Hblock
    by (intros b; now destruct (decide (id b = id block))).
  cbn [fmap option_fmap option_map]. rewrite decide_True by reflexivity.
  split; [reflexivity|]. cbn [start with_times].
  repeat apply conj.
  - apply move_start_on_grid. exact Hgrid.
  - apply snapToGrid_multiple.
  - apply snapToGrid_nonneg. rewrite pixelsToMinutes_round.
    rewrite <- (round_inject_Z 0). apply round_mono. apply newTopOf_nonneg.
  - apply snapToGrid_mono, pixelsToMinutes_mono.
    unfold newTop, newTopOf, Js.maxQ, Js.minQ.
    apply Q.max_le_compat_l, Q.le_min_r.
Qed.

(** X4. A pointer event of a drag changes nothing but the blocks that
    carry the dragged id: the store, the roster, the date, the editor and
    the drag state stay as they are, no block is added, removed or
    reordered, and every block with another id is left untouched. *)
Theorem drag_changes_dragged_block_only (env : Env) (e : Event)
    (s s' : Calendar) :
  handleInteractionMove env e s = Some s' ->
  heap s' = heap s /\ movers s' = movers s
  /\ currentDate s' = currentDate s
  /\ editingBlock s' = editingBlock s /\ dragState s' = dragState s
  /\ map id (blocks s') = map id (blocks s)
  /\ forall i b, blocks s !! i = Some b ->
       (forall d, dragState s = Some d -> id b <> blockId d) ->
       blocks s' !! i = Some b.
Proof.
  unfold handleInteractionMove.
  destruct (dragState s) as [d|] eqn:Hdrag;
    [|intros [= <-]; repeat apply conj; auto].
  destruct (gridRef env); [|intros [= <-]; repeat apply conj; auto].
  destruct (eventPoint e d); [|intros [= <-]; repeat apply conj; auto].
  destruct (findBlock (blockId d) (blocks s)) as [block|] eqn:Hb;
    [|intros [= <-]; repeat apply conj; auto].
  destruct (findBlock_id _ _ _ Hb) as [Hid _].
  destruct (blockRefs env (blockId d));
    [|intros [= <-]; repeat apply conj; auto].
  destruct (type d); [| destruct (initialHeight d); [|discriminate] |];
    destruct (isTouch e); intros [= <-];
    cbn [heap movers currentDate editingBlock dragState blocks setBlocks
         setTouchMoveCount];
    (repeat apply conj; try reflexivity; try assumption;
     [ unfold moveBlocks, resizeBlocks, prepBlocks;
       rewrite map_map; apply map_ext; intros b;
       destruct (decide (id b = id block)); try reflexivity;
       now destruct (_ =? 0)
     | intros i b Hi Hne;
       unfold moveBlocks, resizeBlocks, prepBlocks;
       rewrite list_lookup_fmap, Hi; cbn;
       rewrite decide_False by (rewrite Hid; now apply Hne);
       reflexivity ]).
Qed.

(** ** Deleting a block *)

Lemma laneDisjoint_filter (P : TimeBlock -> Prop) `{!forall b, Decision (P b)}
    (bs : list TimeBlock) :
  laneDisjoint bs = true -> laneDisjoint (filter P bs) = true.
Proof.
  induction bs as [|b rest IH]; [reflexivity|].
  cbn [laneDisjoint]. rewrite andb_true_iff. intros [Hb Hrest].
  rewrite filter_cons. destruct (decide (P b)); [|auto].
  cbn [laneDisjoint]. rewrite andb_true_iff. split; [|auto].
  rewrite forallb_forall in *. intros x Hx. apply Hb.
  apply list_elem_of_In. apply list_elem_of_In in Hx.
  now apply list_elem_of_filter in Hx as [_ Hx].
Qed.

Lemma filter_twice {A} (P : A -> Prop) `{!forall x, Decision (P x)}
    (l : list A) :
  filter P (filter P l) = filter P l.
Proof.
  induction l as [|x l IH]; [reflexivity|].
  rewrite filter_cons. destruct (decide (P x)) as [Hx|Hx]; [|exact IH].
  rewrite filter_cons, decide_True by exact Hx. now rewrite IH.
Qed.

(** X5. Deleting removes exactly the blocks that carry the id and keeps
    the others in their order; the store and the roster stay as they are;
    the editor is closed when it was open on that id and is left alone
    otherwise; lanes that were free of overlap stay so; deleting the same
    id again changes nothing. *)
Theorem deleteBlock_removes_by_id (k : string) (s : Calendar) :
  blocks (deleteBlock k s) = filter (fun b => id b ≠ k) (blocks s)
  /\ heap (deleteBlock k s) = heap s
  /\ movers (deleteBlock k s) = movers s
  /\ editingBlock (deleteBlock k s)
     = match editingBlock s with
       | Some e => if decide (id e = k) then None else Some e
       | None => None
       end
  /\ (NoLaneOverlap (blocks s) -> NoLaneOverlap (blocks (deleteBlock k s)))
  /\ deleteBlock k (deleteBlock k s) = deleteBlock k s.
Proof.
  assert (Hb : blocks (deleteBlock k s)
               = filter (fun b => id b ≠ k) (blocks s)).
  { unfold deleteBlock. destruct (editingBlock s) as [e|];
      [destruct (decide (id e = k))|]; reflexivity. }
  repeat apply conj.
  - exact Hb.
  - unfold deleteBlock. destruct (editingBlock s) as [e|];
      [destruct (decide (id e = k))|]; reflexivity.
  - unfold deleteBlock. destruct (editingBlock s) as [e|];
      [destruct (decide (id e = k))|]; reflexivity.
  - unfold deleteBlock. destruct (editingBlock s) as [e|] eqn:E;
      [destruct (decide (id e = k))|]; cbn; try reflexivity; exact E.
  - rewrite Hb, <- !laneDisjoint_spec. apply laneDisjoint_filter.
  - unfold deleteBlock at 1 3. rewrite Hb. cbn [blocks setBlocks].
    unfold deleteBlock. rewrite filter_twice.
    destruct (editingBlock s) as [e|] eqn:E.
    + destruct (decide (id e = k)) as [Hk|Hk]; cbn.
      * reflexivity.
      * rewrite E. rewrite decide_False by exact Hk. reflexivity.
    + cbn. rewrite E. reflexivity.
Qed.

(** ** Pressing and releasing a block *)

Lemma interaction_start_fields (env : Env) (e : StartEvent) (b : TimeBlock)
    (ty : DragType) (s : Calendar) :
  blocks (handleBlockInteractionStart env e b ty s) = blocks s
  /\ heap (handleBlockInteractionStart env e b ty s) = heap s
  /\ movers (handleBlockInteractionStart env e b ty s) = movers s
  /\ mouseDownRef (handleBlockInteractionStart env e b ty s) = true.
Proof.
  unfold handleBlockInteractionStart.
  destruct (blockRefs env (id b)); [|cbn; auto].
  destruct ty; try destruct (_ <? 300); cbn; auto.
Qed.

(** X6. A press on a block or on its bottom handle at least 300 ms after
    the last recorded tap starts a drag; after the release, a second press
    within 300 ms of the first, on any rendered block, opens the editor on
    that block and starts no drag.  The top (preparation) handle never
    opens the editor: pressed as the second press it starts a drag. *)
Theorem double_press_opens_editor (env1 envE env2 : Env) (p1 p2 : Point)
    (b1 b2 : TimeBlock) (ty1 ty2 : DragType) (el1 el2 : Element)
    (s : Calendar) :
  ty1 <> prep ->
  blockRefs env1 (id b1) = Some el1 ->
  blockRefs env2 (id b2) = Some el2 ->
  300 <= now env1 - lastTapTime s ->
  now env2 - now env1 < 300 ->
  let s1 := handleBlockMouseDown env1 p1 b1 ty1 s in
  let s2 := handleInteractionEnd envE false s1 in
  let s3 := handleBlockMouseDown env2 p2 b2 ty2 s2 in
  (exists d, dragState s1 = Some d /\ blockId d = id b1 /\ type d = ty1
             /\ isDragging d = true /\ initialColumn d = Some (column b1))
  /\ editingBlock s1 = editingBlock s
  /\ dragState s2 = None /\ editingBlock s2 = editingBlock s
  /\ (ty2 <> prep -> editingBlock s3 = Some b2 /\ dragState s3 = None)
  /\ (ty2 = prep ->
      editingBlock s3 = editingBlock s
      /\ exists d, dragState s3 = Some d /\ blockId d = id b2
                   /\ type d = prep)
  /\ blocks s3 = blocks s.
Proof.
  intros Hty1 Hel1 Hel2 Hfirst Hsecond s1 s2 s3.
  assert (Hs1 : dragState s1
                = Some (mkDrag ty1 (id b1) (clientX p1) (clientY p1)
                          (Some (column b1))
                          (match ty1 with
                           | resize => Some (rect_height (elem_rect el1))
                           | _ => None end)
                          (match ty1 with
                           | move => Some (rect_top (elem_rect el1))
                           | _ => None end)
                          None true None)
                /\ editingBlock s1 = editingBlock s
                /\ lastTapTime s1 = now env1 /\ blocks s1 = blocks s).
  { unfold s1, handleBlockMouseDown, handleBlockInteractionStart.
    rewrite Hel1. cbn [lastTapTime setMouseDown].
    destruct (Z.ltb_spec (now env1 - lastTapTime s) 300); [lia|].
    destruct ty1; [| |contradiction]; cbn; auto. }
  destruct Hs1 as (Hd1 & He1 & Ht1 & Hb1).
  assert (Hs2 : dragState s2 = None /\ editingBlock s2 = editingBlock s1
                /\ lastTapTime s2 = lastTapTime s1 /\ blocks s2 = blocks s1).
  { unfold s2, handleInteractionEnd. cbn. auto. }
  destruct Hs2 as (Hd2 & He2 & Ht2 & Hb2).
  repeat apply conj.
  - eexists. split; [exact Hd1|]. cbn. auto.
  - exact He1.
  - exact Hd2.
  - congruence.
  - intros Hty2. unfold s3, handleBlockMouseDown, handleBlockInteractionStart.
    rewrite Hel2. cbn [lastTapTime setMouseDown]. rewrite Ht2, Ht1.
    destruct (Z.ltb_spec (now env2 - now env1) 300); [|lia].
    destruct ty2; [| |contradiction]; cbn; auto.
  - intros ->. unfold s3, handleBlockMouseDown, handleBlockInteractionStart.
    rewrite Hel2. cbn. split; [congruence|]. eexists. cbn. auto.
  - unfold s3, handleBlockMouseDown.
    destruct (interaction_start_fields env2 (MouseDown p2) b2 ty2 s2)
      as (Hb3 & _). congruence.
Qed.

(** X7. The click that follows a press on a block.  Right after the press,
    and right after the release that follows it, a click on the grid
    creates nothing; once the 50 ms timer of that release has run, a click
    on the grid adds one block.  The press does not cancel a timer left by
    an earlier release: when such a timer runs between the press and the
    release, the click right after the release adds a block. *)
Theorem click_after_press (env envE envC : Env)
    (e : StartEvent) (b : TimeBlock) (ty : DragType) (touch : bool)
    (rnd : string) (pt : Point) (s : Calendar) :
  let s1 := handleBlockInteractionStart env e b ty s in
  let s2 := handleInteractionEnd envE touch s1 in
  let stale := handleInteractionEnd envE touch (mouseUpTimeout s1) in
  handleGridInteraction envC rnd pt s1 = s1
  /\ handleGridInteraction envC rnd pt s2 = s2
  /\ (exists b',
        blocks (handleGridInteraction envC rnd pt (mouseUpTimeout s2))
        = blocks s ++ [b'])
  /\ (exists b',
        blocks (handleGridInteraction envC rnd pt stale) = blocks s ++ [b']).
Proof.
  intros s1 s2 stale.
  destruct (interaction_start_fields env e b ty s) as (Hb1 & _ & _ & Hm1).
  fold s1 in Hb1, Hm1.
  destruct (handleInteractionEnd_frame envE touch s1) as (Hb2 & _ & _).
  fold s2 in Hb2.
  assert (Hend : forall s0,
            mouseDownRef (handleInteractionEnd envE touch s0)
            = mouseDownRef s0).
  { intros s0. unfold handleInteractionEnd.
    destruct (touch && _ && _); [|reflexivity].
    destruct (dragState s0) as [d|]; [|reflexivity].
    destruct (findBlock (blockId d) (blocks s0)); reflexivity. }
  assert (Hm2 : mouseDownRef s2 = true) by (unfold s2; now rewrite Hend).
  assert (Hcreate : forall s0,
            dragState s0 = None -> mouseDownRef s0 = false ->
            blocks s0 = blocks s ->
            exists b',
              blocks (handleGridInteraction envC rnd pt s0)
              = blocks s ++ [b']).
  { intros s0 Hd0 Hm0 Hb0. unfold handleGridInteraction.
    rewrite Hd0, Hm0.
    rewrite bool_decide_eq_false_2 by (intros [? ?]; discriminate).
    cbn [orb].
    rewrite (createBlock_unfold envC rnd (clientY pt) s0)
      by (unfold isDraggingNow; now rewrite Hd0).
    eexists. cbn [snd blocks setBlocks]. rewrite Hb0. reflexivity. }
  repeat apply conj.
  - unfold handleGridInteraction. rewrite Hm1. now rewrite orb_true_r.
  - unfold handleGridInteraction. rewrite Hm2. now rewrite orb_true_r.
  - apply Hcreate; [reflexivity|reflexivity|].
    cbn [blocks mouseUpTimeout setMouseDown]. now rewrite Hb2.
  - apply Hcreate.
    + reflexivity.
    + unfold stale. rewrite Hend. reflexivity.
    + unfold stale.
      destruct (handleInteractionEnd_frame envE touch (mouseUpTimeout s1))
        as (Hb3 & _ & _).
      rewrite Hb3. cbn [blocks mouseUpTimeout setMouseDown]. exact Hb1.
Qed.

(** ** Days and minutes *)

(** [m] minutes after the midnight of [t0]: the day and the minute of the
    day. *)
Lemma day_offset (t0 : Js.Date) (m : Z) :
  Js.startOfDay (Js.startOfDay t0 + m * Js.MS_PER_MINUTE)
  = Js.startOfDay t0 + (m / 1440) * Js.MS_PER_DAY
  /\ Js.getHours (Js.startOfDay t0 + m * Js.MS_PER_MINUTE) * 60
     + Js.getMinutes (Js.startOfDay t0 + m * Js.MS_PER_MINUTE)
     = m mod 1440.
Proof.
  assert (Hsod : Js.startOfDay (Js.startOfDay t0 + m * Js.MS_PER_MINUTE)
                 = Js.startOfDay t0 + (m / 1440) * Js.MS_PER_DAY).
  { unfold Js.startOfDay, Js.MS_PER_DAY, Js.MS_PER_MINUTE.
    set (q := t0 / 86400000).
    replace (q * 86400000 + m * 60000) with (m * 60000 + q * 86400000) by lia.
    rewrite Z.div_add by lia.
    replace 86400000 with (1440 * 60000) at 1 by lia.
    rewrite Z.div_mul_cancel_r by lia. lia. }
  split; [exact Hsod|].
  rewrite minutes_since_midnight, Hsod.
  unfold Js.MS_PER_DAY, Js.MS_PER_MINUTE.
  pose proof (Z.div_mod m 1440 ltac:(lia)).
  replace (Js.startOfDay t0 + m * 60000
           - (Js.startOfDay t0 + m / 1440 * 86400000))
    with ((m mod 1440) * 60000) by lia.
  apply Z.div_mul. lia.
Qed.

Lemma startOfDay_idem (t : Js.Date) :
  Js.startOfDay (Js.startOfDay t) = Js.startOfDay t.
Proof.
  unfold Js.startOfDay, Js.MS_PER_DAY. rewrite Z.div_mul by lia. reflexivity.
Qed.

(** A minute-aligned time is its day's midnight plus its minute of the
    day. *)
Lemma minute_aligned (t : Js.Date) :
  t mod Js.MS_PER_MINUTE = 0 ->
  t = Js.startOfDay t
      + (Js.getHours t * 60 + Js.getMinutes t) * Js.MS_PER_MINUTE
  /\ 0 <= Js.getHours t * 60 + Js.getMinutes t < 1440.
Proof.
  intros Ht. rewrite minutes_since_midnight.
  pose proof (day_split t) as Hd.
  assert (Hm : (t - Js.startOfDay t) mod Js.MS_PER_MINUTE = 0).
  { unfold Js.startOfDay, Js.MS_PER_DAY, Js.MS_PER_MINUTE in *.
    replace (t - t / 86400000 * 86400000)
      with (t + (- (t / 86400000) * 1440) * 60000) by lia.
    rewrite Z.mod_add by lia. exact Ht. }
  unfold Js.MS_PER_MINUTE, Js.MS_PER_DAY in *.
  pose proof (Z.div_mod (t - Js.startOfDay t) 60000 ltac:(lia)) as Hq.
  rewrite Hm in Hq. split; [lia|].
  split; [apply Z.div_pos; lia|apply Z.div_lt_upper_bound; lia].
Qed.

(** X8. Resizing a block that is drawn at its own height: when the block
    lies within one day, lasts a multiple [D] of 15 minutes and the pointer
    has moved [15 k] pixels down from where it grabbed the handle, the new
    duration is [D + 15 k] minutes, floored at 15.  One [HOUR_HEIGHT] down
    adds 60 minutes; no movement changes nothing. *)
Theorem resize_rendered_block (env : Env) (e : Event) (s : Calendar)
    (d : DragState) (gridRect : Rect) (point : Point) (block : TimeBlock)
    (element : Element) (h : Q) (D k : Z) :
  dragState s = Some d ->
  gridRef env = Some gridRect ->
  eventPoint e d = Some point ->
  findBlock (blockId d) (blocks s) = Some block ->
  blockRefs env (blockId d) = Some element ->
  type d = resize ->
  initialHeight d = Some h ->
  (h == style_height (blockStyle block))%Q ->
  WithinOneDay block ->
  end_ block = start block + D * Js.MS_PER_MINUTE ->
  D mod SNAP_MINUTES = 0 ->
  (clientY point - initialY d == inject_Z (15 * k))%Q ->
  exists s' block',
    handleInteractionMove env e s = Some s'
    /\ findBlock (blockId d) (blocks s') = Some block'
    /\ start block' = start block
    /\ end_ block' = start block
                     + Z.max SNAP_MINUTES (D + 15 * k) * Js.MS_PER_MINUTE.
Proof.
  intros Hdrag Hgrid Hpoint Hblock Helement Hty Hh Hheight (Hday & Hs & He)
         Hend HD Hdelta.
  destruct (fmap_blocks_Some _ _
              (handleInteractionMove_resize env e s d gridRect point block
                 element Hdrag Hgrid Hpoint Hblock Helement _ Hty Hh))
    as (s' & Hs' & Hbs).
  exists s'. eexists. split; [exact Hs'|]. rewrite Hbs.
  unfold resizeBlocks. rewrite findBlock_map, Hblock
    by (intros b; now destruct (decide (id b = id block))).
  cbn [fmap option_fmap option_map]. rewrite decide_True by reflexivity.
  split; [reflexivity|]. cbn [start end_ with_end].
  split; [reflexivity|].
  rewrite setMinutes_add, resize_floor. do 2 f_equal. f_equal.
  (* the drawn height is [D] pixels *)
  destruct (minute_aligned _ Hs) as [Hs1 Hs2].
  destruct (minute_aligned _ He) as [He1 He2].
  unfold toDateString in Hday.
  assert (Hdur : Js.getHours (end_ block) * 60 + Js.getMinutes (end_ block)
                 - (Js.getHours (start block) * 60
                    + Js.getMinutes (start block)) = D).
  { unfold Js.MS_PER_MINUTE in *. lia. }
  unfold blockStyle in Hheight. cbn [style_height] in Hheight.
  rewrite Hdur in Hheight.
  rewrite pixelsToMinutes_round.
  rewrite (round_comp _ (inject_Z (D + 15 * k))).
  2:{ rewrite Hheight, (minutesToPixels_inject D), Hdelta, inject_Z_plus.
      reflexivity. }
  rewrite round_inject_Z.
  unfold SNAP_MINUTES in HD.
  pose proof (Z.div_mod D 15 ltac:(lia)) as Hq. rewrite HD in Hq.
  replace (D + 15 * k) with (15 * (D / 15 + k)) by lia.
  apply snapToGrid_grid.
Qed.

Lemma startOfDay_between (t u : Js.Date) :
  Js.startOfDay t <= u <= t -> Js.startOfDay u = Js.startOfDay t.
Proof.
  intros Hu. pose proof (day_split t) as Hd.
  unfold Js.startOfDay, Js.MS_PER_DAY in *. f_equal.
  symmetry. apply Z.div_unique with (r := u - t / 86400000 * 86400000); lia.
Qed.

(** X9. A preparation time set by a drag lies within the day of its block:
    it starts on the block's calendar day, not before that day's midnight,
    and before the block. *)
Theorem prep_stays_in_day (env : Env) (e : Event) (s : Calendar)
    (d : DragState) (gridRect : Rect) (point : Point) (block : TimeBlock)
    (element : Element) :
  dragState s = Some d ->
  gridRef env = Some gridRect ->
  eventPoint e d = Some point ->
  findBlock (blockId d) (blocks s) = Some block ->
  blockRefs env (blockId d) = Some element ->
  type d = prep ->
  exists s' block',
    handleInteractionMove env e s = Some s'
    /\ findBlock (blockId d) (blocks s') = Some block'
    /\ forall p, prepTime block' = Some p ->
         Js.startOfDay (start block') <= prep_start p < start block'
         /\ toDateString (prep_start p) = toDateString (start block').
Proof.
  intros Hdrag Hgrid Hpoint Hblock Helement Hty.
  destruct (fmap_blocks_Some _ _
              (handleInteractionMove_prep env e s d gridRect point block
                 element Hdrag Hgrid Hpoint Hblock Helement Hty))
    as (s' & Hs' & Hbs).
  exists s'. eexists. split; [exact Hs'|]. rewrite Hbs.
  unfold prepBlocks. rewrite findBlock_map, Hblock.
  2:{ intros b. destruct (decide (id b = id block)); [|reflexivity].
      now destruct (_ =? 0). }
  cbn [fmap option_fmap option_map]. rewrite decide_True by reflexivity.
  split; [reflexivity|].
  set (n := newPrepMinutesOf block (clientY point - initialY d)).
  pose proof (newPrepMinutesOf_range block (clientY point - initialY d))
    as Hn. fold n in Hn.
  destruct (Z.eqb_spec n 0) as [Hz|Hz]; cbn; [discriminate|].
  intros p [= <-]. cbn.
  rewrite minutes_since_midnight in Hn.
  pose proof (day_split (start block)) as Hd.
  assert (Hle : n * 60000 <= start block - Js.startOfDay (start block)).
  { unfold Js.MS_PER_MINUTE in Hn.
    pose proof (Z.div_mod (start block - Js.startOfDay (start block)) 60000
                  ltac:(lia)).
    pose proof (Z.mod_pos_bound
                  (start block - Js.startOfDay (start block)) 60000
                  ltac:(lia)). nia. }
  assert (Hin : Js.startOfDay (start block) <= start block - n * 60000
                <= start block) by lia.
  split; [lia|]. unfold toDateString. now apply startOfDay_between.
Qed.

(** ** What is drawn *)

(** X10. For two blocks of one day that start and end on whole minutes of
    that day, the boxes drawn for them share a point of the grid exactly
    when the blocks are in one lane and their [[start, end)] intervals
    intersect.  Lanes that are free of overlap are thus drawn without
    overlap. *)
Theorem drawn_boxes_intersect_iff (a b : TimeBlock) :
  WithinOneDay a -> WithinOneDay b ->
  toDateString (start a) = toDateString (start b) ->
  stylesIntersect (blockStyle a) (blockStyle b) <-> overlapping a b = true.
Proof.
  intros (Hda & Hsa & Hea) (Hdb & Hsb & Heb) Hday.
  destruct (minute_aligned _ Hsa) as [Ha1 _].
  destruct (minute_aligned _ Hea) as [Ha2 _].
  destruct (minute_aligned _ Hsb) as [Hb1 _].
  destruct (minute_aligned _ Heb) as [Hb2 _].
  unfold toDateString in *.
  set (sa := Js.getHours (start a) * 60 + Js.getMinutes (start a)) in *.
  set (ea := Js.getHours (end_ a) * 60 + Js.getMinutes (end_ a)) in *.
  set (sb := Js.getHours (start b) * 60 + Js.getMinutes (start b)) in *.
  set (eb := Js.getHours (end_ b) * 60 + Js.getMinutes (end_ b)) in *.
  unfold stylesIntersect, blockStyle, overlapping.
  cbn [style_top style_left style_height style_width].
  fold sa ea sb eb.
  rewrite !minutesToPixels_inject, <- !inject_Z_plus, <- !Zlt_Qlt.
  rewrite !andb_true_iff, Z.eqb_eq, !Z.ltb_lt.
  unfold TIME_COLUMN_WIDTH, BLOCK_WIDTH, COLUMN_GAP, Js.MS_PER_MINUTE in *.
  lia.
Qed.

(** X11. A grid click in the last hour of the grid gives a block of the
    displayed day whose end falls on the next day, and the height computed
    for it is negative (-1380 pixels); any earlier click gives a block that
    is drawn 60 pixels high. *)
Theorem late_block_drawn_height (env : Env) (rnd : string) (y : Q)
    (s : Calendar) (rect : Rect) :
  gridRef env = Some rect ->
  isDraggingNow s = false ->
  (0 <= y - rect_top rect)%Q ->
  snapToGrid (pixelsToMinutes (y - rect_top rect)) < 1440 ->
  exists b,
    fst (createBlock env rnd y s) = Some b
    /\ b ∈ visibleBlocks (snd (createBlock env rnd y s))
    /\ (style_height (blockStyle b)
        == if snapToGrid (pixelsToMinutes (y - rect_top rect)) <? 1380
           then 60 else -1380)%Q.
Proof.
  intros Hg Hd Hy Hm.
  set (m := snapToGrid (pixelsToMinutes (y - rect_top rect))) in *.
  assert (Hm0 : 0 <= m).
  { apply snapToGrid_nonneg. rewrite pixelsToMinutes_round.
    rewrite <- (round_inject_Z 0). now apply round_mono. }
  rewrite (createBlock_unfold env rnd y s Hd). cbn zeta.
  rewrite (getTimeFromPosition_grid env s rect y Hg Hy). fold m.
  eexists. split; [reflexivity|].
  destruct (day_offset (currentDate s) m) as [Hsod Hmin].
  rewrite (Z.div_small m 1440) in Hsod by lia.
  rewrite (Z.mod_small m 1440) in Hmin by lia.
  split.
  - unfold visibleBlocks. cbn [snd blocks setBlocks setHeap currentDate].
    apply list_elem_of_filter. split.
    + cbn [start]. unfold toDateString. rewrite Hsod. lia.
    + apply elem_of_app. right. apply list_elem_of_here.
  - unfold blockStyle. cbn [style_height start end_].
    rewrite Hmin, minutesToPixels_inject.
    replace (Js.startOfDay (currentDate s) + m * Js.MS_PER_MINUTE
             + Js.MS_PER_HOUR)
      with (Js.startOfDay (currentDate s) + (m + 60) * Js.MS_PER_MINUTE)
      by (unfold Js.MS_PER_HOUR, Js.MS_PER_MINUTE; lia).
    destruct (day_offset (currentDate s) (m + 60)) as [_ Hmin'].
    rewrite Hmin'.
    destruct (Z.ltb_spec m 1380).
    + rewrite (Z.mod_small (m + 60) 1440) by lia.
      replace (m + 60 - m) with 60 by lia. reflexivity.
    + replace ((m + 60) mod 1440) with (m + 60 - 1440).
      * replace (m + 60 - 1440 - m) with (-1380) by lia. reflexivity.
      * apply Z.mod_unique with (q := 1); lia.
Qed.

(** ** Well-formed blocks in every reachable state *)

Lemma BlockOk_with_assignedMovers (b : TimeBlock) (r : option loc) :
  BlockOk b -> BlockOk (with_assignedMovers b r).
Proof. intros H. exact H. Qed.

Lemma BlockOk_handleInputChange (name : FieldName) (value : string)
    (b : TimeBlock) :
  BlockOk b -> BlockOk (handleInputChange name value b).
Proof. intros H. destruct name; exact H. Qed.

Lemma BlockOk_moveBlocks (block : TimeBlock) (st : Js.Date) (col : Z)
    (prev : list TimeBlock) :
  BlockOk block -> 0 <= col < MAX_COLUMNS ->
  Forall BlockOk prev ->
  Forall BlockOk (moveBlocks block st (end_ block - start block) col prev).
Proof.
  intros (Hse & _ & _) Hcol Hprev. unfold moveBlocks.
  apply Forall_fmap. eapply Forall_impl; [exact Hprev|].
  intros b Hb. pose proof Hb as (Hb1 & Hb2 & Hb3). cbn.
  destruct (decide (id b = id block)); [|exact Hb].
  repeat apply conj; cbn; try lia.
  intros p. destruct (prepTime b) as [q|]; [|discriminate].
  intros [= <-]. cbn. destruct (Hb3 q eq_refl) as [Hq _].
  unfold Js.MS_PER_MINUTE. lia.
Qed.

Lemma BlockOk_resizeBlocks (block : TimeBlock) (n : Z)
    (prev : list TimeBlock) :
  0 < n -> Forall BlockOk prev -> Forall BlockOk (resizeBlocks block n prev).
Proof.
  intros Hn Hprev. unfold resizeBlocks.
  apply Forall_fmap. eapply Forall_impl; [exact Hprev|].
  intros b Hb. pose proof Hb as (Hb1 & Hb2 & Hb3). cbn.
  destruct (decide (id b = id block)); [|exact Hb].
  repeat apply conj; cbn; try lia; [|exact Hb3].
  rewrite setMinutes_add. unfold Js.MS_PER_MINUTE. lia.
Qed.

Lemma BlockOk_prepBlocks (block : TimeBlock) (n : Z)
    (prev : list TimeBlock) :
  0 <= n -> Forall BlockOk prev -> Forall BlockOk (prepBlocks block n prev).
Proof.
  intros Hn Hprev. unfold prepBlocks.
  apply Forall_fmap. eapply Forall_impl; [exact Hprev|].
  intros b Hb. pose proof Hb as (Hb1 & Hb2 & Hb3). cbn.
  destruct (decide (id b = id block)); [|exact Hb].
  destruct (Z.eqb_spec n 0); repeat apply conj; cbn; try lia.
  - discriminate.
  - intros p [= <-]. cbn. unfold Js.MS_PER_MINUTE. lia.
Qed.

(** The block lists that [handleInteractionMove] can produce. *)
Lemma handleInteractionMove_cases (env : Env) (e : Event) (s s' : Calendar) :
  handleInteractionMove env e s = Some s' ->
  blocks s' = blocks s
  \/ exists d block,
       dragState s = Some d
       /\ findBlock (blockId d) (blocks s) = Some block
       /\ ((exists st col, 0 <= col < MAX_COLUMNS
              /\ blocks s' = moveBlocks block st (end_ block - start block)
                                        col (blocks s))
           \/ (exists n, 0 < n /\ blocks s' = resizeBlocks block n (blocks s))
           \/ (exists n, 0 <= n /\ blocks s' = prepBlocks block n (blocks s))).
Proof.
  unfold handleInteractionMove.
  destruct (dragState s) as [d|] eqn:Hdrag; [|intros [= <-]; now left].
  destruct (gridRef env); [|intros [= <-]; now left].
  destruct (eventPoint e d) as [point|]; [|intros [= <-]; now left].
  destruct (findBlock (blockId d) (blocks s)) as [block|] eqn:Hb;
    [|intros [= <-]; now left].
  destruct (blockRefs env (blockId d)); [|intros [= <-]; now left].
  intros Hs'. right. exists d, block.
  split; [reflexivity|]. split; [exact Hb|].
  destruct (type d).
  - left. do 2 eexists. split; [apply newColumnOf_range|].
    destruct (isTouch e); injection Hs' as <-; reflexivity.
  - right. left. destruct (initialHeight d) as [h|]; [|discriminate].
    eexists. split.
    2:{ destruct (isTouch e); injection Hs' as <-; reflexivity. }
    rewrite resize_floor. unfold SNAP_MINUTES. lia.
  - right. right. eexists. split.
    2:{ destruct (isTouch e); injection Hs' as <-; reflexivity. }
    apply newPrepMinutesOf_range.
Qed.

Lemma mapStore_removeMover_shape (m : string) (bs : list TimeBlock) :
  forall h, Forall2 (fun b b' => exists l, b' = with_assignedMovers b (Some l))
                    bs (fst (mapStore (removeMoverBlock m) bs h)).
Proof.
  induction bs as [|b rest IH]; intros h; [constructor|].
  cbn [mapStore]. unfold bind at 1. rewrite removeMoverBlock_run.
  unfold bind.
  specialize (IH (<[fresh (dom h) := filter (fun x => x ≠ m) (moversOf h b)]> h)).
  destruct (mapStore (removeMoverBlock m) rest _) as [ys h2]. cbn in *.
  constructor; [eauto|exact IH].
Qed.

Lemma createBlock_BlockOk (env : Env) (rnd : string) (y : Q) (s : Calendar) :
  Forall BlockOk (blocks s) ->
  Forall BlockOk (blocks (snd (createBlock env rnd y s))).
Proof.
  intros Hok. destruct (isDraggingNow s) eqn:Hd.
  { unfold createBlock. now rewrite Hd. }
  rewrite (createBlock_unfold env rnd y s Hd). cbn [snd blocks setBlocks].
  apply Forall_app. split; [exact Hok|]. constructor; [|constructor].
  repeat apply conj; cbn.
  - unfold Js.MS_PER_HOUR. lia.
  - apply findAvailableColumn_range.
  - apply findAvailableColumn_range.
  - discriminate.
Qed.

Lemma Forall_filter_keep {A} (P : A -> Prop) (Q : A -> Prop)
    `{!forall x, Decision (Q x)} (l : list A) :
  Forall P l -> Forall P (filter Q l).
Proof.
  rewrite !Forall_forall. intros Hall x Hx.
  apply list_elem_of_filter in Hx as [_ Hx]. now apply Hall.
Qed.

Lemma handler_BlockOk (s s' : Calendar) :
  Handler s s' ->
  Forall BlockOk (blocks s) -> optionOk (editingBlock s) ->
  Forall BlockOk (blocks s') /\ optionOk (editingBlock s').
Proof.
  intros Hstep Hok Hed. destruct Hstep.
  - split; [now apply createBlock_BlockOk|].
    now rewrite (proj2 (createBlock_dom env rnd y s)).
  - unfold handleGridInteraction. destruct (_ || _); [now split|].
    split; [now apply createBlock_BlockOk|].
    now rewrite (proj2 (createBlock_dom env rnd (clientY p) s)).
  - unfold deleteBlock. destruct (editingBlock s) as [x|] eqn:E;
      [destruct (decide (id x = k))|]; cbn;
      (split; [now apply Forall_filter_keep|]); try (rewrite E; exact Hed);
      intros b; discriminate.
  - destruct (handleBlockInteractionStart_frame env (MouseDown p) b ty s)
      as (Hb & _ & He). unfold handleBlockMouseDown. rewrite Hb.
    split; [exact Hok|]. destruct He as [-> | ->]; [exact Hed|].
    intros x [= <-]. rewrite Forall_forall in Hok. now apply Hok.
  - destruct (handleBlockInteractionStart_frame env (TouchStart t) b ty
                (setTouchMoveCount (setTouchStartTime s (now env)) 0))
      as (Hb & _ & He). unfold handleBlockTouchStart. rewrite Hb.
    split; [exact Hok|]. destruct He as [-> | ->]; [exact Hed|].
    intros x [= <-]. rewrite Forall_forall in Hok. now apply Hok.
  - rewrite (handleInteractionMove_editing env e s s' H).
    split; [|exact Hed].
    destruct (handleInteractionMove_cases env e s s' H)
      as [-> | (d & block & _ & Hb & Hcase)]; [exact Hok|].
    assert (Hblock : BlockOk block).
    { rewrite Forall_forall in Hok. apply Hok.
      now apply findBlock_id in Hb. }
    destruct Hcase as [(st & col & Hcol & ->)|[(n & Hn & ->)|(n & Hn & ->)]].
    + now apply BlockOk_moveBlocks.
    + now apply BlockOk_resizeBlocks.
    + now apply BlockOk_prepBlocks.
  - destruct (handleInteractionEnd_frame env touch s) as (Hb & _ & He).
    rewrite Hb. split; [exact Hok|].
    destruct He as [-> | (b & Hin & ->)]; [exact Hed|].
    intros x [= <-]. rewrite Forall_forall in Hok. now apply Hok.
  - now split.
  - rewrite (proj2 (removeMover_dom m s)). split; [|exact Hed].
    unfold removeMover.
    pose proof (mapStore_removeMover_shape m (blocks s) (heap s)) as Hshape.
    destruct (mapStore (removeMoverBlock m) (blocks s) (heap s)) as [bs' h'].
    cbn in *. clear -Hok Hshape.
    induction Hshape as [|b b' bs bs' (l & ->) _ IH]; [constructor|].
    apply Forall_cons in Hok as [Hb Hrest].
    constructor; [exact Hb|now apply IH].
  - now split.
  - now split.
Qed.

Lemma toggleMover_form (m : string) (formState : TimeBlock)
    (h : gmap loc (list string)) :
  exists l, fst (toggleMover m formState h)
            = with_assignedMovers formState (Some l).
Proof.
  unfold toggleMover. destruct (assignedMovers formState) as [l|]; cbn.
  - exists l. now destruct (_ =? -1).
  - exists (fresh (dom h)). rewrite lookup_insert_eq. reflexivity.
Qed.

(** X12. In every reachable state every block, and the block the editor
    holds, is well formed as the data model has it: it ends after it
    starts, its lane is one of [0 .. MAX_COLUMNS-1], and a preparation
    time, when present, has a positive duration and ends exactly where the
    block starts. *)
Theorem reachable_blocks_ok (a : App) :
  Reachable a ->
  Forall BlockOk (blocks (cal a))
  /\ optionOk (editingBlock (cal a))
  /\ optionOk (draft a).
Proof.
  induction 1 as [today|a a' _ (Hb & He & Hd) Hstep].
  - repeat apply conj; [constructor|intros b; discriminate..].
  - destruct Hstep; cbn [cal draft] in *.
    + destruct (handler_BlockOk s s' H Hb He) as [Hb' He'].
      repeat apply conj; assumption.
    + destruct (handler_BlockOk s s' H Hb He) as [Hb' He'].
      repeat apply conj; assumption.
    + repeat apply conj; try assumption.
      intros b [= <-]. apply BlockOk_handleInputChange. now apply Hd.
    + repeat apply conj; try assumption.
      intros b [= <-].
      destruct (toggleMover_form m formState (heap s)) as [l ->].
      now apply (Hd formState).
    + unfold handleClose. repeat apply conj; [|intros b; discriminate..].
      destruct save; cbn; [|exact Hb].
      apply Forall_fmap. eapply Forall_impl; [exact Hb|].
      intros b Hbok. cbn. destruct (decide (id b = id block)); [|exact Hbok].
      now apply Hd.
    + destruct (handler_BlockOk s _ (h_deleteBlock (id block) s) Hb He)
        as [Hb' _].
      unfold handleClose. cbn.
      repeat apply conj; [exact Hb'|intros b; discriminate..].
Qed.

(** ** The preparation overlay *)

(** X13. After a preparation drag on a block that starts on the snap grid,
    a preparation time that is set lasts a positive multiple of 15 minutes,
    and what the overlay shows adds up: the departure time (15 minutes
    after the preparation start) plus the drive time shown (the duration
    less 15 minutes) is the start of the block. *)
Theorem overlay_times_add_up (env : Env) (e : Event) (s : Calendar)
    (d : DragState) (gridRect : Rect) (point : Point) (block : TimeBlock)
    (element : Element) :
  dragState s = Some d ->
  gridRef env = Some gridRect ->
  eventPoint e d = Some point ->
  findBlock (blockId d) (blocks s) = Some block ->
  blockRefs env (blockId d) = Some element ->
  type d = prep ->
  onGrid (start block) ->
  exists s' block',
    handleInteractionMove env e s = Some s'
    /\ findBlock (blockId d) (blocks s') = Some block'
    /\ forall p, prepTime block' = Some p ->
         15 <= prep_duration p
         /\ prep_duration p mod SNAP_MINUTES = 0
         /\ calculateDriveTime (prep_duration p)
            = pretty (prep_duration p - 15)
         /\ getDepartureTime (prep_start p)
            + (prep_duration p - 15) * Js.MS_PER_MINUTE
            = start block'.
Proof.
  intros Hdrag Hgrid Hpoint Hblock Helement Hty Hon.
  destruct (fmap_blocks_Some _ _
              (handleInteractionMove_prep env e s d gridRect point block
                 element Hdrag Hgrid Hpoint Hblock Helement Hty))
    as (s' & Hs' & Hbs).
  exists s'. eexists. split; [exact Hs'|]. rewrite Hbs.
  unfold prepBlocks. rewrite findBlock_map, Hblock.
  2:{ intros b. destruct (decide (id b = id block)); [|reflexivity].
      now destruct (_ =? 0). }
  cbn [fmap option_fmap option_map]. rewrite decide_True by reflexivity.
  split; [reflexivity|].
  set (n := newPrepMinutesOf block (clientY point - initialY d)).
  assert (Hn : 0 <= n /\ n mod 15 = 0).
  { unfold n, newPrepMinutesOf.
    destruct (onGrid_minutes _ Hon) as (k & Hk & -> & _).
    pose proof (snapToGrid_multiple
                  (pixelsToMinutes (clientY point - initialY d))) as Hsnap.
    unfold SNAP_MINUTES in Hsnap.
    set (v := snapToGrid (pixelsToMinutes (clientY point - initialY d))) in *.
    split; [lia|].
    destruct (Z.max_spec 0 (Z.min (15 * k) v)) as [[_ ->]|[_ ->]];
      [|reflexivity].
    destruct (Z.min_spec (15 * k) v) as [[_ ->]|[_ ->]]; [|exact Hsnap].
    rewrite Z.mul_comm. apply Z_mod_mult. }
  destruct Hn as [Hn0 Hn15].
  destruct (Z.eqb_spec n 0) as [Hz|Hz]; cbn; [discriminate|].
  intros p [= <-]. cbn [prep_duration prep_start].
  assert (H15 : 15 <= n).
  { pose proof (Z.div_mod n 15 ltac:(lia)) as Hq. rewrite Hn15 in Hq.
    assert (0 < n / 15) by (apply Z.div_str_pos; lia || nia). lia. }
  repeat apply conj.
  - exact H15.
  - exact Hn15.
  - unfold calculateDriveTime. destruct (Z.leb_spec n 15); [|reflexivity].
    replace n with 15 by lia. reflexivity.
  - unfold getDepartureTime. rewrite setMinutes_add.
    unfold Js.MS_PER_MINUTE. lia.
Qed.

(** ** The editor and later changes *)

Lemma applyEdits_keeps (es : list DraftEdit) (formState : TimeBlock)
    (h : gmap loc (list string)) :
  let f := fst (applyEdits es formState h) in
  id f = id formState /\ start f = start formState
  /\ end_ f = end_ formState /\ column f = column formState
  /\ prepTime f = prepTime formState /\ color f = color formState.
Proof.
  revert formState h. induction es as [|e es IH]; intros formState h.
  - cbn. auto 10.
  - cbn [applyEdits]. unfold bind.
    destruct (applyEdit e formState h) as [f1 h1] eqn:E1.
    specialize (IH f1 h1). cbn zeta in IH.
    assert (Hf1 : id f1 = id formState /\ start f1 = start formState
                  /\ end_ f1 = end_ formState /\ column f1 = column formState
                  /\ prepTime f1 = prepTime formState
                  /\ color f1 = color formState).
    { destruct e as [name value|m]; cbn in E1.
      - injection E1 as <- <-. destruct name; cbn; auto 10.
      - destruct (toggleMover_form m formState h) as [l Hl].
        rewrite E1 in Hl. cbn in Hl. subst f1. cbn. auto 10. }
    destruct Hf1 as (H1 & H2 & H3 & H4 & H5 & H6).
    destruct IH as (I1 & I2 & I3 & I4 & I5 & I6).
    cbn zeta. repeat apply conj; congruence.
Qed.

(** X14. "Done" writes back what the editor was opened with.  When a block
    is dragged, resized or given a preparation time after the editor was
    opened on it, "Done" puts every block with that id back to the start,
    end, lane and preparation time it had when the editor opened, whatever
    was edited in the form; all other blocks stay as the drag left them. *)
Theorem done_overwrites_later_drag (env : Env) (e : Event)
    (es : list DraftEdit) (s s1 : Calendar) (block : TimeBlock) :
  editingBlock s = Some block ->
  handleInteractionMove env e s = Some s1 ->
  length (blocks (editorSession es true s1)) = length (blocks s1)
  /\ forall i b1, blocks s1 !! i = Some b1 ->
       exists b', blocks (editorSession es true s1) !! i = Some b'
         /\ (id b1 <> id block -> b' = b1)
         /\ (id b1 = id block ->
             start b' = start block /\ end_ b' = end_ block
             /\ column b' = column block
             /\ prepTime b' = prepTime block).
Proof.
  intros Hed Hmove.
  rewrite <- (handleInteractionMove_editing env e s s1 Hmove) in Hed.
  destruct (editorSession_done es s1 block Hed) as [Hb _].
  rewrite Hb. split; [apply length_map|].
  intros i b1 Hi. rewrite list_lookup_fmap, Hi. cbn.
  eexists. split; [reflexivity|].
  destruct (applyEdits_keeps es block (heap s1)) as (_ & H2 & H3 & H4 & H5 & _).
  destruct (decide (id b1 = id block)); split; intros; try contradiction;
    auto.
Qed.

(** X15. Removing a mover while the editor is open does not reach the
    editor: the editor still holds the array the block had, so "Done" puts
    the removed mover's id back into every block with the edited id. *)
Theorem done_restores_removed_mover (m : string) (s : Calendar)
    (block : TimeBlock) :
  editingBlock s = Some block ->
  m ∈ moversOf (heap s) block ->
  let s1 := removeMover m s in
  let s2 := editorSession [] true s1 in
  forall i b1, blocks s1 !! i = Some b1 -> id b1 = id block ->
    exists b2, blocks s2 !! i = Some b2
      /\ id b2 = id block
      /\ (m ∈ moversOf (heap s2) b2).
Proof.
  intros Hed Hm s1 s2 i b1 Hi Hid.
  destruct (removeMover_dom m s) as [_ Hed1]. fold s1 in Hed1.
  rewrite <- Hed1 in Hed.
  destruct (editorSession_done [] s1 block Hed) as [Hb _].
  fold s2 in Hb. rewrite Hb, list_lookup_fmap, Hi. cbn.
  rewrite decide_True by exact Hid.
  eexists. split; [reflexivity|]. split; [reflexivity|].
  assert (Hh2 : heap s2 = heap s1).
  { unfold s2, editorSession. rewrite Hed. reflexivity. }
  rewrite Hh2.
  (* the array the editor holds is still in the store *)
  unfold moversOf, moversAt in *.
  destruct (assignedMovers block) as [l|]; [|now apply not_elem_of_nil in Hm].
  destruct (heap s !! l) as [arr|] eqn:Hl;
    [|now apply not_elem_of_nil in Hm].
  assert (Hkeep : heap s1 !! l = heap s !! l).
  { unfold s1, removeMover.
    destruct (mapStore (removeMoverBlock m) (blocks s) (heap s))
      as [bs' h'] eqn:Hrun.
    destruct (mapStore_removeMover m _ _ _ _ Hrun) as (Hkeep & _ & _).
    cbn. apply Hkeep. apply elem_of_dom. eauto. }
  rewrite Hkeep, Hl. exact Hm.
Qed.

Lemma filter_absent (m : string) (l : list string) :
  m ∉ l -> filter (fun x => x ≠ m) l = l.
Proof.
  induction l as [|x l IH]; [reflexivity|].
  rewrite not_elem_of_cons. intros [Hx Hl].
  rewrite filter_cons_True by congruence. now rewrite IH.
Qed.

(** X16. For the draft of every reachable state, toggling twice keeps the
    members but not always the order: for a mover the draft did not hold,
    the array is exactly as before; for one it held, the id has moved to
    the end of the array. *)
Theorem double_toggle_order (a : App) (formState : TimeBlock) (m : string) :
  Reachable a ->
  draft a = Some formState ->
  let h := heap (cal a) in
  let r1 := toggleMover m formState h in
  let r2 := toggleMover m (fst r1) (snd r1) in
  moversOf (snd r2) (fst r2)
  = if decide (m ∈ moversOf h formState)
    then filter (fun x => x ≠ m) (moversOf h formState) ++ [m]
    else moversOf h formState.
Proof.
  intros Ha _ h r1 r2. unfold r2, r1. rewrite !toggleMover_view.
  pose proof (reachable_distinct a formState Ha) as Hnd. fold h in Hnd.
  set (arr := moversOf h formState) in *.
  assert (Hlast : forall pre, m ∉ pre -> toggleArray m (pre ++ [m]) = pre).
  { intros pre Hpre.
    destruct (toggleArray_present m (pre ++ [m])) as (p1 & p2 & E & Hp1 & ->).
    { apply elem_of_app. right. apply list_elem_of_here. }
    assert (p2 = [] /\ p1 = pre) as [-> ->].
    { destruct p2 as [|x p2 _] using rev_ind.
      - now apply app_inj_tail in E as [-> _].
      - rewrite app_comm_cons, app_assoc in E.
        apply app_inj_tail in E as [-> ->].
        exfalso. apply Hpre. apply elem_of_app. right.
        apply list_elem_of_here. }
    apply app_nil_r. }
  destruct (decide (m ∈ arr)) as [Hin|Hout].
  - destruct (toggleArray_present m arr Hin) as (pre & post & E & Hpre & ->).
    rewrite E in Hnd. apply NoDup_app in Hnd as (_ & Hdisj & Hpost).
    apply NoDup_cons in Hpost as [Hmpost _].
    assert (Hnot : m ∉ pre ++ post).
    { rewrite elem_of_app. intros [?|?]; contradiction. }
    rewrite (toggleArray_absent m _ Hnot). f_equal.
    rewrite E, filter_app, filter_cons_False by (intros Hx; now apply Hx).
    rewrite !filter_absent; [reflexivity|exact Hmpost|exact Hpre].
  - rewrite (toggleArray_absent m arr Hout). now apply Hlast.
Qed.

(** ** Creating blocks *)

Lemma hasOverlap_snoc (bs : list TimeBlock) (b : TimeBlock) (col : Z)
    (st en : Js.Date) :
  hasOverlap (bs ++ [b]) col st en
  = hasOverlap bs col st en
    || ((column b =? col) && (st <? end_ b) && (en >? start b)).
Proof.
  unfold hasOverlap. rewrite existsb_app. cbn. now rewrite orb_false_r.
Qed.

(** X17. Two clicks at one offset: when lanes 0 and 1 are both free for
    the hour at that offset, the first click puts its block in lane 0 and
    the second click puts its block, over the same hour, in lane 1. *)
Theorem second_click_takes_next_lane (env : Env) (rnd1 rnd2 : string)
    (y : Q) (s : Calendar) :
  isDraggingNow s = false ->
  let st := getTimeFromPosition env s y in
  let en := st + Js.MS_PER_HOUR in
  hasOverlap (blocks s) 0 st en = false ->
  hasOverlap (blocks s) 1 st en = false ->
  let s1 := snd (createBlock env rnd1 y s) in
  let s2 := snd (createBlock env rnd2 y s1) in
  exists b1 b2,
    blocks s2 = blocks s ++ [b1; b2]
    /\ id b1 = rnd1 /\ id b2 = rnd2
    /\ start b1 = st /\ end_ b1 = en /\ column b1 = 0
    /\ start b2 = st /\ end_ b2 = en /\ column b2 = 1.
Proof.
  intros Hd st en H0 H1 s1 s2.
  assert (Hs1 : s1 = snd (createBlock env rnd1 y s)) by reflexivity.
  rewrite (createBlock_unfold env rnd1 y s Hd) in Hs1. cbn [snd] in Hs1.
  fold st en in Hs1.
  assert (Hc1 : findAvailableColumn (blocks s) st en = 0).
  { unfold findAvailableColumn. apply scanColumns_first;
      [unfold MAX_COLUMNS; lia|exact H0|intros c' Hc'; lia]. }
  rewrite Hc1 in Hs1.
  assert (Hd1 : isDraggingNow s1 = false) by (rewrite Hs1; exact Hd).
  assert (Hst1 : getTimeFromPosition env s1 y = st) by (rewrite Hs1; reflexivity).
  assert (Hs2 : s2 = snd (createBlock env rnd2 y s1)) by reflexivity.
  rewrite (createBlock_unfold env rnd2 y s1 Hd1) in Hs2. cbn [snd] in Hs2.
  rewrite Hst1 in Hs2. fold en in Hs2.
  assert (Hb1 : blocks s1 = blocks s ++
            [mkBlock rnd1 "New Block" st en None None
               (default ""%string
                  (TIME_BLOCK_COLORS !!
                     (length (blocks s) mod length TIME_BLOCK_COLORS)%nat))
               0 None (Some (fresh (dom (heap s))))])
    by (rewrite Hs1; reflexivity).
  assert (Hc2 : findAvailableColumn (blocks s1) st en = 1).
  { unfold findAvailableColumn. apply scanColumns_first.
    - unfold MAX_COLUMNS. lia.
    - rewrite Hb1, hasOverlap_snoc, H1. reflexivity.
    - intros c' Hc'. assert (c' = 0) as -> by lia.
      rewrite Hb1, hasOverlap_snoc. cbn [column start end_].
      apply orb_true_iff. right.
      unfold en, Js.MS_PER_HOUR.
      rewrite Z.gtb_ltb.
      apply andb_true_iff; split; [apply andb_true_iff; split|]; lia. }
  rewrite Hc2 in Hs2.
  do 2 eexists. split.
  - rewrite Hs2. cbn [blocks setBlocks]. rewrite Hb1, <- app_assoc.
    reflexivity.
  - cbn. repeat apply conj; reflexivity.
Qed.

Lemma snapToGrid_shift (v k : Z) :
  snapToGrid (v - 15 * k) = snapToGrid v - 15 * k.
Proof.
  rewrite !snapToGrid_div.
  replace (2 * (v - 15 * k) + 15) with (2 * v + 15 + (- k) * 30) by lia.
  rewrite Z.div_add by lia. lia.
Qed.

(** X18. The "Add Block" button passes the current minute of the day to
    [createBlock] as a position in the viewport, so the grid's offset in
    the viewport is taken off.  With the top edge of the grid a whole
    number [t] of pixels below the top of the viewport, and the clock at
    [t] minutes past midnight or later, the new one-hour block starts
    [snap(now - t)] minutes after midnight of the displayed day.  For
    [t = 0] that is the snapped time of day; for a multiple [t] of 15 it is
    exactly [t] minutes earlier, and for every [t] from 15 on at least 15
    minutes earlier. *)
Theorem add_block_button_offset (env : Env) (rnd : string) (s : Calendar)
    (rect : Rect) (t : Z) :
  gridRef env = Some rect ->
  isDraggingNow s = false ->
  (rect_top rect == inject_Z t)%Q ->
  let nowMinutes := Js.getHours (now env) * 60 + Js.getMinutes (now env) in
  let day := Js.startOfDay (currentDate s) in
  t <= nowMinutes ->
  exists b,
    addBlockClick env rnd s
    = (Some b, setBlocks (setHeap s (<[fresh (dom (heap s)) := []]> (heap s)))
                         (blocks s ++ [b]))
    /\ start b = day + snapToGrid (nowMinutes - t) * Js.MS_PER_MINUTE
    /\ end_ b = start b + Js.MS_PER_HOUR
    /\ (t = 0 -> start b = day + snapToGrid nowMinutes * Js.MS_PER_MINUTE)
    /\ (t mod SNAP_MINUTES = 0 ->
        start b = day + (snapToGrid nowMinutes - t) * Js.MS_PER_MINUTE)
    /\ (15 <= t ->
        start b <= day + (snapToGrid nowMinutes - 15) * Js.MS_PER_MINUTE).
Proof.
  intros Hg Hd Htop nowMinutes day Ht. unfold addBlockClick.
  fold nowMinutes.
  rewrite (createBlock_unfold env rnd _ s Hd). cbn zeta.
  assert (Hrel : (minutesToPixels nowMinutes - rect_top rect
                  == inject_Z (nowMinutes - t))%Q).
  { rewrite minutesToPixels_inject, Htop.
    unfold Zminus. rewrite inject_Z_plus, inject_Z_opp. ring. }
  assert (Hst : getTimeFromPosition env s (minutesToPixels nowMinutes)
                = day + snapToGrid (nowMinutes - t) * Js.MS_PER_MINUTE).
  { rewrite (getTimeFromPosition_grid env s rect _ Hg).
    - now rewrite pixelsToMinutes_round, (round_comp _ _ Hrel),
        round_inject_Z.
    - rewrite Hrel. change (inject_Z 0 <= inject_Z (nowMinutes - t))%Q.
      rewrite <- Zle_Qle. lia. }
  rewrite Hst.
  eexists. split; [reflexivity|]. cbn [start end_].
  repeat apply conj.
  - reflexivity.
  - reflexivity.
  - intros ->. now rewrite Z.sub_0_r.
  - intros Hmod. unfold SNAP_MINUTES in Hmod.
    rewrite (Z.div_mod t 15) at 1 by lia. rewrite Hmod, Z.add_0_r.
    rewrite snapToGrid_shift.
    rewrite (Z.div_mod t 15) at 2 by lia. rewrite Hmod. lia.
  - intros Hbig.
    assert (snapToGrid (nowMinutes - t) <= snapToGrid nowMinutes - 15).
    { replace (snapToGrid nowMinutes - 15)
        with (snapToGrid (nowMinutes - 15 * 1))
        by (rewrite snapToGrid_shift; lia).
      apply snapToGrid_mono. lia. }
    unfold Js.MS_PER_MINUTE. lia.
Qed.

(** ** The roster *)

Lemma dropWhite_space (c : Ascii.ascii) (l : list Ascii.ascii) :
  Ascii.is_space c = true ->
  JsString.dropWhite JsString.whiteSpace (c :: l) = Some l.
Proof.
  destruct c as [[] [] [] [] [] [] [] []]; cbn; try discriminate;
    intros _; reflexivity.
Qed.

Lemma dropAll_spaces (l : list Ascii.ascii) (n : nat) :
  Forall (fun c => Ascii.is_space c = true) l ->
  (length l <= n)%nat ->
  JsString.dropAll JsString.whiteSpace n l = [].
Proof.
  revert n. induction l as [|c l IH]; intros n Hall Hn.
  - destruct n; reflexivity.
  - destruct n as [|n]; [cbn in Hn; lia|].
    apply Forall_cons in Hall as [Hc Hl].
    cbn [JsString.dropAll]. rewrite (dropWhite_space c l Hc).
    apply IH; [exact Hl|cbn in Hn; lia].
Qed.

Lemma trim_spaces (s : string) :
  Forall (fun c => Ascii.is_space c = true) (String.list_ascii_of_string s) ->
  JsString.trim s = "".
Proof.
  intros Hall. unfold JsString.trim, JsString.trimStart.
  now rewrite (dropAll_spaces _ _ Hall) by lia.
Qed.

Lemma filter_id_length (ms : list Mover) (k : string) :
  NoDup (mover_id <$> ms) ->
  k ∈ mover_id <$> ms ->
  S (length (filter (fun m => mover_id m ≠ k) ms)) = length ms.
Proof.
  induction ms as [|m ms IH]; cbn [fmap list_fmap].
  - intros _ Hk. now apply elem_of_nil in Hk.
  - rewrite NoDup_cons. intros [Hm Hnd] Hk.
    destruct (decide (mover_id m = k)) as [E|E].
    + rewrite filter_cons_False by (intros Hx; now apply Hx).
      cbn [length]. f_equal.
      assert (Hall : Forall (fun x => mover_id x ≠ k) ms).
      { apply Forall_forall. intros x Hx Hxk. apply Hm. rewrite E, <- Hxk.
        now apply list_elem_of_fmap_2. }
      clear -Hall. induction Hall as [|x xs Hx _ IHx]; [reflexivity|].
      rewrite filter_cons_True by exact Hx. cbn [length]. now rewrite IHx.
    + rewrite filter_cons_True by exact E. cbn [length]. f_equal.
      apply IH; [exact Hnd|].
      apply elem_of_cons in Hk as [Hk|Hk]; [congruence|exact Hk].
Qed.

Lemma ids_seq_NoDup (n : nat) : NoDup (pretty <$> seq 1 n : list string).
Proof. apply (NoDup_fmap_2 _), NoDup_seq. Qed.

Lemma addMover_named (color name : string) (s : Calendar) :
  JsString.trim name ≠ "" ->
  addMover color name s
  = (setMovers s (movers s ++
       [mkMover (pretty (length (movers s) + 1)%nat)
                (JsString.trim name) color]), "").
Proof.
  intros Hn. unfold addMover. now destruct (decide (JsString.trim name = "")).
Qed.

Lemma addMover_ids (color name : string) (s : Calendar) :
  mover_id <$> movers s = pretty <$> seq 1 (length (movers s)) ->
  let s' := fst (addMover color name s) in
  mover_id <$> movers s' = pretty <$> seq 1 (length (movers s')).
Proof.
  intros Hids s'. unfold s', addMover.
  destruct (decide (JsString.trim name = "")); cbn [fst]; [exact Hids|].
  cbn [movers setMovers]. rewrite fmap_app, length_app, Hids.
  cbn [length fmap list_fmap mover_id].
  rewrite seq_app, fmap_app. cbn [seq fmap list_fmap].
  replace (length (movers s) + 1)%nat with (1 + length (movers s))%nat
    by lia.
  reflexivity.
Qed.

(** X19. "Add" with a name of spaces, tabs and line breaks only (the empty
    name included) changes nothing and leaves the input as it is. *)
Theorem addMover_refuses_blank_name (color name : string) (s : Calendar) :
  Forall (fun c => Ascii.is_space c = true) (String.list_ascii_of_string name) ->
  addMover color name s = (s, name).
Proof.
  intros Hall. unfold addMover. rewrite (trim_spaces name Hall).
  reflexivity.
Qed.

(** X20. As long as no mover is removed the roster's ids stay distinct:
    after any number of "Add" presses on a fresh calendar, blank names
    among them or not, the ids are "1", "2", ... in order, and no block is
    touched. *)
Theorem added_movers_have_distinct_ids (today : Js.Date)
    (adds : list (string * string)) :
  let s := addMovers adds (initialCalendar today) in
  mover_id <$> movers s = pretty <$> seq 1 (length (movers s))
  /\ NoDup (mover_id <$> movers s)
  /\ (7 <= length (movers s) <= 7 + length adds)%nat
  /\ blocks s = [] /\ heap s = ∅.
Proof.
  intros s.
  assert (H : forall s0,
    mover_id <$> movers s0 = pretty <$> seq 1 (length (movers s0)) ->
    let s1 := addMovers adds s0 in
    mover_id <$> movers s1 = pretty <$> seq 1 (length (movers s1))
    /\ (length (movers s0) <= length (movers s1)
        <= length (movers s0) + length adds)%nat
    /\ blocks s1 = blocks s0 /\ heap s1 = heap s0).
  { induction adds as [|[c n] adds IH]; intros s0 Hids.
    - cbn. repeat apply conj; (exact Hids || lia || reflexivity).
    - cbn [addMovers foldl fst snd].
      pose proof (addMover_ids c n s0 Hids) as Hids'. cbn zeta in Hids'.
      specialize (IH _ Hids'). cbn zeta in IH. unfold addMovers in IH.
      destruct IH as (Hi & Hl & Hb & Hh).
      assert (Hstep : (length (movers s0)
                       <= length (movers (fst (addMover c n s0)))
                       <= length (movers s0) + 1)%nat
                      /\ blocks (fst (addMover c n s0)) = blocks s0
                      /\ heap (fst (addMover c n s0)) = heap s0).
      { unfold addMover. destruct (decide (JsString.trim n = ""));
          cbn [fst movers setMovers blocks heap].
        - repeat apply conj; (lia || reflexivity).
        - rewrite length_app. cbn [length].
          repeat apply conj; (lia || reflexivity). }
      destruct Hstep as (Hl' & Hb' & Hh').
      repeat apply conj.
      + exact Hi.
      + lia.
      + cbn [length]. lia.
      + now rewrite Hb.
      + now rewrite Hh. }
  specialize (H (initialCalendar today) eq_refl). cbn zeta in H.
  fold s in H. destruct H as (Hi & Hl & Hb & Hh).
  repeat apply conj.
  - exact Hi.
  - rewrite Hi. apply ids_seq_NoDup.
  - exact (proj1 Hl).
  - exact (proj2 Hl).
  - exact Hb.
  - exact Hh.
Qed.

(** X21. After a removal the next "Add" repeats an id.  With ids "1" to
    "n" in the roster, removing any mover but the last and adding a new one
    gives the new mover the id "n", which the last mover of the old roster
    still has; removing by that id then removes both. *)
Theorem add_after_remove_repeats_id (color name : string) (k : nat)
    (s : Calendar) :
  mover_id <$> movers s = pretty <$> seq 1 (length (movers s)) ->
  (1 <= k < length (movers s))%nat ->
  JsString.trim name ≠ "" ->
  let n := length (movers s) in
  let s1 := removeMover (pretty k) s in
  let s2 := fst (addMover color name s1) in
  movers s2 = movers s1 ++ [mkMover (pretty n) (JsString.trim name) color]
  /\ pretty n ∈ mover_id <$> movers s1
  /\ ¬ NoDup (mover_id <$> movers s2)
  /\ length (movers s2) = n
  /\ length (movers (removeMover (pretty n) s2)) = (n - 2)%nat.
Proof.
  intros Hids Hk Hname n s1 s2.
  assert (Hnd : NoDup (mover_id <$> movers s)).
  { rewrite Hids. apply ids_seq_NoDup. }
  assert (Hm1 : movers s1
                = filter (fun m => mover_id m ≠ pretty k) (movers s)).
  { unfold s1, removeMover.
    destruct (mapStore (removeMoverBlock (pretty k)) (blocks s) (heap s)).
    reflexivity. }
  assert (Hin : forall j, (1 <= j <= n)%nat ->
                  (pretty j : string) ∈ mover_id <$> movers s).
  { intros j Hj. rewrite Hids. apply list_elem_of_fmap_2, elem_of_seq.
    fold n. lia. }
  assert (Hlen1 : S (length (movers s1)) = n).
  { rewrite Hm1. apply filter_id_length; [exact Hnd|apply Hin; lia]. }
  assert (Hn1 : (pretty n : string) ∈ mover_id <$> movers s1).
  { pose proof (Hin n ltac:(lia)) as Hn.
    apply list_elem_of_fmap in Hn as (m & Hm & Hmin).
    rewrite Hm. apply list_elem_of_fmap_2. rewrite Hm1.
    apply list_elem_of_filter. split; [|exact Hmin].
    rewrite <- Hm. intros E. apply (inj pretty) in E. lia. }
  assert (Hm2 : movers s2
                = movers s1 ++ [mkMover (pretty n) (JsString.trim name) color]).
  { unfold s2. rewrite (addMover_named color name s1 Hname).
    cbn [fst movers setMovers]. repeat f_equal. lia. }
  assert (Hm3 : movers (removeMover (pretty n) s2)
                = filter (fun m => mover_id m ≠ pretty n) (movers s1)).
  { unfold removeMover.
    destruct (mapStore (removeMoverBlock (pretty n)) (blocks s2) (heap s2)).
    cbn [movers setBlocks setHeap setMovers].
    rewrite Hm2, filter_app, filter_cons_False
      by (cbn; intros Hx; now apply Hx).
    now rewrite filter_nil, app_nil_r. }
  assert (Hnd1 : NoDup (mover_id <$> movers s1)).
  { rewrite Hm1. clear -Hnd. induction (movers s) as [|m ms IH];
      [constructor|].
    cbn [fmap list_fmap] in Hnd. apply NoDup_cons in Hnd as [Hm Hnd].
    destruct (decide (mover_id m ≠ pretty k)) as [E|E].
    - rewrite filter_cons_True by exact E. cbn [fmap list_fmap].
      apply NoDup_cons. split; [|now apply IH].
      intros Hx. apply Hm. apply list_elem_of_fmap in Hx as (x & -> & Hx).
      apply list_elem_of_filter in Hx as [_ Hx].
      now apply list_elem_of_fmap_2.
    - rewrite filter_cons_False by exact E. now apply IH. }
  repeat apply conj.
  - exact Hm2.
  - exact Hn1.
  - rewrite Hm2, fmap_app. cbn [fmap list_fmap mover_id].
    intros Hx. apply NoDup_app in Hx as (_ & Hx & _).
    apply (Hx _ Hn1). apply list_elem_of_here.
  - rewrite Hm2, length_app. cbn [length]. lia.
  - rewrite Hm3.
    pose proof (filter_id_length (movers s1) (pretty n) Hnd1 Hn1). lia.
Qed.

(** ** Day buttons and touch taps *)

Lemma startOfDay_next (d : Js.Date) :
  Js.startOfDay (d + Js.MS_PER_DAY) = Js.startOfDay d + Js.MS_PER_DAY.
Proof.
  unfold Js.startOfDay, Js.MS_PER_DAY.
  replace (d + 86400000) with (d + 1 * 86400000) by lia.
  rewrite Z.div_add by lia. lia.
Qed.

Lemma startOfDay_previous (d : Js.Date) :
  Js.startOfDay (d - Js.MS_PER_DAY) = Js.startOfDay d - Js.MS_PER_DAY.
Proof.
  unfold Js.startOfDay, Js.MS_PER_DAY.
  replace (d - 86400000) with (d + (-1) * 86400000) by lia.
  rewrite Z.div_add by lia. lia.
Qed.

(** X22. The day buttons undo each other and keep every block; a block
    that is drawn on the displayed day is drawn neither on the day before
    nor on the day after; and the same pointer position on the next day
    stands for the time one day later. *)
Theorem day_buttons_shift_one_day (env : Env) (s : Calendar) (y : Q) :
  previousDay (nextDay s) = s /\ nextDay (previousDay s) = s
  /\ blocks (nextDay s) = blocks s /\ blocks (previousDay s) = blocks s
  /\ (forall b, b ∈ visibleBlocks s ->
        (b ∉ visibleBlocks (nextDay s))
        /\ (b ∉ visibleBlocks (previousDay s)))
  /\ getTimeFromPosition env (nextDay s) y
     = match gridRef env with
       | Some _ => getTimeFromPosition env s y + Js.MS_PER_DAY
       | None => now env
       end.
Proof.
  repeat apply conj.
  - unfold previousDay, nextDay, setCurrentDate. destruct s. cbn.
    f_equal. lia.
  - unfold previousDay, nextDay, setCurrentDate. destruct s. cbn.
    f_equal. lia.
  - reflexivity.
  - reflexivity.
  - intros b Hb. unfold visibleBlocks in *.
    apply list_elem_of_filter in Hb as [Hday _]. unfold toDateString in *.
    split; intros Hx; apply list_elem_of_filter in Hx as [Hx _];
      cbn [nextDay previousDay currentDate setCurrentDate] in Hx;
      rewrite ?startOfDay_next, ?startOfDay_previous in Hx;
      unfold Js.MS_PER_DAY in Hx; lia.
  - unfold getTimeFromPosition. destruct (gridRef env); [|reflexivity].
    cbn [nextDay currentDate setCurrentDate]. unfold Js.setHours4.
    rewrite startOfDay_next. lia.
Qed.

Lemma handleInteractionMove_refs (env : Env) (e : Event) (s s' : Calendar) :
  handleInteractionMove env e s = Some s' ->
  dragState s' = dragState s
  /\ editingBlock s' = editingBlock s
  /\ touchStartTimeRef s' = touchStartTimeRef s
  /\ touchMoveCountRef s <= touchMoveCountRef s' <= touchMoveCountRef s + 1.
Proof.
  unfold handleInteractionMove.
  destruct (dragState s) as [d|] eqn:Hd; [|intros [= <-]; repeat apply conj; (reflexivity || assumption || lia)].
  destruct (gridRef env); [|intros [= <-]; repeat apply conj; (reflexivity || assumption || lia)].
  destruct (eventPoint e d); [|intros [= <-]; repeat apply conj; (reflexivity || assumption || lia)].
  destruct (findBlock (blockId d) (blocks s)) as [block|];
    [|intros [= <-]; repeat apply conj; (reflexivity || assumption || lia)].
  destruct (blockRefs env (blockId d)); [|intros [= <-]; repeat apply conj; (reflexivity || assumption || lia)].
  destruct (type d); [| destruct (initialHeight d); [|discriminate] |];
    destruct (isTouch e); intros [= <-]; cbn; repeat apply conj; (reflexivity || assumption || lia).
Qed.

Lemma interactionMoves_refs (evs : list (Env * Event)) (s s' : Calendar) :
  interactionMoves evs s = Some s' ->
  dragState s' = dragState s
  /\ editingBlock s' = editingBlock s
  /\ touchStartTimeRef s' = touchStartTimeRef s
  /\ touchMoveCountRef s <= touchMoveCountRef s'
     <= touchMoveCountRef s + Z.of_nat (length evs).
Proof.
  revert s. induction evs as [|ev evs IH]; intros s.
  - intros [= <-]. cbn. repeat apply conj; (reflexivity || lia).
  - cbn [interactionMoves].
    destruct (handleInteractionMove ev.1 ev.2 s) as [s1|] eqn:E;
      [|discriminate].
    intros Hrest. apply IH in Hrest as (Hd & He & Ht & Hc).
    apply handleInteractionMove_refs in E as (Hd1 & He1 & Ht1 & Hc1).
    cbn [length]. repeat apply conj; (congruence || lia).
Qed.

(** X23. A short touch opens the editor.  After a touch on a rendered
    block that starts a drag, followed by any touch-move events, the end of
    the touch opens the editor exactly when fewer than three of the moves
    were counted and the touch ended less than 300 ms after it began; the
    editor then holds the block as the moves have left it.  At most one
    move is counted for each event, and the drag is over either way. *)
Theorem short_touch_opens_editor (env0 envE : Env) (t : Z * Point)
    (b : TimeBlock) (ty : DragType) (el : Element)
    (evs : list (Env * Event)) (s s' : Calendar) :
  blockRefs env0 (id b) = Some el ->
  (ty <> prep -> 300 <= now env0 - lastTapTime s) ->
  interactionMoves evs (handleBlockTouchStart env0 t b ty s) = Some s' ->
  let s2 := handleInteractionEnd envE true s' in
  dragState s2 = None
  /\ 0 <= touchMoveCountRef s' <= Z.of_nat (length evs)
  /\ editingBlock s2
     = if (touchMoveCountRef s' <? 3) && (now envE - now env0 <? 300)
       then match findBlock (id b) (blocks s') with
            | Some block => Some block
            | None => editingBlock s
            end
       else editingBlock s.
Proof.
  intros Hel Hlast Hmoves s2.
  set (s1 := handleBlockTouchStart env0 t b ty s) in *.
  assert (Hs1 : (exists d, dragState s1 = Some d /\ blockId d = id b)
                /\ editingBlock s1 = editingBlock s
                /\ touchStartTimeRef s1 = now env0
                /\ touchMoveCountRef s1 = 0).
  { unfold s1, handleBlockTouchStart, handleBlockInteractionStart.
    cbn [blockRefs]. rewrite Hel.
    destruct ty; cbn [lastTapTime setMouseDown setTouchMoveCount
                      setTouchStartTime];
      try (destruct (now env0 - lastTapTime s <? 300) eqn:E;
           [apply Z.ltb_lt in E;
            assert (300 <= now env0 - lastTapTime s)
              by (apply Hlast; discriminate); lia|]);
      cbn; (split; [eexists; split; reflexivity|]); repeat split. }
  destruct Hs1 as ((d & Hd & Hid) & He1 & Ht1 & Hc1).
  apply interactionMoves_refs in Hmoves as (Hd' & He' & Ht' & Hc').
  rewrite Hd in Hd'. rewrite He1 in He'. rewrite Ht1 in Ht'.
  rewrite Hc1 in Hc'.
  split; [reflexivity|]. split; [lia|].
  unfold s2, handleInteractionEnd. rewrite Hd', Ht', Hid. cbn [andb].
  destruct ((touchMoveCountRef s' <? 3) && (now envE - now env0 <? 300));
    [|cbn; exact He'].
  destruct (findBlock (id b) (blocks s')); cbn; [reflexivity|exact He'].
Qed.

(** * Instances of the further properties *)

Lemma example_reachable :
  Reachable (mkApp Example.reopened (Some Sample.blockA)).
Proof.
  destruct sample_reachable as (_ & _ & _ & _ & _ & R).
  assert (HA : Sample.blockA ∈ blocks Sample.assigned)
    by (vm_compute; apply list_elem_of_here).
  exact (reach_step _ _ R
           (step_handler _ _ None
              (h_mouseDown Sample.envTap (mkPoint 300 640) Sample.blockA
                 move Sample.assigned HA))).
Qed.

Lemma rendered_top_maps_back_witness :
  getTimeFromPosition Sample.env Sample.twoClicks
    (rect_top Sample.gridRect + style_top (blockStyle Sample.blockB))%Q
  = start Sample.blockB.
Proof.
  refine (proj2 (rendered_top_maps_back Sample.env Sample.twoClicks
                   Sample.gridRect Sample.blockB _ _ _));
    vm_compute; reflexivity.
Defined.

Lemma move_stays_in_day_witness :
  exists s' block' m,
    handleInteractionMove Sample.env (MouseEv (mkPoint 610 700))
      Sample.grabPrepared = Some s'
    /\ findBlock "b" (blocks s') = Some block'
    /\ start block' = m * Js.MS_PER_MINUTE
    /\ m mod SNAP_MINUTES = 0
    /\ 0 <= m <= 1380.
Proof.
  destruct (move_stays_in_day Sample.env (MouseEv (mkPoint 610 700))
              Sample.grabPrepared Example.dragMove Sample.gridRect
              (mkPoint 610 700) Sample.blockB30 Example.element)
    as (s' & block' & m & Hs' & Hfind & Hstart & Hmod & Hm);
    try (vm_compute; reflexivity).
  exists s', block', m.
  repeat apply conj; [exact Hs'|exact Hfind|exact Hstart|exact Hmod| |];
    apply Hm.
Defined.

Lemma drag_changes_dragged_block_only_witness :
  exists s',
    handleInteractionMove Sample.env (MouseEv (mkPoint 610 700))
      Sample.grabPrepared = Some s'
    /\ heap s' = heap Sample.grabPrepared
    /\ blocks s' !! 0%nat = Some Sample.blockA.
Proof.
  destruct (handleInteractionMove Sample.env (MouseEv (mkPoint 610 700))
              Sample.grabPrepared) as [s'|] eqn:E;
    [|vm_compute in E; discriminate E].
  exists s'. split; [reflexivity|].
  destruct (drag_changes_dragged_block_only Sample.env
              (MouseEv (mkPoint 610 700)) Sample.grabPrepared s' E)
    as (Hh & _ & _ & _ & _ & _ & Hother).
  split; [exact Hh|].
  apply Hother; [vm_compute; reflexivity|].
  intros d Hd. vm_compute in Hd. injection Hd as <-. vm_compute.
  discriminate.
Defined.

Lemma deleteBlock_removes_by_id_witness :
  NoLaneOverlap (blocks (deleteBlock "a" Sample.twoClicks)).
Proof.
  refine (proj1 (proj2 (proj2 (proj2 (proj2
            (deleteBlock_removes_by_id "a" Sample.twoClicks))))) _).
  intros i j a b Hij Hi Hj Hcol.
  destruct i as [|[|i]], j as [|[|j]]; vm_compute in Hi, Hj;
    try discriminate; try congruence;
    injection Hi as <-; injection Hj as <-; vm_compute in Hcol;
    discriminate Hcol.
Defined.

Lemma double_press_opens_editor_witness :
  editingBlock
    (handleBlockMouseDown Example.envLate (mkPoint 400 640) Sample.blockA move
       (handleInteractionEnd Sample.env false
          (handleBlockMouseDown Sample.env (mkPoint 400 640) Sample.blockB
             move Sample.twoClicks)))
  = Some Sample.blockA.
Proof.
  assert (Hty : move <> prep) by discriminate.
  assert (Hlast : 300 <= now Sample.env - lastTapTime Sample.twoClicks)
    by (vm_compute; discriminate).
  assert (Hsoon : now Example.envLate - now Sample.env < 300)
    by (vm_compute; reflexivity).
  destruct (double_press_opens_editor Sample.env Sample.env Example.envLate
              (mkPoint 400 640) (mkPoint 400 640) Sample.blockB Sample.blockA
              move move Example.element Example.element Sample.twoClicks
              Hty eq_refl eq_refl Hlast Hsoon)
    as (_ & _ & _ & _ & Hopen & _).
  apply Hopen. exact Hty.
Defined.

Lemma resize_rendered_block_witness :
  exists s' block',
    handleInteractionMove Sample.env (MouseEv (mkPoint 400 700))
      (Sample.grab resize) = Some s'
    /\ findBlock "b" (blocks s') = Some block'
    /\ start block' = start Sample.blockB
    /\ end_ block' = start Sample.blockB + 120 * Js.MS_PER_MINUTE.
Proof.
  apply (resize_rendered_block Sample.env (MouseEv (mkPoint 400 700))
           (Sample.grab resize) Example.dragResize Sample.gridRect
           (mkPoint 400 700) Sample.blockB Example.element 60 60 4);
    try (vm_compute; reflexivity).
  repeat split; vm_compute; reflexivity.
Defined.

Lemma prep_stays_in_day_witness :
  exists s' block',
    handleInteractionMove Sample.env (MouseEv (mkPoint 400 670))
      (Sample.grab prep) = Some s'
    /\ findBlock "b" (blocks s') = Some block'
    /\ forall p, prepTime block' = Some p ->
         Js.startOfDay (start block') <= prep_start p < start block'
         /\ toDateString (prep_start p) = toDateString (start block').
Proof.
  apply (prep_stays_in_day Sample.env (MouseEv (mkPoint 400 670))
           (Sample.grab prep) Example.dragPrep Sample.gridRect
           (mkPoint 400 670) Sample.blockB Example.element);
    vm_compute; reflexivity.
Defined.

Lemma drawn_boxes_intersect_iff_witness :
  stylesIntersect (blockStyle Sample.blockA) (blockStyle Sample.blockB)
  <-> overlapping Sample.blockA Sample.blockB = true.
Proof.
  apply (drawn_boxes_intersect_iff Sample.blockA Sample.blockB);
    try (vm_compute; reflexivity);
    repeat split; vm_compute; reflexivity.
Defined.

Lemma late_block_drawn_height_witness :
  exists b,
    fst (createBlock Sample.env "z" 1500 Sample.empty) = Some b
    /\ b ∈ visibleBlocks (snd (createBlock Sample.env "z" 1500 Sample.empty))
    /\ (style_height (blockStyle b) == -1380)%Q.
Proof.
  apply (late_block_drawn_height Sample.env "z" 1500 Sample.empty
           Sample.gridRect);
    try (vm_compute; reflexivity); vm_compute; discriminate.
Defined.

Lemma reachable_blocks_ok_witness :
  Forall BlockOk (blocks Sample.editing)
  /\ optionOk (editingBlock Sample.editing)
  /\ optionOk (Some Sample.blockA).
Proof.
  apply (reachable_blocks_ok (mkApp Sample.editing (Some Sample.blockA))).
  apply sample_reachable.
Defined.

Lemma overlay_times_add_up_witness :
  exists s' block',
    handleInteractionMove Sample.env (MouseEv (mkPoint 400 670))
      (Sample.grab prep) = Some s'
    /\ findBlock "b" (blocks s') = Some block'
    /\ forall p, prepTime block' = Some p ->
         15 <= prep_duration p
         /\ prep_duration p mod SNAP_MINUTES = 0
         /\ calculateDriveTime (prep_duration p)
            = pretty (prep_duration p - 15)
         /\ getDepartureTime (prep_start p)
            + (prep_duration p - 15) * Js.MS_PER_MINUTE
            = start block'.
Proof.
  apply (overlay_times_add_up Sample.env (MouseEv (mkPoint 400 670))
           (Sample.grab prep) Example.dragPrep Sample.gridRect
           (mkPoint 400 670) Sample.blockB Example.element);
    vm_compute; reflexivity.
Defined.

Lemma done_overwrites_later_drag_witness :
  exists s1 b1 b',
    handleInteractionMove Sample.env (MouseEv (mkPoint 400 700))
      Example.editingGrabbed = Some s1
    /\ blocks s1 !! 0%nat = Some b1
    /\ start b1 = 10 * Js.MS_PER_HOUR
    /\ blocks (editorSession [] true s1) !! 0%nat = Some b'
    /\ start b' = 9 * Js.MS_PER_HOUR.
Proof.
  destruct (handleInteractionMove Sample.env (MouseEv (mkPoint 400 700))
              Example.editingGrabbed) as [s1|] eqn:E;
    [|vm_compute in E; discriminate E].
  destruct (blocks s1 !! 0%nat) as [b1|] eqn:E1;
    [|vm_compute in E; injection E as <-; vm_compute in E1; discriminate E1].
  destruct (done_overwrites_later_drag Sample.env
              (MouseEv (mkPoint 400 700)) [] Example.editingGrabbed s1
              Sample.blockA eq_refl E) as [_ Hback].
  destruct (Hback 0%nat b1 E1) as (b' & Hb' & _ & Hsame).
  assert (Hb1 : id b1 = id Sample.blockA /\ start b1 = 10 * Js.MS_PER_HOUR).
  { clear Hback Hb' Hsame. vm_compute in E. injection E as <-.
    vm_compute in E1. injection E1 as <-. split; reflexivity. }
  destruct Hb1 as [Hid Hst1]. destruct (Hsame Hid) as (Hst & _).
  exists s1, b1, b'.
  repeat apply conj; [reflexivity|exact E1|exact Hst1|exact Hb'|].
  rewrite Hst. reflexivity.
Defined.

Lemma done_restores_removed_mover_witness :
  exists b2,
    blocks (editorSession [] true (removeMover "1" Example.reopened))
      !! 0%nat = Some b2
    /\ id b2 = "a"%string
    /\ ("1"%string
        ∈ moversOf
            (heap (editorSession [] true (removeMover "1" Example.reopened)))
            b2).
Proof.
  destruct (blocks (removeMover "1" Example.reopened) !! 0%nat)
    as [b1|] eqn:E1; [|vm_compute in E1; discriminate E1].
  apply (done_restores_removed_mover "1" Example.reopened Sample.blockA
           eq_refl
           ltac:(refine (bool_decide_unpack _ _); vm_compute; exact I)
           0%nat b1 E1).
  vm_compute in E1. injection E1 as <-. reflexivity.
Defined.

Lemma double_toggle_order_witness :
  moversOf
    (snd (toggleMover "1"
            (fst (toggleMover "1" Sample.blockA (heap Example.reopened)))
            (snd (toggleMover "1" Sample.blockA (heap Example.reopened)))))
    (fst (toggleMover "1"
            (fst (toggleMover "1" Sample.blockA (heap Example.reopened)))
            (snd (toggleMover "1" Sample.blockA (heap Example.reopened)))))
  = ["2"; "1"]%string.
Proof.
  pose proof (double_toggle_order
                (mkApp Example.reopened (Some Sample.blockA)) Sample.blockA
                "1" example_reachable eq_refl) as H.
  cbv zeta in H. etransitivity; [exact H|]. vm_compute. reflexivity.
Defined.

Lemma second_click_takes_next_lane_witness :
  exists b1 b2,
    blocks (snd (createBlock Sample.env "b" 640
                   (snd (createBlock Sample.env "a" 640 Sample.empty))))
    = blocks Sample.empty ++ [b1; b2]
    /\ id b1 = "a"%string /\ id b2 = "b"%string
    /\ start b1 = 32400000 /\ end_ b1 = 36000000 /\ column b1 = 0
    /\ start b2 = 32400000 /\ end_ b2 = 36000000 /\ column b2 = 1.
Proof.
  apply (second_click_takes_next_lane Sample.env "a" "b" 640 Sample.empty);
    vm_compute; reflexivity.
Defined.

Lemma add_block_button_offset_witness :
  exists b,
    fst (addBlockClick Example.envMorning "z" Sample.empty) = Some b
    /\ start b = 7 * Js.MS_PER_HOUR + 30 * Js.MS_PER_MINUTE
    /\ end_ b = 8 * Js.MS_PER_HOUR + 30 * Js.MS_PER_MINUTE.
Proof.
  assert (Htop : (rect_top Sample.gridRect == inject_Z 100)%Q)
    by (vm_compute; reflexivity).
  assert (Hle : 100 <= Js.getHours (now Example.envMorning) * 60
                       + Js.getMinutes (now Example.envMorning))
    by (vm_compute; discriminate).
  destruct (add_block_button_offset Example.envMorning "z" Sample.empty
              Sample.gridRect 100 eq_refl eq_refl Htop Hle)
    as (b & Hb & Hs & He & _).
  exists b. rewrite Hb. repeat apply conj; [reflexivity| |].
  - rewrite Hs. vm_compute. reflexivity.
  - rewrite He, Hs. vm_compute. reflexivity.
Defined.

Lemma addMover_refuses_blank_name_witness :
  addMover "#123456" "  " Sample.empty = (Sample.empty, "  "%string).
Proof.
  apply (addMover_refuses_blank_name "#123456" "  " Sample.empty).
  repeat constructor.
Defined.

Lemma add_after_remove_repeats_id_witness :
  length (movers (removeMover "7"
                    (fst (addMover "#123456" "Zed"
                            (removeMover "2" Sample.twoClicks)))))
  = 5%nat.
Proof.
  refine (proj2 (proj2 (proj2 (proj2
            (add_after_remove_repeats_id "#123456" "Zed" 2 Sample.twoClicks
               _ _ _))))).
  - vm_compute. reflexivity.
  - vm_compute. lia.
  - vm_compute. discriminate.
Defined.

Lemma day_buttons_shift_one_day_witness :
  Sample.blockA ∉ visibleBlocks (nextDay Sample.oneClick).
Proof.
  refine (proj1 (proj1 (proj2 (proj2 (proj2 (proj2
            (day_buttons_shift_one_day Sample.env Sample.oneClick 0)))))
            Sample.blockA _)).
  vm_compute. apply list_elem_of_here.
Defined.

Lemma short_touch_opens_editor_witness :
  exists s' block,
    interactionMoves [(Sample.env, TouchEv [(7, mkPoint 400 700)])]
      (handleBlockTouchStart Sample.env (7, mkPoint 400 640) Sample.blockB
                             move Sample.twoClicks) = Some s'
    /\ editingBlock (handleInteractionEnd Example.envLate true s')
       = Some block
    /\ start block = 10 * Js.MS_PER_HOUR.
Proof.
  destruct (interactionMoves [(Sample.env, TouchEv [(7, mkPoint 400 700)])]
              (handleBlockTouchStart Sample.env (7, mkPoint 400 640)
                 Sample.blockB move Sample.twoClicks)) as [s'|] eqn:E;
    [|vm_compute in E; discriminate E].
  assert (Hlast : move <> prep ->
                  300 <= now Sample.env - lastTapTime Sample.twoClicks)
    by (intros _; vm_compute; discriminate).
  destruct (short_touch_opens_editor Sample.env Example.envLate
              (7, mkPoint 400 640) Sample.blockB move Example.element
              [(Sample.env, TouchEv [(7, mkPoint 400 700)])]
              Sample.twoClicks s' eq_refl Hlast E) as (_ & _ & Hopen).
  exists s'. vm_compute in E. injection E as <-.
  eexists. split; [reflexivity|]. split; [rewrite Hopen|];
    vm_compute; reflexivity.
Defined.
